(** * BountyHound Local: orchestration core

    A shallow embedding of the hunt orchestrator, the target lock manager,
    the priority scheduler, the cross-target pattern store, the JSON
    recovery of the LLM client and the validation pipeline, with the
    properties stated about them.

    Conventions.
    - Python [str] values are Rocq [string]s; slicing, [find], [rfind],
      [in], [strip], [lower] and [startswith] are written out in [PyStr].
    - A Redis key with an expiry is a key of a [gmap] bound to the instant
      at which it expires; every Redis command is executed atomically by
      the server, so a call is one state transition.
    - SQLite tables are lists of rows in rowid order; a column that no
      property reads is left out.
    - Instants are integers (microseconds); a Python float is the
      rational it stands for, and every operation on floats rounds its
      exact result to the nearest binary64 number.
    - Texts are byte strings: a length or an index counts bytes, and
      [lower] changes ASCII letters only. *)

From Stdlib Require Import Ascii QArith Qround Qminmax Lqa Qpower Qabs.
From stdpp Require Import gmap strings list fin_maps pretty sorting.

Local Open Scope string_scope.
Local Open Scope Z_scope.
Local Open Scope list_scope.

(** ** Python string operations *)

Module PyStr.

(** [needle in s] and [s.startswith(needle)] *)
Fixpoint startswith (needle s : string) : bool :=
  match needle, s with
  | EmptyString, _ => true
  | String a n', String b s' => if Ascii.eqb a b then startswith n' s' else false
  | String _ _, EmptyString => false
  end.

Fixpoint contains (needle s : string) : bool :=
  startswith needle s ||
  match s with
  | EmptyString => false
  | String _ s' => contains needle s'
  end.

(** [s.find(c)] for a one-character needle: the least index, or -1 *)
Fixpoint find_from (c : ascii) (s : string) (i : Z) : Z :=
  match s with
  | EmptyString => -1
  | String a s' => if Ascii.eqb a c then i else find_from c s' (i + 1)
  end.

Definition find (c : ascii) (s : string) : Z := find_from c s 0.

(** [s.rfind(c)]: the greatest index, or -1 *)
Fixpoint rfind_from (c : ascii) (s : string) (i : Z) (last : Z) : Z :=
  match s with
  | EmptyString => last
  | String a s' => rfind_from c s' (i + 1) (if Ascii.eqb a c then i else last)
  end.

Definition rfind (c : ascii) (s : string) : Z := rfind_from c s 0 (-1).

(** [s[a:b]] for indices [0 <= a], [0 <= b] *)
Definition slice (a b : Z) (s : string) : string :=
  String.substring (Z.to_nat a) (Z.to_nat (b - a)) s.

(** [s[:n]] *)
Definition upto (n : nat) (s : string) : string := String.substring 0 n s.

(** [s.lower()] on ASCII text *)
Definition lower_ascii (a : ascii) : ascii :=
  let n := nat_of_ascii a in
  if (65 <=? n)%nat && (n <=? 90)%nat then ascii_of_nat (n + 32) else a.

Fixpoint lower (s : string) : string :=
  match s with
  | EmptyString => EmptyString
  | String a s' => String (lower_ascii a) (lower s')
  end.

(** [s.strip()]: ASCII white space removed at both ends *)
Definition is_ws (a : ascii) : bool :=
  let n := nat_of_ascii a in
  ((9 <=? n)%nat && (n <=? 13)%nat) || (28 <=? n)%nat && (n <=? 32)%nat.

Fixpoint lstrip (s : string) : string :=
  match s with
  | String a s' => if is_ws a then lstrip s' else s
  | EmptyString => EmptyString
  end.

Definition strip (s : string) : string :=
  String.rev (lstrip (String.rev (lstrip s))).

(** Sample texts are written with apostrophes where the text has double
    quotes (character 34). *)
Fixpoint quoted (s : string) : string :=
  match s with
  | EmptyString => EmptyString
  | String a s' =>
      String (if Ascii.eqb a "'" then ascii_of_nat 34 else a) (quoted s')
  end.

(** truth value of a [str] *)
Definition truthy (s : string) : bool :=
  match s with EmptyString => false | _ => true end.

End PyStr.

(** ** Target lock manager and counters (redis_manager.py) *)

Module TaskQueue.

Definition PREFIX : string := "bhl:".

Definition lock_key (domain : string) : string := PREFIX +:+ "lock:" +:+ domain.

(** The keys that carry an expiry, each bound to the instant it expires at.
    A key whose instant has passed is gone for every command. *)
Definition exists_at (now : Z) (key : string) (leases : gmap string Z) : bool :=
  match leases !! key with
  | Some expiry => now <? expiry
  | None => false
  end.

(** [SET key "1" NX EX ttl]: redis-py answers [True] when the key was set
    and [None] when the key is there; the callers test the truth value. *)
Definition set_nx_ex (now : Z) (key : string) (ttl : Z) (leases : gmap string Z)
  : bool * gmap string Z :=
  if exists_at now key leases then (false, leases)
  else (true, <[key := now + ttl]> leases).

Definition set_target_lock (now : Z) (domain : string) (ttl : Z)
    (leases : gmap string Z) : bool * gmap string Z :=
  set_nx_ex now (lock_key domain) ttl leases.

Definition release_target_lock (domain : string) (leases : gmap string Z)
  : gmap string Z :=
  delete (lock_key domain) leases.

Definition is_target_locked (now : Z) (domain : string) (leases : gmap string Z)
  : bool :=
  exists_at now (lock_key domain) leases.

(** [INCRBY]: a missing counter counts from zero *)
Definition increment_stat (key : string) (amount : Z) (stats : gmap string Z)
  : gmap string Z :=
  <[PREFIX +:+ "stats:" +:+ key :=
      default 0 (stats !! (PREFIX +:+ "stats:" +:+ key)) + amount]> stats.

(** The lock commands the workers send, and a serialisation of them as the
    server executes it: each command with the instant it runs at. *)
Inductive command :=
| Acquire (domain : string) (ttl : Z)
| Release (domain : string)
| IsLocked (domain : string).

Definition exec (now : Z) (c : command) (leases : gmap string Z)
  : bool * gmap string Z :=
  match c with
  | Acquire d ttl => set_target_lock now d ttl leases
  | Release d => (true, release_target_lock d leases)
  | IsLocked d => (is_target_locked now d leases, leases)
  end.

Fixpoint run (sched : list (Z * command)) (leases : gmap string Z)
  : list bool * gmap string Z :=
  match sched with
  | [] => ([], leases)
  | (now, c) :: rest =>
      let '(r, leases') := exec now c leases in
      let '(rs, leases'') := run rest leases' in
      (r :: rs, leases'')
  end.

Definition releases (d : string) (c : command) : bool :=
  match c with
  | Release d' => String.eqb d d'
  | _ => false
  end.

End TaskQueue.

(** ** JSON values, as [json.loads] builds them *)

Module Json.

#[warnings="-register-all"]
Inductive json :=
| JNull
| JBool (b : bool)
| JInt (z : Z)
| JFloat (literal : string)
| JStr (s : string)
| JArr (items : list json)
| JObj (members : list (string * json)).

(** A [dict] keeps its keys in insertion order; storing under a key that
    is there replaces the value in place. *)
Fixpoint dict_get {A} (k : string) (d : list (string * A)) : option A :=
  match d with
  | [] => None
  | (k', v) :: d' => if String.eqb k k' then Some v else dict_get k d'
  end.

Fixpoint dict_set {A} (k : string) (v : A) (d : list (string * A))
  : list (string * A) :=
  match d with
  | [] => [(k, v)]
  | (k', v') :: d' =>
      if String.eqb k k' then (k, v) :: d' else (k', v') :: dict_set k v d'
  end.

(** [d.get(k)] and [d.get(k, dflt)] on a parsed object *)
Definition get (k : string) (d : list (string * json)) : json :=
  default JNull (dict_get k d).

Definition get_or (k : string) (dflt : json) (d : list (string * json)) : json :=
  default dflt (dict_get k d).

End Json.

(** ** Python exceptions *)

Module Py.

Inductive exn :=
| JSONDecodeError
| TypeError
| AttributeError
| IntegrityError
| InterfaceError
| TimeoutError
| OtherError (message : string).

Inductive outcome (A : Type) :=
| Ok (a : A)
| Raise (e : exn).

Arguments Ok {A} a.
Arguments Raise {A} e.

End Py.

(** ** [json.loads] *)

Module JsonLoads.
Import Json.

Inductive token :=
| TLBrace | TRBrace | TLBracket | TRBracket | TColon | TComma
| TString (s : string)
| TAtom (text : string).

(** The scanner reads a literal or a number where a value starts and
    wants a delimiter after it; a maximal run of the characters below is
    therefore one literal or one number, or the document is refused. *)
Definition is_atom_char (c : ascii) : bool :=
  let n := nat_of_ascii c in
  ((48 <=? n)%nat && (n <=? 57)%nat) || ((65 <=? n)%nat && (n <=? 90)%nat) ||
  ((97 <=? n)%nat && (n <=? 122)%nat) ||
  Ascii.eqb c "+" || Ascii.eqb c "-" || Ascii.eqb c ".".

Definition is_json_ws (c : ascii) : bool :=
  let n := nat_of_ascii c in
  (n =? 32)%nat || (n =? 9)%nat || (n =? 10)%nat || (n =? 13)%nat.

Definition is_digit (c : ascii) : bool :=
  let n := nat_of_ascii c in (48 <=? n)%nat && (n <=? 57)%nat.

Definition hex_value (c : ascii) : option nat :=
  let n := nat_of_ascii c in
  if (48 <=? n)%nat && (n <=? 57)%nat then Some (n - 48)%nat
  else if (65 <=? n)%nat && (n <=? 70)%nat then Some (n - 55)%nat
  else if (97 <=? n)%nat && (n <=? 102)%nat then Some (n - 87)%nat
  else None.

(** The UTF-8 bytes of a code point below 65536, last byte first (a
    surrogate pair is left as its two halves) *)
Definition utf8_rev (n : nat) : list ascii :=
  if (n <? 128)%nat then [ascii_of_nat n]
  else if (n <? 2048)%nat then
    [ascii_of_nat (128 + n mod 64); ascii_of_nat (192 + n / 64)]
  else
    [ascii_of_nat (128 + n mod 64); ascii_of_nat (128 + (n / 64) mod 64);
     ascii_of_nat (224 + n / 4096)].

Definition string_of_rev (acc : list ascii) : string :=
  fold_left (λ s c, String c s) acc EmptyString.

(** What the scanner is in the middle of; accumulators hold the
    characters read so far, last first. *)
Inductive lex_state :=
| LDefault
| LAtom (acc : list ascii)
| LStr (acc : list ascii)
| LEsc (acc : list ascii)
| LUni (acc : list ascii) (digits : list nat).

Definition lex_default (c : ascii) : option (list token * lex_state) :=
  if is_json_ws c then Some ([], LDefault)
  else if Ascii.eqb c "{" then Some ([TLBrace], LDefault)
  else if Ascii.eqb c "}" then Some ([TRBrace], LDefault)
  else if Ascii.eqb c "[" then Some ([TLBracket], LDefault)
  else if Ascii.eqb c "]" then Some ([TRBracket], LDefault)
  else if Ascii.eqb c ":" then Some ([TColon], LDefault)
  else if Ascii.eqb c "," then Some ([TComma], LDefault)
  else if (nat_of_ascii c =? 34)%nat then Some ([], LStr [])
  else if is_atom_char c then Some ([], LAtom [c])
  else None.

Definition unescape (c : ascii) : option ascii :=
  if (nat_of_ascii c =? 34)%nat then Some c
  else if Ascii.eqb c "\" then Some c
  else if Ascii.eqb c "/" then Some c
  else if Ascii.eqb c "b" then Some (ascii_of_nat 8)
  else if Ascii.eqb c "f" then Some (ascii_of_nat 12)
  else if Ascii.eqb c "n" then Some (ascii_of_nat 10)
  else if Ascii.eqb c "r" then Some (ascii_of_nat 13)
  else if Ascii.eqb c "t" then Some (ascii_of_nat 9)
  else None.

Definition lex_step (st : lex_state) (c : ascii) : option (list token * lex_state) :=
  match st with
  | LDefault => lex_default c
  | LAtom acc =>
      if is_atom_char c then Some ([], LAtom (c :: acc))
      else match lex_default c with
           | Some (toks, st') => Some (TAtom (string_of_rev acc) :: toks, st')
           | None => None
           end
  | LStr acc =>
      if (nat_of_ascii c =? 34)%nat then Some ([TString (string_of_rev acc)], LDefault)
      else if Ascii.eqb c "\" then Some ([], LEsc acc)
      else if (nat_of_ascii c <? 32)%nat then None
      else Some ([], LStr (c :: acc))
  | LEsc acc =>
      if Ascii.eqb c "u" then Some ([], LUni acc [])
      else match unescape c with
           | Some c' => Some ([], LStr (c' :: acc))
           | None => None
           end
  | LUni acc digits =>
      match hex_value c with
      | Some d =>
          match digits with
          | [d3; d2; d1] =>
              Some ([], LStr (utf8_rev (d + 16 * d3 + 256 * d2 + 4096 * d1) ++ acc))
          | _ => Some ([], LUni acc (d :: digits))
          end
      | None => None
      end
  end.

Fixpoint lex_from (st : lex_state) (s : string) : option (list token) :=
  match s with
  | EmptyString =>
      match st with
      | LDefault => Some []
      | LAtom acc => Some [TAtom (string_of_rev acc)]
      | _ => None
      end
  | String c s' =>
      match lex_step st c with
      | Some (toks, st') =>
          match lex_from st' s' with
          | Some rest => Some (toks ++ rest)
          | None => None
          end
      | None => None
      end
  end.

Definition lex (s : string) : option (list token) := lex_from LDefault s.

(** *** Numbers and literals *)

Fixpoint span_digits (s : string) : string * string :=
  match s with
  | String c s' =>
      if is_digit c then let '(d, r) := span_digits s' in (String c d, r)
      else (EmptyString, s)
  | EmptyString => (EmptyString, EmptyString)
  end.

Fixpoint digits_value (s : string) (acc : Z) : Z :=
  match s with
  | String c s' => digits_value s' (10 * acc + Z.of_nat (nat_of_ascii c - 48))
  | EmptyString => acc
  end.

(** The tail of a number: an optional fraction (a dot and digits), then
    an optional exponent (e or E, an optional sign, digits), up to the
    end of the text; the answer says whether either was read *)
Definition exponent_ok (s : string) : bool :=
  match s with
  | String e s' =>
      (Ascii.eqb e "e" || Ascii.eqb e "E") &&
      let s'' := match s' with
                 | String sign r =>
                     if Ascii.eqb sign "+" || Ascii.eqb sign "-" then r else s'
                 | EmptyString => s'
                 end in
      let '(d, r) := span_digits s'' in
      PyStr.truthy d && negb (PyStr.truthy r)
  | EmptyString => false
  end.

Definition tail_ok (s : string) : option bool :=
  match s with
  | EmptyString => Some false
  | String c s' =>
      if Ascii.eqb c "." then
        let '(d, r) := span_digits s' in
        if PyStr.truthy d then
          match r with
          | EmptyString => Some true
          | _ => if exponent_ok r then Some true else None
          end
        else None
      else if exponent_ok s then Some true else None
  end.

(** An optional minus sign, then a zero or a run of digits that starts
    with no zero, then the tail; an integer is a [JInt], anything with a
    fraction or an exponent keeps its text *)
Definition number_of (text : string) : option json :=
  let '(neg, body) :=
    match text with
    | String c r => if Ascii.eqb c "-" then (true, r) else (false, text)
    | EmptyString => (false, text)
    end in
  let '(d, r) := span_digits body in
  match d with
  | EmptyString => None
  | String c0 d' =>
      if Ascii.eqb c0 "0" && PyStr.truthy d' then None
      else match tail_ok r with
           | Some false =>
               Some (JInt (if neg then - digits_value d 0 else digits_value d 0))
           | Some true => Some (JFloat text)
           | None => None
           end
  end.

Definition atom_value (text : string) : option json :=
  if String.eqb text "null" then Some JNull
  else if String.eqb text "true" then Some (JBool true)
  else if String.eqb text "false" then Some (JBool false)
  else if String.eqb text "NaN" || String.eqb text "Infinity" ||
          String.eqb text "-Infinity" then Some (JFloat text)
  else number_of text.

(** *** The containers *)

Inductive frame :=
| FArr (items : list json)
| FObj (members : list (string * json)) (key : string).

Inductive expect :=
| PValue
| PArrFirst
| PObjFirst
| PKey
| PColon (key : string)
| PAfter
| PDone (v : json).

Definition push_value (v : json) (stack : list frame) : expect * list frame :=
  match stack with
  | [] => (PDone v, [])
  | FArr items :: st => (PAfter, FArr (v :: items) :: st)
  | FObj ms k :: st => (PAfter, FObj (dict_set k v ms) k :: st)
  end.

Definition start_value (t : token) (stack : list frame)
  : option (expect * list frame) :=
  match t with
  | TString s => Some (push_value (JStr s) stack)
  | TAtom a =>
      match atom_value a with
      | Some v => Some (push_value v stack)
      | None => None
      end
  | TLBrace => Some (PObjFirst, FObj [] "" :: stack)
  | TLBracket => Some (PArrFirst, FArr [] :: stack)
  | _ => None
  end.

Definition close_array (stack : list frame) : option (expect * list frame) :=
  match stack with
  | FArr items :: st => Some (push_value (JArr (rev items)) st)
  | _ => None
  end.

Definition close_object (stack : list frame) : option (expect * list frame) :=
  match stack with
  | FObj ms _ :: st => Some (push_value (JObj ms) st)
  | _ => None
  end.

Definition parse_step (e : expect) (stack : list frame) (t : token)
  : option (expect * list frame) :=
  match e with
  | PValue => start_value t stack
  | PArrFirst =>
      match t with
      | TRBracket => close_array stack
      | _ => start_value t stack
      end
  | PObjFirst =>
      match t with
      | TString k => Some (PColon k, stack)
      | TRBrace => close_object stack
      | _ => None
      end
  | PKey =>
      match t with
      | TString k => Some (PColon k, stack)
      | _ => None
      end
  | PColon k =>
      match t, stack with
      | TColon, FObj ms _ :: st => Some (PValue, FObj ms k :: st)
      | _, _ => None
      end
  | PAfter =>
      match t, stack with
      | TComma, FArr _ :: _ => Some (PValue, stack)
      | TComma, FObj _ _ :: _ => Some (PKey, stack)
      | TRBracket, _ => close_array stack
      | TRBrace, _ => close_object stack
      | _, _ => None
      end
  | PDone _ => None
  end.

Fixpoint parse_from (e : expect) (stack : list frame) (ts : list token)
  : option json :=
  match ts with
  | [] => match e with PDone v => Some v | _ => None end
  | t :: ts' =>
      match parse_step e stack t with
      | Some (e', stack') => parse_from e' stack' ts'
      | None => None
      end
  end.

(** Which container a frame builds and which one a value is: [true] for
    an object, [false] for an array. *)
Definition frame_kind (f : frame) : bool :=
  match f with FArr _ => false | FObj _ _ => true end.

Definition value_kind (v : json) : option bool :=
  match v with
  | JObj _ => Some true
  | JArr _ => Some false
  | _ => None
  end.

Fixpoint bottom_kind (stack : list frame) : option bool :=
  match stack with
  | [] => None
  | f :: st => match st with [] => Some (frame_kind f) | _ => bottom_kind st end
  end.

Definition is_done (e : expect) : bool :=
  match e with PDone _ => true | _ => false end.

(** [json.loads(s)]; [None] stands for [JSONDecodeError] *)
Definition loads (s : string) : option json :=
  match lex s with
  | Some ts => parse_from PValue [] ts
  | None => None
  end.

End JsonLoads.

(** ** LLM client (vllm_client.py) *)

Module VLLMClient.
Import Json Py.

Definition loads_or_raise (s : string) : outcome json :=
  match JsonLoads.loads s with
  | Some v => Ok v
  | None => Raise JSONDecodeError
  end.

(** The body of [chat_json] after [raw = self.chat(...)] *)
Definition chat_json (raw : string) : outcome json :=
  match JsonLoads.loads raw with
  | Some v => Ok v
  | None =>
      let start := PyStr.find "{" raw in
      let end_ := PyStr.rfind "}" raw + 1 in
      if (0 <=? start) && (start <? end_) then
        loads_or_raise (PyStr.slice start end_ raw)
      else
        let start := PyStr.find "[" raw in
        let end_ := PyStr.rfind "]" raw + 1 in
        if (0 <=? start) && (start <? end_) then
          loads_or_raise (PyStr.slice start end_ raw)
        else Raise JSONDecodeError
  end.

End VLLMClient.

(** ** [json.dumps] *)

Module JsonDumps.
Import Json.

(** [json.dumps(v)] with the defaults: [", "] between items, [": "] after
    a key, ASCII output.  Texts are ASCII here (Python escapes code
    points, and a byte above 127 is part of one); a float stands for its
    [repr]. *)
Definition hex_digit (n : nat) : ascii :=
  match n with
  | 0 => "0" | 1 => "1" | 2 => "2" | 3 => "3" | 4 => "4" | 5 => "5" | 6 => "6"
  | 7 => "7" | 8 => "8" | 9 => "9" | 10 => "a" | 11 => "b" | 12 => "c"
  | 13 => "d" | 14 => "e" | _ => "f"
  end%char%nat.

(** ['\\u{0:04x}'.format(n)] *)
Definition u_escape (n : nat) : string :=
  String "\" (String "u"
    (String (hex_digit (n / 4096)) (String (hex_digit ((n / 256) mod 16))
      (String (hex_digit ((n / 16) mod 16)) (String (hex_digit (n mod 16)) ""))))).

Definition escape_char (c : ascii) : string :=
  let n := nat_of_ascii c in
  if (n =? 34)%nat then String "\" (String c "")
  else if (n =? 92)%nat then "\\"
  else if (n =? 10)%nat then "\n"
  else if (n =? 13)%nat then "\r"
  else if (n =? 9)%nat then "\t"
  else if (n =? 8)%nat then "\b"
  else if (n =? 12)%nat then "\f"
  else if (n <? 32)%nat || (126 <? n)%nat then u_escape n
  else String c "".

Fixpoint escape (s : string) : string :=
  match s with
  | EmptyString => EmptyString
  | String c s' => escape_char c +:+ escape s'
  end.

Definition dquote : string := String (ascii_of_nat 34) "".

Definition quote (s : string) : string := dquote +:+ escape s +:+ dquote.

Fixpoint dumps (v : json) : string :=
  match v with
  | JNull => "null"
  | JBool b => if b then "true" else "false"
  | JInt z => pretty z
  | JFloat literal => literal
  | JStr s => quote s
  | JArr items => "[" +:+ String.concat ", " (map dumps items) +:+ "]"
  | JObj members =>
      "{" +:+
      String.concat ", " (map (λ '(k, v), quote k +:+ ": " +:+ dumps v) members) +:+
      "}"
  end.

(** The values the stores below are used with: no float, ASCII texts,
    and, as in a [dict], no key twice in an object. *)
Fixpoint is_ascii (s : string) : bool :=
  match s with
  | EmptyString => true
  | String c s' => (nat_of_ascii c <? 128)%nat && is_ascii s'
  end.

Fixpoint plain (v : json) : bool :=
  match v with
  | JFloat _ => false
  | JStr s => is_ascii s
  | JArr items => forallb plain items
  | JObj members =>
      forallb (λ '(k, v), is_ascii k && plain v) members &&
      bool_decide (NoDup members.*1)
  | _ => true
  end.

End JsonDumps.

(** ** Hunt states, finding lists and worker reports (redis_manager.py) *)

Module TaskQueueData.
Import Json Py TaskQueue.

(** *** Hunt state: [SET key json EX 86400], [GET key] *)

Definition hunt_state_key (hunt_id : Z) : string :=
  PREFIX +:+ "hunt:" +:+ pretty hunt_id +:+ ":state".

(** The string keys, each with its value and the instant it expires at *)
Definition redis_get (now : Z) (key : string) (values : gmap string (string * Z))
  : option string :=
  match values !! key with
  | Some (raw, expiry) => if now <? expiry then Some raw else None
  | None => None
  end.

Definition set_hunt_state (now : Z) (hunt_id : Z) (state : json)
    (values : gmap string (string * Z)) : gmap string (string * Z) :=
  <[hunt_state_key hunt_id := (JsonDumps.dumps state, now + 86400)]> values.

(** [json.loads(raw) if raw else None] *)
Definition get_hunt_state (now : Z) (hunt_id : Z) (values : gmap string (string * Z))
  : outcome (option json) :=
  match redis_get now (hunt_state_key hunt_id) values with
  | Some raw =>
      if PyStr.truthy raw then
        match VLLMClient.loads_or_raise raw with
        | Ok v => Ok (Some v)
        | Raise e => Raise e
        end
      else Ok None
  | None => Ok None
  end.

(** *** Findings of a hunt and cross-target patterns: [RPUSH], [LRANGE 0 -1] *)

Definition findings_key (hunt_id : Z) : string :=
  PREFIX +:+ "hunt:" +:+ pretty hunt_id +:+ ":findings".

Definition cross_patterns_key : string := PREFIX +:+ "cross_patterns".

Definition rpush (key item : string) (lists : gmap string (list string))
  : gmap string (list string) :=
  <[key := default [] (lists !! key) ++ [item]]> lists.

Definition lrange_all (key : string) (lists : gmap string (list string)) : list string :=
  default [] (lists !! key).

(** [[json.loads(x) for x in raw]] *)
Fixpoint loads_each (raw : list string) : outcome (list json) :=
  match raw with
  | [] => Ok []
  | x :: rest =>
      match VLLMClient.loads_or_raise x with
      | Ok v =>
          match loads_each rest with
          | Ok vs => Ok (v :: vs)
          | Raise e => Raise e
          end
      | Raise e => Raise e
      end
  end.

Definition publish_finding (hunt_id : Z) (finding : json)
    (lists : gmap string (list string)) : gmap string (list string) :=
  rpush (findings_key hunt_id) (JsonDumps.dumps finding) lists.

Definition get_findings (hunt_id : Z) (lists : gmap string (list string))
  : outcome (list json) :=
  loads_each (lrange_all (findings_key hunt_id) lists).

Definition store_cross_target_pattern (pattern : json)
    (lists : gmap string (list string)) : gmap string (list string) :=
  rpush cross_patterns_key (JsonDumps.dumps pattern) lists.

Definition get_cross_target_patterns (lists : gmap string (list string))
  : outcome (list json) :=
  loads_each (lrange_all cross_patterns_key lists).

(** *** Worker status: [HSET bhl:workers id json], [EXPIRE bhl:workers 600],
    [HGETALL bhl:workers] *)

(** The hash, when it is there: its fields and the instant it expires at *)
Definition fields_at (now : Z) (workers : option (gmap string string * Z))
  : gmap string string :=
  match workers with
  | Some (fields, expiry) => if now <? expiry then fields else ∅
  | None => ∅
  end.

Definition set_worker_status (now : Z) (worker_id : string) (status : json)
    (workers : option (gmap string string * Z)) : option (gmap string string * Z) :=
  Some (<[worker_id := JsonDumps.dumps status]> (fields_at now workers), now + 600).

(** [{k: json.loads(v) for k, v in raw.items()}] *)
Definition get_all_worker_status (now : Z) (workers : option (gmap string string * Z))
  : outcome (gmap string json) :=
  let raw := fields_at now workers in
  if bool_decide (map_Forall (λ _ v, is_Some (JsonLoads.loads v)) raw)
  then Ok (omap JsonLoads.loads raw)
  else Raise JSONDecodeError.

End TaskQueueData.

(** ** Tables (models.py) *)

Module Models.
Import Py.

(** A nullable TEXT column: [None] or a [str] *)
Inductive pyval :=
| PyNone
| PyStr (s : string).

Definition py_eq_str (v : pyval) (s : string) : bool :=
  match v with
  | PyStr s' => String.eqb s' s
  | PyNone => false
  end.

(** [str(v)], as an f-string renders it *)
Definition py_str (v : pyval) : string :=
  match v with
  | PyStr s => s
  | PyNone => "None"
  end.

Record target := mk_target {
  t_id : Z;
  t_domain : string;
  t_platform : string;
  t_bounty_min : Z;
  t_bounty_max : Z;
  t_priority : Z;
  t_status : string;
  t_last_full_hunt_at : option Z;
  t_total_findings : Z }.

Record hunt := mk_hunt {
  h_id : Z;
  h_target_id : Z;
  h_hunt_type : string;
  h_status : string;
  h_phase : string;
  h_completed_at : option Z;
  h_findings_count : Z;
  h_error : pyval }.

Record finding := mk_finding {
  f_id : Z;
  f_hunt_id : Z;
  f_target_id : Z;
  f_finding_type : string;
  f_severity : string;
  f_title : string;
  f_description : pyval;
  f_url : string;
  f_payload : pyval;
  f_curl_command : pyval;
  f_status : string;
  f_verified_by : pyval;
  f_verified_at : pyval }.

Record card := mk_card {
  c_id : Z;
  c_hunt_id : Z;
  c_hypothesis : string;
  c_confidence : string;
  c_status : string }.

Record recon_row := mk_recon_row {
  r_target_id : Z;
  r_data_type : string;
  r_data : Json.json }.

(** [output_summary] is an f-string [tag: value]; the tag and the
    interpolated value are kept apart. *)
Record worker_log := mk_worker_log {
  wl_hunt_id : option Z;
  wl_worker_type : string;
  wl_model_used : string;
  wl_task_type : string;
  wl_output_tag : string;
  wl_output_value : Json.json }.

Record database := mk_database {
  targets : list target;
  hunts : list hunt;
  hunt_seq : Z;
  findings : list finding;
  cards : list card;
  recon_data : list recon_row;
  worker_logs : list worker_log }.

Definition with_targets (ts : list target) (db : database) : database :=
  mk_database ts (hunts db) (hunt_seq db) (findings db) (cards db)
    (recon_data db) (worker_logs db).

Definition with_hunts (hs : list hunt) (seq : Z) (db : database) : database :=
  mk_database (targets db) hs seq (findings db) (cards db)
    (recon_data db) (worker_logs db).

Definition with_findings (fs : list finding) (db : database) : database :=
  mk_database (targets db) (hunts db) (hunt_seq db) fs (cards db)
    (recon_data db) (worker_logs db).

Definition with_worker_logs (ls : list worker_log) (db : database) : database :=
  mk_database (targets db) (hunts db) (hunt_seq db) (findings db) (cards db)
    (recon_data db) ls.

(** *** TargetDB *)

Definition TargetDB_get_by_id (target_id : Z) (db : database) : option target :=
  List.find (λ t, t_id t =? target_id) (targets db).

(** The keyword arguments of an [update] are the columns it assigns. *)
Inductive target_assign :=
| Set_t_status (s : string)
| Set_t_last_full_hunt_at (at_ : Z)
| Set_t_total_findings (n : Z).

Definition assign_target (t : target) (a : target_assign) : target :=
  match a with
  | Set_t_status s =>
      mk_target (t_id t) (t_domain t) (t_platform t) (t_bounty_min t)
        (t_bounty_max t) (t_priority t) s (t_last_full_hunt_at t)
        (t_total_findings t)
  | Set_t_last_full_hunt_at at_ =>
      mk_target (t_id t) (t_domain t) (t_platform t) (t_bounty_min t)
        (t_bounty_max t) (t_priority t) (t_status t) (Some at_)
        (t_total_findings t)
  | Set_t_total_findings n =>
      mk_target (t_id t) (t_domain t) (t_platform t) (t_bounty_min t)
        (t_bounty_max t) (t_priority t) (t_status t) (t_last_full_hunt_at t) n
  end.

(** [UPDATE targets SET ... WHERE domain=?] *)
Definition TargetDB_update (domain : string) (kwargs : list target_assign)
    (db : database) : database :=
  with_targets
    (map (λ t, if String.eqb (t_domain t) domain
               then fold_left assign_target kwargs t else t) (targets db))
    db.

(** *** HuntDB *)

Inductive hunt_assign :=
| Set_h_phase (s : string)
| Set_h_status (s : string)
| Set_h_error (e : pyval)
| Set_h_completed_at (at_ : Z)
| Set_h_findings_count (n : Z).

Definition assign_hunt (h : hunt) (a : hunt_assign) : hunt :=
  match a with
  | Set_h_phase s =>
      mk_hunt (h_id h) (h_target_id h) (h_hunt_type h) (h_status h) s
        (h_completed_at h) (h_findings_count h) (h_error h)
  | Set_h_status s =>
      mk_hunt (h_id h) (h_target_id h) (h_hunt_type h) s (h_phase h)
        (h_completed_at h) (h_findings_count h) (h_error h)
  | Set_h_error e =>
      mk_hunt (h_id h) (h_target_id h) (h_hunt_type h) (h_status h) (h_phase h)
        (h_completed_at h) (h_findings_count h) e
  | Set_h_completed_at at_ =>
      mk_hunt (h_id h) (h_target_id h) (h_hunt_type h) (h_status h) (h_phase h)
        (Some at_) (h_findings_count h) (h_error h)
  | Set_h_findings_count n =>
      mk_hunt (h_id h) (h_target_id h) (h_hunt_type h) (h_status h) (h_phase h)
        (h_completed_at h) n (h_error h)
  end.

(** [INSERT INTO hunts (target_id, hunt_type)]: the other columns take
    their defaults, the id is the next of the AUTOINCREMENT sequence.
    The connection has [PRAGMA foreign_keys=ON] and [target_id]
    references [targets(id)]: without a target of that id the statement
    fails, and it inserts nothing. *)
Definition HuntDB_create (target_id : Z) (hunt_type : string) (db : database)
  : outcome Z * database :=
  match TargetDB_get_by_id target_id db with
  | None => (Raise IntegrityError, db)
  | Some _ =>
      let id := hunt_seq db + 1 in
      (Ok id,
       with_hunts
         (hunts db ++ [mk_hunt id target_id hunt_type "running" "recon" None 0 PyNone])
         id db)
  end.

Definition HuntDB_get (hunt_id : Z) (db : database) : option hunt :=
  List.find (λ h, h_id h =? hunt_id) (hunts db).

Definition HuntDB_update (hunt_id : Z) (kwargs : list hunt_assign)
    (db : database) : database :=
  with_hunts
    (map (λ h, if h_id h =? hunt_id then fold_left assign_hunt kwargs h else h)
       (hunts db))
    (hunt_seq db) db.

Definition HuntDB_get_active (db : database) : list hunt :=
  List.filter (λ h, String.eqb (h_status h) "running") (hunts db).

(** *** FindingDB *)

Inductive finding_assign :=
| Set_f_status (s : string)
| Set_f_verified_by (s : string)
| Set_f_verified_at (s : string)
| Set_f_severity (s : string).

Definition assign_finding (f : finding) (a : finding_assign) : finding :=
  match a with
  | Set_f_status s =>
      mk_finding (f_id f) (f_hunt_id f) (f_target_id f) (f_finding_type f)
        (f_severity f) (f_title f) (f_description f) (f_url f) (f_payload f)
        (f_curl_command f) s (f_verified_by f) (f_verified_at f)
  | Set_f_verified_by s =>
      mk_finding (f_id f) (f_hunt_id f) (f_target_id f) (f_finding_type f)
        (f_severity f) (f_title f) (f_description f) (f_url f) (f_payload f)
        (f_curl_command f) (f_status f) (PyStr s) (f_verified_at f)
  | Set_f_verified_at s =>
      mk_finding (f_id f) (f_hunt_id f) (f_target_id f) (f_finding_type f)
        (f_severity f) (f_title f) (f_description f) (f_url f) (f_payload f)
        (f_curl_command f) (f_status f) (f_verified_by f) (PyStr s)
  | Set_f_severity s =>
      mk_finding (f_id f) (f_hunt_id f) (f_target_id f) (f_finding_type f)
        s (f_title f) (f_description f) (f_url f) (f_payload f)
        (f_curl_command f) (f_status f) (f_verified_by f) (f_verified_at f)
  end.

Definition FindingDB_get (finding_id : Z) (db : database) : option finding :=
  List.find (λ f, f_id f =? finding_id) (findings db).

Definition FindingDB_update (finding_id : Z) (kwargs : list finding_assign)
    (db : database) : database :=
  with_findings
    (map (λ f, if f_id f =? finding_id then fold_left assign_finding kwargs f else f)
       (findings db))
    db.

(** [ORDER BY severity, id]: rows are in id order, so a stable insertion
    by severity (byte order) gives the order of the query. *)
Fixpoint insert_by_severity (f : finding) (fs : list finding) : list finding :=
  match fs with
  | [] => [f]
  | g :: fs' =>
      if String.leb (f_severity f) (f_severity g) then f :: fs
      else g :: insert_by_severity f fs'
  end.

Definition FindingDB_get_by_hunt (hunt_id : Z) (db : database) : list finding :=
  foldr insert_by_severity []
    (List.filter (λ f, f_hunt_id f =? hunt_id) (findings db)).

Definition FindingDB_get_unverified (hunt_id : Z) (db : database) : list finding :=
  List.filter (λ f, (f_hunt_id f =? hunt_id) && String.eqb (f_status f) "unverified")
    (findings db).

(** *** HypothesisDB *)

(** [ORDER BY CASE confidence WHEN 'high' THEN 1 WHEN 'medium' THEN 2 ELSE 3] *)
Definition HypothesisDB_get_pending (hunt_id : Z) (db : database) : list card :=
  let pending :=
    List.filter (λ c, (c_hunt_id c =? hunt_id) && String.eqb (c_status c) "pending")
      (cards db) in
  List.filter (λ c, String.eqb (c_confidence c) "high") pending ++
  List.filter (λ c, String.eqb (c_confidence c) "medium") pending ++
  List.filter (λ c, negb (String.eqb (c_confidence c) "high") &&
                    negb (String.eqb (c_confidence c) "medium")) pending.

(** *** WorkerLogDB, ReconDB *)

Definition WorkerLogDB_log (entry : worker_log) (db : database) : database :=
  with_worker_logs (worker_logs db ++ [entry]) db.

(** [ORDER BY created_at DESC LIMIT 1]: the row stored last *)
Definition ReconDB_get_latest (target_id : Z) (data_type : string) (db : database)
  : option recon_row :=
  List.find (λ r, (r_target_id r =? target_id) && String.eqb (r_data_type r) data_type)
    (rev (recon_data db)).

End Models.

(** ** Python floats *)

(** A float is the rational it stands for; an operation gives the
    binary64 number nearest to the exact result, ties to the even
    significand.  The exponent range is not left above: the columns are
    64-bit integers, and no product of [score_target] comes near
    [2^1024]. *)
Module PyFloat.
Local Open Scope Q_scope.

(** [round(x)] to the nearest integer, ties to the even one *)
Definition round_half_even (x : Q) : Z :=
  let f := Qfloor x in
  let r := x - inject_Z f in
  match Qcompare r (1 # 2) with
  | Lt => f
  | Gt => (f + 1)%Z
  | Eq => if Z.even f then f else (f + 1)%Z
  end.

(** The exponent of a positive number: [2^e <= x < 2^(e+1)] *)
Definition ilog2 (x : Q) : Z :=
  let k := (Z.log2 (Qnum x) - Z.log2 (Zpos (Qden x)))%Z in
  if Qle_bool (2 ^ k) x then k else (k - 1)%Z.

(** The exponent of the last place of a binary64 number near [x]: 53
    significant bits, and no place below [2^-1074] *)
Definition ulp_exp (x : Q) : Z := Z.max (ilog2 (Qabs x) - 52) (-1074).

Definition round_at (q : Z) (x : Q) : Q :=
  inject_Z (round_half_even (x / 2 ^ q)) * 2 ^ q.

(** The binary64 number nearest to [x], ties to the even significand *)
Definition rnd (x : Q) : Q :=
  if Qeq_bool x 0 then 0 else round_at (ulp_exp x) x.

(** [float(n)], [a / b] on ints, and the operations on floats *)
Definition of_int (n : Z) : Q := rnd (inject_Z n).
Definition int_div (a b : Z) : Q := rnd (inject_Z a / inject_Z b).
Definition fadd (x y : Q) : Q := rnd (x + y).
Definition fmul (x y : Q) : Q := rnd (x * y).
Definition fdiv (x y : Q) : Q := rnd (x / y).

(** [round(x, 2)]: the decimal with two places nearest to the float, as
    a float *)
Definition round2 (x : Q) : Q := rnd (inject_Z (round_half_even (x * 100)) / 100).

End PyFloat.

(** ** Priority scheduler (scheduler.py) *)

Module PriorityScheduler.
Import Models PyFloat.

Local Open Scope Q_scope.

(** [bounty_avg = (bounty_min + bounty_max) / 2] and
    [max(bounty_avg / 1000, 0.1)] *)
Definition bounty_factor (t : target) : Q :=
  let bounty_avg := int_div (t_bounty_min t + t_bounty_max t) 2 in
  Qmax (fdiv bounty_avg 1000) (rnd (1 # 10)).

(** [(utcnow() - fromisoformat(last_hunt)).total_seconds() / 3600]: the
    difference is a whole number of microseconds, [total_seconds] divides
    it by [10**6] *)
Definition hours_since (now last : Z) : Q :=
  fdiv (int_div (now - last) 1000000) 3600.

Definition staleness (now : Z) (t : target) : Q :=
  match t_last_full_hunt_at t with
  | None => 10
  | Some last => Qmin (fdiv (hours_since now last) 24) 10
  end.

(** [1.0 + (total_findings * 0.2)] *)
Definition findings_rate (t : target) : Q :=
  fadd 1 (fmul (of_int (t_total_findings t)) (rnd (2 # 10))).

(** [priority / 5.0] *)
Definition manual (t : target) : Q := fdiv (of_int (t_priority t)) 5.

(** the local [score], before [round(score, 2)] *)
Definition raw_score (now : Z) (t : target) : Q :=
  fmul (fmul (fmul (bounty_factor t) (staleness now t)) (findings_rate t)) (manual t).

Definition score_target (now : Z) (t : target) : Q := round2 (raw_score now t).

(** One day in microseconds *)
Definition day_us : Z := 86400000000.

End PriorityScheduler.

(** ** Cross-target pattern store (cross_target.py) *)

Module CrossTargetAnalyzer.
Import Models.

Record transferable := mk_transferable {
  indicator : string;
  test : string;
  tp_payload : string }.

(** The table, in the order [items()] yields it. The payloads of the two
    GraphQL entries are JSON texts; their double quotes are written with
    the character code 34. *)
Definition dq : string := String (ascii_of_nat 34) EmptyString.

Definition TRANSFERABLE_PATTERNS : list (string * transferable) :=
  [ ("graphql_introspection",
     mk_transferable "graphql" "GraphQL introspection may be enabled"
       ("{" +:+ dq +:+ "query" +:+ dq +:+ ":" +:+ dq +:+
        "{ __schema { types { name } } }" +:+ dq +:+ "}"));
    ("graphql_aliasing",
     mk_transferable "graphql" "GraphQL aliasing for batch operations"
       ("{" +:+ dq +:+ "query" +:+ dq +:+ ":" +:+ dq +:+
        "{ a1: mutation1 { id } a2: mutation2 { id } }" +:+ dq +:+ "}"));
    ("idor_sequential",
     mk_transferable "api" "Sequential ID IDOR on API endpoints"
       "Change numeric ID in URL path");
    ("jwt_none_alg",
     mk_transferable "jwt" "JWT algorithm none bypass"
       "Modify JWT header to alg:none");
    ("cors_reflection",
     mk_transferable "api" "CORS origin reflection with credentials"
       "Origin: https://evil.com");
    ("admin_panel",
     mk_transferable "web" "Exposed admin panel at common paths"
       "/admin, /admin/login, /administrator, /wp-admin");
    ("debug_endpoints",
     mk_transferable "web" "Debug/dev endpoints in production"
       "/debug, /trace, /actuator, /env, /.env") ].

(** A hypothesis draft: the dict the function builds, key by key. *)
Record hypothesis := mk_hypothesis {
  hy_id : string;
  hy_hypothesis : string;
  hy_category : pyval;
  hy_confidence : string;
  hy_reasoning : string;
  hy_test_method : string;
  hy_payload : pyval;
  hy_success_indicator : string }.

(** [f"CT-{n:03d}"] *)
Definition pad3 (n : nat) : string :=
  let digits := pretty n in
  String.concat "" (replicate (3 - String.length digits) "0") +:+ digits.

Definition ct_id (n : nat) : string := "CT-" +:+ pad3 n.

(** [p.get(k)] on a pattern of the log *)
Definition pget (k : string) (p : gmap string pyval) : pyval :=
  default PyNone (p !! k).

Definition pget_or (k : string) (dflt : pyval) (p : gmap string pyval) : pyval :=
  default dflt (p !! k).

(** [p.get("source_domain") != target_domain] *)
Definition from_other_target (target_domain : string) (p : gmap string pyval) : bool :=
  negb (py_eq_str (pget "source_domain" p) target_domain).

(** [ftype = pattern.get("finding_type", "")] when it is a true value *)
Definition true_ftype (p : gmap string pyval) : option string :=
  match pget_or "finding_type" (PyStr "") p with
  | PyStr s => if PyStr.truthy s then Some s else None
  | PyNone => None
  end.

(** The dict appended by the direct-transfer loop when [len] hypotheses
    are in the list. *)
Definition direct_card (target_domain : string) (len : nat) (ftype : string)
    (p : gmap string pyval) : hypothesis :=
  mk_hypothesis
    (ct_id (len + 1))
    (ftype +:+ " found on " +:+ py_str (pget "source_domain" p) +:+
       " - test on " +:+ target_domain)
    (pget_or "category" (PyStr ftype) p)
    "medium"
    ("Successfully exploited on " +:+ py_str (pget "source_domain" p))
    "curl"
    (pget_or "payload" (PyStr "") p)
    ("Same behavior as on " +:+ py_str (pget "source_domain" p)).

Definition tech_card (len : nat) (tp : transferable) : hypothesis :=
  mk_hypothesis
    (ct_id (len + 1))
    (test tp)
    (PyStr "info_disclosure")
    "low"
    ("Tech stack includes " +:+ indicator tp +:+ "-related technology")
    "curl"
    (PyStr (tp_payload tp))
    "Endpoint returns meaningful data".

(** One turn of [for pattern in target_patterns], on the pair of the
    mutable [seen_types] and [hypotheses]. *)
Definition direct_step (target_domain : string)
    (st : gset string * list hypothesis) (p : gmap string pyval)
  : gset string * list hypothesis :=
  match true_ftype p with
  | Some ftype =>
      if bool_decide (ftype ∈ st.1) then st
      else ({[ftype]} ∪ st.1,
            st.2 ++ [direct_card target_domain (length st.2) ftype p])
  | None => st
  end.

(** One turn of [for name, pattern in TRANSFERABLE_PATTERNS.items()] *)
Definition tech_step (tech_lower : list string) (hypotheses : list hypothesis)
    (entry : string * transferable) : list hypothesis :=
  if existsb (PyStr.contains (indicator entry.2)) tech_lower
  then hypotheses ++ [tech_card (length hypotheses) entry.2]
  else hypotheses.

Definition get_transfer_hypotheses (patterns : list (gmap string pyval))
    (target_domain : string) (tech_stack : list string) : list hypothesis :=
  let target_patterns := List.filter (from_other_target target_domain) patterns in
  let hypotheses :=
    (fold_left (direct_step target_domain) target_patterns (∅, [])).2 in
  let tech_lower := map PyStr.lower tech_stack in
  let hypotheses := fold_left (tech_step tech_lower) TRANSFERABLE_PATTERNS hypotheses in
  take 15 hypotheses.

(** [analyze_findings]: one pattern appended to the log per finding;
    [stamp] is [datetime.utcnow().isoformat()]. *)
Definition pattern_of (source_domain stamp : string) (f : finding)
  : gmap string pyval :=
  <["source_domain" := PyStr source_domain]>
  (<["finding_type" := PyStr (f_finding_type f)]>
  (<["category" := PyStr (f_finding_type f)]>
  (<["technique" := PyStr (f_title f)]>
  (<["payload" := f_payload f]>
  (<["severity" := PyStr (f_severity f)]>
  (<["discovered_at" := PyStr stamp]> ∅)))))).

Definition analyze_findings (source_domain stamp : string) (fs : list finding)
    (log : list (gmap string pyval)) : list (gmap string pyval) :=
  log ++ map (pattern_of source_domain stamp) fs.

(** An idor pattern as [analyze_findings] stores it *)
Definition idor_pattern (source_domain payload : string) : gmap string pyval :=
  pattern_of source_domain "2026-01-01T00:00:00"
    (mk_finding 1 1 1 "idor" "high" "IDOR on /api/users" PyNone
       "https://example.test/api/users/2" (PyStr payload) PyNone
       "verified" (PyStr "poc-validator") (PyStr "2026-01-01T00:00:00Z")).

(** The patterns a direct-transfer hypothesis is made from: the first of
    each true finding type not in [seen], in the order of the list. *)
Fixpoint first_per_type (seen : gset string) (ps : list (gmap string pyval))
  : list (string * gmap string pyval) :=
  match ps with
  | [] => []
  | p :: ps' =>
      match true_ftype p with
      | Some ftype =>
          if bool_decide (ftype ∈ seen) then first_per_type seen ps'
          else (ftype, p) :: first_per_type ({[ftype]} ∪ seen) ps'
      | None => first_per_type seen ps'
      end
  end.

(** The cards of a list of sources, numbered from [len + 1] on *)
Fixpoint direct_cards (target_domain : string) (len : nat)
    (srcs : list (string * gmap string pyval)) : list hypothesis :=
  match srcs with
  | [] => []
  | (ftype, p) :: srcs' =>
      direct_card target_domain len ftype p ::
      direct_cards target_domain (S len) srcs'
  end.

(** What a direct-transfer hypothesis for [target_domain] made from a
    pattern of type [ftype] has to say: it is of medium confidence, it
    names the finding type and cites the target the pattern was found
    on, and it carries the payload of the pattern. *)
Definition cites_source (target_domain : string) (src : string * gmap string pyval)
    (h : hypothesis) : Prop :=
  let source := py_str (pget "source_domain" src.2) in
  hy_confidence h = "medium" ∧
  hy_hypothesis h
  = src.1 +:+ " found on " +:+ source +:+ " - test on " +:+ target_domain ∧
  hy_reasoning h = "Successfully exploited on " +:+ source ∧
  hy_success_indicator h = "Same behavior as on " +:+ source ∧
  hy_category h = pget_or "category" (PyStr src.1) src.2 ∧
  hy_payload h = pget_or "payload" (PyStr "") src.2 ∧
  hy_test_method h = "curl".

End CrossTargetAnalyzer.

(** ** The world the workers act on *)

Module World.
Import Models Py.

(** The values interpolated in the proof prompt of the validator (the
    fixed text of the f-string is left out). *)
Record proof_prompt := mk_proof_prompt {
  pp_finding_type : string;
  pp_url : string;
  pp_description : pyval;
  pp_payload : pyval;
  pp_curl_command : pyval;
  pp_status_code : string;
  pp_body : string }.

(** What leaves the process: shell commands, LLM requests and the calls
    of the collaborator tasks. *)
Inductive event :=
| EvCurl (command : string)
| EvChat (model_key : string) (prompt : proof_prompt)
| EvRecon (target_id hunt_id : Z) (domain : string)
| EvGenerateHypotheses (target_id hunt_id : Z) (domain : string)
| EvScanDelay (target_id hunt_id : Z) (domain : string)
| EvScanGet (timeout : Z)
| EvTestHypothesis (hunt_id target_id card_id : Z) (domain : string)
| EvGapDiscovery (target_id hunt_id : Z) (domain : string) (failed_tests : list string)
| EvReport (finding_id hunt_id : Z) (platform : string)
| EvHuntSummary (hunt_id target_id : Z) (domain : string).

(** The tables, and what Redis holds: the locks, the counters, the
    hash of the worker reports and the pattern log. *)
Record world := mk_world {
  db : database;
  leases : gmap string Z;
  stats : gmap string Z;
  workers : option (gmap string string * Z);
  cross_patterns : list (gmap string pyval);
  trace : list event }.

Definition with_db (d : database) (w : world) : world :=
  mk_world d (leases w) (stats w) (workers w) (cross_patterns w) (trace w).

Definition with_leases (l : gmap string Z) (w : world) : world :=
  mk_world (db w) l (stats w) (workers w) (cross_patterns w) (trace w).

Definition with_stats (s : gmap string Z) (w : world) : world :=
  mk_world (db w) (leases w) s (workers w) (cross_patterns w) (trace w).

Definition with_workers (ws : option (gmap string string * Z)) (w : world) : world :=
  mk_world (db w) (leases w) (stats w) ws (cross_patterns w) (trace w).

Definition with_cross_patterns (ps : list (gmap string pyval)) (w : world) : world :=
  mk_world (db w) (leases w) (stats w) (workers w) ps (trace w).

Definition emit (e : event) (w : world) : world :=
  mk_world (db w) (leases w) (stats w) (workers w) (cross_patterns w) (trace w ++ [e]).

(** [run_curl] returns a dict with these three keys on every path. *)
Record curl_result := mk_curl_result {
  stdout : string;
  stderr : string;
  returncode : Z }.

Record recon_result := mk_recon_result {
  rr_status : pyval;
  rr_error : pyval }.

(** A collaborator task sees the world and returns or raises.  It may
    write the tables and, through the LLM client and its own status
    reports, the counters and the worker hash; what it leaves is the
    world it answers with ([call] below keeps the locks and the trace). *)
Definition task (A : Type) : Type := world → outcome A * world.

(** A task that only reads and writes the tables *)
Definition on_tables {A} (t : database → outcome A * database) : task A :=
  λ w, let '(r, d) := t (db w) in (r, with_db d w).

(** The surroundings of a run.  The answers may depend on all that has
    happened so far (the trace).  [chat] is the content of the reply,
    [chat_tokens] is [usage.total_tokens] of the same reply (0 without
    usage), [request_id] is [self.request.id] as an f-string shows it. *)
Record env := mk_env {
  now : list event → Z;
  isoformat : Z → string;
  strftime : list event → string;
  urlparse_hostname : string → option string;
  run_curl : list event → string → curl_result;
  chat : list event → string → proof_prompt → outcome string;
  chat_tokens : list event → string → proof_prompt → Z;
  request_id : list event → string;
  run_recon : Z → Z → string → task recon_result;
  generate_hypotheses : Z → Z → string → Json.json → task unit;
  run_scan_get : Z → Z → string → task unit;
  test_hypothesis_browser : Z → Z → card → string → task unit;
  gap_triggered_discovery : Z → Z → string → list string → task unit;
  generate_report : Z → Z → string → task unit;
  generate_hunt_summary : Z → Z → string → task unit }.

(** Computations: state passing with exceptions; the state a raise
    leaves behind is kept. *)
Definition M (A : Type) : Type := world → outcome A * world.

Definition ret {A} (a : A) : M A := λ w, (Ok a, w).

Definition raise {A} (e : exn) : M A := λ w, (Raise e, w).

Definition bind {A B} (m : M A) (k : A → M B) : M B :=
  λ w, match m w with
       | (Ok a, w') => k a w'
       | (Raise e, w') => (Raise e, w')
       end.

(** [try: body finally: cleanup] *)
Definition try_finally {A} (body : M A) (cleanup : world → world) : M A :=
  λ w, let '(r, w') := body w in (r, cleanup w').

Definition gets {A} (f : world → A) : M A := λ w, (Ok (f w), w).

Definition modify (f : world → world) : M unit := λ w, (Ok tt, f w).

Definition lift {A} (r : outcome A) : M A := λ w, (r, w).

(** What a collaborator task that answers with [w'] leaves of [w]: the
    tables, the counters, the worker hash and the pattern log are as the
    task leaves them.  No collaborator takes or releases a target lock. *)
Definition task_result (w w' : world) : world :=
  mk_world (db w') (leases w) (stats w') (workers w') (cross_patterns w') (trace w).

(** A call of a collaborator task: it is run and recorded. *)
Definition call {A} (e : event) (t : task A) : M A :=
  λ w, let '(r, w') := t w in (r, emit e (task_result w w')).

(** The requests to the LLM *)
Definition is_chat (e : event) : bool :=
  match e with EvChat _ _ => true | _ => false end.

(** The calls of the gap-triggered discovery in a trace *)
Definition is_gap (e : event) : bool :=
  match e with EvGapDiscovery _ _ _ _ => true | _ => false end.

Definition gap_calls (h : list event) : nat := length (List.filter is_gap h).

(** A computation is gap-neutral when it adds no call of the gap
    discovery to the trace, whether it returns or raises. *)
Definition neutral {A} (m : M A) : Prop :=
  ∀ w, gap_calls (trace (m w).2) = gap_calls (trace w).

Fixpoint for_each {A} (xs : list A) (body : A → M unit) : M unit :=
  match xs with
  | [] => ret tt
  | x :: xs' => bind (body x) (λ _, for_each xs' body)
  end.

End World.

Notation "'let*' x ':=' m 'in' k" := (World.bind m (λ x, k))
  (at level 10, x binder, m at level 100, k at level 200, only parsing).

(** ** Validation pipeline (validator.py) *)

Module Validator.
Import Models Json Py World.

Record step := mk_step {
  step_name : string;
  step_result : string;
  step_evidence : json }.

Inductive val_result :=
| VError (error : string)
| VConfirmed (finding_id : Z) (steps : list step) (verdict : json)
| VFalsePositive (finding_id : Z) (steps : list step) (reason : json).

(** [result.get("status") == "CONFIRMED"] *)
Definition is_confirmed (r : val_result) : bool :=
  match r with VConfirmed _ _ _ => true | _ => false end.

(** *** Python operations on decoded JSON *)

(** [v.get(k)] and [v.get(k, dflt)]: only a dict has [get] *)
Definition py_get (v : json) (k : string) : outcome json :=
  match v with
  | JObj ms => Ok (Json.get k ms)
  | _ => Raise AttributeError
  end.

Definition py_get_or (v : json) (k : string) (dflt : json) : outcome json :=
  match v with
  | JObj ms => Ok (Json.get_or k dflt ms)
  | _ => Raise AttributeError
  end.

(** [v[:n]]: a str or a list can be sliced *)
Definition py_slice (n : nat) (v : json) : outcome json :=
  match v with
  | JStr s => Ok (JStr (PyStr.upto n s))
  | JArr items => Ok (JArr (take n items))
  | _ => Raise TypeError
  end.

(** [v == "text"] *)
Definition py_is_str (v : json) (text : string) : bool :=
  match v with
  | JStr s => String.eqb s text
  | _ => false
  end.

(** A value bound to a TEXT NOT NULL column: a number is stored as its
    text (for a real, the literal stands for the text SQLite renders), a
    NULL breaks the constraint, a list or a dict cannot be bound. *)
Definition bind_text (v : json) : outcome string :=
  match v with
  | JStr s => Ok s
  | JInt z => Ok (pretty z)
  | JBool b => Ok (if b then "1" else "0")
  | JFloat literal => Ok literal
  | JNull => Raise IntegrityError
  | JArr _ | JObj _ => Raise InterfaceError
  end.

(** *** Helpers of the module *)

(** [s.split(c)[0]] *)
Fixpoint before (c : ascii) (s : string) : string :=
  match s with
  | EmptyString => EmptyString
  | String a s' => if Ascii.eqb a c then EmptyString else String a (before c s')
  end.

Definition _extract_domain (E : env) (url : string) : string :=
  if PyStr.contains "://" url then
    match urlparse_hostname E url with
    | Some host => if PyStr.truthy host then host else url
    | None => url
    end
  else before ":" (before "/" url).

Definition waf_indicators : list string :=
  ["cloudflare"; "akamai"; "incapsula"; "imperva";
   "sucuri"; "barracuda"; "f5"; "fortinet";
   "attention required"; "access denied"; "request blocked"].

Definition _check_waf (headers : string) : bool :=
  let headers_lower := PyStr.lower headers in
  existsb (λ indicator, PyStr.contains indicator headers_lower) waf_indicators.

(** The four command lines *)
Definition dns_command (domain : string) : string := "nslookup " +:+ domain.

Definition http_command (domain : string) : string :=
  PyStr.quoted "curl -s -I -m 10 'https://" +:+ domain +:+ PyStr.quoted "'".

Definition endpoint_command (url : string) : string :=
  PyStr.quoted "curl -s -o /dev/null -w '%{http_code}' -m 10 '" +:+ url +:+
  PyStr.quoted "'".

Definition body_command (url : string) : string :=
  PyStr.quoted "curl -s -m 10 '" +:+ url +:+ PyStr.quoted "'".

Definition pass_fail (b : bool) : string := if b then "PASS" else "FAIL".

(** The tests of the first three steps and the entries they append to
    [steps] *)
Definition dns_pass (dns_result : curl_result) : bool :=
  PyStr.contains "Address" (stdout dns_result) &&
  negb (PyStr.contains "NXDOMAIN" (stdout dns_result)).

Definition dns_step (dns_result : curl_result) : step :=
  mk_step "dns" (pass_fail (dns_pass dns_result))
    (JStr (PyStr.upto 200 (stdout dns_result))).

Definition http_pass (http_result : curl_result) : bool :=
  (returncode http_result =? 0) && PyStr.truthy (PyStr.strip (stdout http_result)).

Definition http_step (http_result : curl_result) : step :=
  let waf_blocked := _check_waf (stdout http_result) in
  mk_step "http" (pass_fail (http_pass http_result && negb waf_blocked))
    (JStr (PyStr.upto 300 (stdout http_result))).

Definition unreachable_reason (http_result : curl_result) : string :=
  "Host unreachable (exit " +:+ pretty (returncode http_result) +:+ ")".

Definition endpoint_pass (status_code : string) : bool :=
  PyStr.startswith "2" status_code || String.eqb status_code "301" ||
  String.eqb status_code "302".

(** [status_code in ("404", "403", "401")] *)
Definition endpoint_rejected (status_code : string) : bool :=
  String.eqb status_code "404" || String.eqb status_code "403" ||
  String.eqb status_code "401".

Definition endpoint_step (status_code body : string) : step :=
  mk_step "endpoint" (pass_fail (endpoint_pass status_code))
    (JStr ("HTTP " +:+ status_code +:+ ", body length: " +:+
           pretty (String.length body))).

Section WithEnv.
Context (E : env).

Definition curl (command : string) : M curl_result :=
  λ w, (Ok (run_curl E (trace w) command), emit (EvCurl command) w).

(** The world after [VLLMClient.chat] has counted a reply: the tokens,
    then the call; [h] is the history the request was made in. *)
Definition chat_counted (h : list event) (model_key : string) (prompt : proof_prompt)
    (w : world) : world :=
  with_stats
    (TaskQueue.increment_stat ("calls:" +:+ model_key) 1
       (TaskQueue.increment_stat ("tokens:" +:+ model_key)
          (chat_tokens E h model_key prompt) (stats w))) w.

(** [get_llm().chat_json(model_key, ...)]: [chat] sends the request,
    counts the reply and returns its content; then the content is
    parsed. *)
Definition llm_chat_json (model_key : string) (prompt : proof_prompt) : M json :=
  λ w, let w' := emit (EvChat model_key prompt) w in
       match chat E (trace w) model_key prompt with
       | Ok raw => (VLLMClient.chat_json raw, chat_counted (trace w) model_key prompt w')
       | Raise e => (Raise e, w')
       end.

(** [TaskQueue.set_worker_status(worker_id, status)] *)
Definition set_worker_status_m (worker_id : string) (status : json) : M unit :=
  modify (λ w,
    with_workers
      (TaskQueueData.set_worker_status (now E (trace w)) worker_id status (workers w))
      w).

(** [f"validator-{self.request.id}"] *)
Definition validator_id (w : world) : string := "validator-" +:+ request_id E (trace w).

Definition running_status (finding_id : Z) : json :=
  JObj [("task", JStr "validate"); ("finding_id", JInt finding_id);
        ("status", JStr "running")].

Definition complete_status : json := JObj [("status", JStr "complete")].

Definition FindingDB_update_m (finding_id : Z) (kwargs : list finding_assign) : M unit :=
  modify (λ w, with_db (FindingDB_update finding_id kwargs (db w)) w).

Definition WorkerLogDB_log_m (entry : worker_log) : M unit :=
  modify (λ w, with_db (WorkerLogDB_log entry (db w)) w).

Definition _fail_finding (finding_id : Z) (steps : list step) (reason : json)
  : M val_result :=
  let* stamp := gets (λ w, strftime E (trace w)) in
  let* _ := FindingDB_update_m finding_id
    [Set_f_status "false_positive"; Set_f_verified_by "poc-validator";
     Set_f_verified_at stamp] in
  let* shown := lift (py_slice 100 reason) in
  let* _ := WorkerLogDB_log_m
    (mk_worker_log None "validator" "mistral-7b" "validate" "FALSE_POSITIVE" shown) in
  ret (VFalsePositive finding_id steps reason).

(** Step 4 and the verdict, given what step 3 read *)
Definition vulnerability_proof (worker : string) (finding_id : Z) (finding : finding)
    (hunt_id : Z) (steps : list step) (status_code body : string) : M val_result :=
  let* verdict := llm_chat_json "validator"
    (mk_proof_prompt (f_finding_type finding) (f_url finding)
       (f_description finding) (f_payload finding) (f_curl_command finding)
       status_code (PyStr.upto 2000 body)) in
  let* claimed := lift (py_get verdict "verdict") in
  let* evidence := lift (py_get_or verdict "evidence" (JStr "")) in
  let* evidence := lift (py_slice 300 evidence) in
  let steps := steps ++
    [mk_step "vuln_proof" (pass_fail (py_is_str claimed "CONFIRMED")) evidence] in
  if py_is_str claimed "CONFIRMED" then
    let* stamp := gets (λ w, strftime E (trace w)) in
    let* _ := FindingDB_update_m finding_id
      [Set_f_status "verified"; Set_f_verified_by "poc-validator";
       Set_f_verified_at stamp] in
    let* adjustment := lift (py_get verdict "severity_adjustment") in
    let* _ :=
      if negb (py_is_str adjustment "none") then
       let* adjusted := lift (py_get_or verdict "adjusted_severity"
                          (JStr (f_severity finding))) in
       let* severity := lift (bind_text adjusted) in
       FindingDB_update_m finding_id [Set_f_severity severity]
      else ret tt in
    let* _ := WorkerLogDB_log_m
      (mk_worker_log (Some hunt_id) "validator" "mistral-7b" "validate"
         "CONFIRMED" (JStr (PyStr.upto 100 (f_title finding)))) in
    let* _ := set_worker_status_m worker complete_status in
    ret (VConfirmed finding_id steps verdict)
  else
    let* reason := lift (py_get_or verdict "reasoning" (JStr "Not confirmed")) in
    _fail_finding finding_id steps reason.

(** [validate_finding]; the durations are left out. *)
Definition validate_finding (finding_id hunt_id : Z) : M val_result :=
  let* worker := gets validator_id in
  let* _ := set_worker_status_m worker (running_status finding_id) in
  let* found := gets (λ w, FindingDB_get finding_id (db w)) in
  match found with
  | None => ret (VError "Finding not found")
  | Some finding =>
      let url := f_url finding in
      (* Step 1: DNS Resolution *)
      let domain := _extract_domain E url in
      let* dns_result := curl (dns_command domain) in
      let steps := [dns_step dns_result] in
      if negb (dns_pass dns_result) then
        _fail_finding finding_id steps (JStr "Domain does not resolve")
      else
      (* Step 2: HTTP Reachability *)
      let* http_result := curl (http_command domain) in
      let steps := steps ++ [http_step http_result] in
      if negb (http_pass http_result) then
        _fail_finding finding_id steps (JStr (unreachable_reason http_result))
      else
      (* Step 3: Endpoint Existence *)
      let* endpoint_result := curl (endpoint_command url) in
      let status_code := PyStr.strip (stdout endpoint_result) in
      let* body_result := curl (body_command url) in
      let body := PyStr.upto 3000 (stdout body_result) in
      let steps := steps ++ [endpoint_step status_code body] in
      if negb (endpoint_pass status_code) && endpoint_rejected status_code then
        _fail_finding finding_id steps
          (JStr ("Endpoint returns HTTP " +:+ status_code))
      else
      (* Step 4: Vulnerability-Specific Proof *)
      vulnerability_proof worker finding_id finding hunt_id steps status_code body
  end.

(** The world after the status report a run starts with *)
Definition started (finding_id : Z) (w : world) : world :=
  with_workers
    (TaskQueueData.set_worker_status (now E (trace w)) (validator_id w)
       (running_status finding_id) (workers w))
    w.

(** The world a rejection leaves: the row marked, the reason logged (cut
    at 100 characters), the trace [h]; all else as in [w]. *)
Definition rejected_world (finding_id : Z) (shown : json) (h : list event)
    (w : world) : world :=
  mk_world
    (WorkerLogDB_log
       (mk_worker_log None "validator" "mistral-7b" "validate" "FALSE_POSITIVE" shown)
       (FindingDB_update finding_id
          [Set_f_status "false_positive"; Set_f_verified_by "poc-validator";
           Set_f_verified_at (strftime E h)] (db w)))
    (leases w) (stats w) (workers w) (cross_patterns w) h.

(** The histories after each command of the pipeline *)
Definition after_dns (w : world) (f : finding) : list event :=
  trace w ++ [EvCurl (dns_command (_extract_domain E (f_url f)))].

Definition after_http (w : world) (f : finding) : list event :=
  after_dns w f ++ [EvCurl (http_command (_extract_domain E (f_url f)))].

Definition after_endpoint (w : world) (f : finding) : list event :=
  after_http w f ++ [EvCurl (endpoint_command (f_url f))].

Definition after_body (w : world) (f : finding) : list event :=
  after_endpoint w f ++ [EvCurl (body_command (f_url f))].

(** What the commands answer in the run that starts in [w] *)
Definition dns_answer (w : world) (f : finding) : curl_result :=
  run_curl E (trace w) (dns_command (_extract_domain E (f_url f))).

Definition http_answer (w : world) (f : finding) : curl_result :=
  run_curl E (after_dns w f) (http_command (_extract_domain E (f_url f))).

Definition status_answer (w : world) (f : finding) : string :=
  PyStr.strip (stdout (run_curl E (after_http w f) (endpoint_command (f_url f)))).

Definition body_answer (w : world) (f : finding) : string :=
  PyStr.upto 3000 (stdout (run_curl E (after_endpoint w f) (body_command (f_url f)))).

Definition steps_dns (w : world) (f : finding) : list step :=
  [dns_step (dns_answer w f)].

Definition steps_http (w : world) (f : finding) : list step :=
  steps_dns w f ++ [http_step (http_answer w f)].

Definition steps_endpoint (w : world) (f : finding) : list step :=
  steps_http w f ++ [endpoint_step (status_answer w f) (body_answer w f)].

Definition prompt_of (w : world) (f : finding) : proof_prompt :=
  mk_proof_prompt (f_finding_type f) (f_url f) (f_description f) (f_payload f)
    (f_curl_command f) (status_answer w f) (PyStr.upto 2000 (body_answer w f)).

End WithEnv.

End Validator.

(** ** Hunt orchestrator (brain.py) *)

Module Brain.
Import Models Json Py World.

Inductive hunt_result :=
| HError (error : string)
| HSkipped (reason : string)
| HFailed (phase : string) (error : pyval)
| HComplete (hunt_id : Z) (domain : string)
    (total_findings : nat) (verified : Z) (reported : nat).

Section WithEnv.
Context (E : env).

Definition set_target_lock_m (domain : string) (ttl : Z) : M bool :=
  λ w, let '(r, l) :=
         TaskQueue.set_target_lock (now E (trace w)) domain ttl (leases w) in
       (Ok r, with_leases l w).

Definition release_target_lock_w (domain : string) (w : world) : world :=
  with_leases (TaskQueue.release_target_lock domain (leases w)) w.

Definition increment_stat_m (key : string) (amount : Z) : M unit :=
  modify (λ w, with_stats (TaskQueue.increment_stat key amount (stats w)) w).

Definition HuntDB_create_m (target_id : Z) (hunt_type : string) : M Z :=
  λ w, let '(r, d) := HuntDB_create target_id hunt_type (db w) in
       (r, with_db d w).

Definition HuntDB_update_m (hunt_id : Z) (kwargs : list hunt_assign) : M unit :=
  modify (λ w, with_db (HuntDB_update hunt_id kwargs (db w)) w).

Definition TargetDB_update_m (domain : string) (kwargs : list target_assign) : M unit :=
  modify (λ w, with_db (TargetDB_update domain kwargs (db w)) w).

(** [for card in cards: test_hypothesis_browser(hunt_id, target_id, card, domain)] *)
Definition test_cards (hunt_id target_id : Z) (domain : string) (cards : list card)
  : M unit :=
  for_each cards (λ card,
    call (EvTestHypothesis hunt_id target_id (c_id card) domain)
      (test_hypothesis_browser E hunt_id target_id card domain)).

(** PHASE 1: Recon *)
Definition recon (target_id hunt_id : Z) (domain : string) : M recon_result :=
  let* _ := HuntDB_update_m hunt_id [Set_h_phase "recon"] in
  call (EvRecon target_id hunt_id domain) (run_recon E target_id hunt_id domain).

(** PHASE 1.5: Discovery *)
Definition discovery (target_id hunt_id : Z) (domain : string) : M unit :=
  let* _ := HuntDB_update_m hunt_id [Set_h_phase "discovery"] in
  let* recon_data := gets (λ w, ReconDB_get_latest target_id "subdomains" (db w)) in
  let recon_dict :=
    match recon_data with
    | Some row => r_data row
    | None => JArr []
    end in
  call (EvGenerateHypotheses target_id hunt_id domain)
    (generate_hypotheses E target_id hunt_id domain
       (JObj [("subdomains", recon_dict); ("technologies", JArr [])])).

(** PHASE 2: Parallel testing.  The scan is dispatched, the cards are
    tested one after the other, then the scan result is awaited; what the
    scan wrote is seen when the wait returns. *)
Definition testing (target_id hunt_id : Z) (domain : string) : M (list card) :=
  let* _ := HuntDB_update_m hunt_id [Set_h_phase "testing"] in
  let* _ := modify (emit (EvScanDelay target_id hunt_id domain)) in
  let* cards := gets (λ w, HypothesisDB_get_pending hunt_id (db w)) in
  let* _ := test_cards hunt_id target_id domain cards in
  let* _ := call (EvScanGet 900) (run_scan_get E target_id hunt_id domain) in
  ret cards.

(** PHASE 3: Sync & dedupe, with the gap-triggered second wave *)
Definition sync (target_id hunt_id : Z) (domain : string) (cards : list card)
  : M (list finding) :=
  let* _ := HuntDB_update_m hunt_id [Set_h_phase "sync"] in
  let* all_findings := gets (λ w, FindingDB_get_by_hunt hunt_id (db w)) in
  match all_findings with
  | [] =>
      let failed_tests := map c_hypothesis cards in
      let* _ := call (EvGapDiscovery target_id hunt_id domain failed_tests)
                  (gap_triggered_discovery E target_id hunt_id domain failed_tests) in
      let* second_cards := gets (λ w, HypothesisDB_get_pending hunt_id (db w)) in
      let* _ := test_cards hunt_id target_id domain second_cards in
      gets (λ w, FindingDB_get_by_hunt hunt_id (db w))
  | _ :: _ => ret all_findings
  end.

(** PHASE 4: Validate findings *)
Fixpoint validate_each (hunt_id : Z) (unverified : list finding) (verified_count : Z)
  : M Z :=
  match unverified with
  | [] => ret verified_count
  | finding :: rest =>
      let* val_result := Validator.validate_finding E (f_id finding) hunt_id in
      validate_each hunt_id rest
        (if Validator.is_confirmed val_result then verified_count + 1
         else verified_count)
  end.

Definition validation (hunt_id : Z) : M Z :=
  let* _ := HuntDB_update_m hunt_id [Set_h_phase "validation"] in
  let* unverified := gets (λ w, FindingDB_get_unverified hunt_id (db w)) in
  validate_each hunt_id unverified 0.

(** Reports, hunt summary and cross-target analysis *)
Definition reporting (target : target) (target_id hunt_id : Z) (domain : string)
  : M (list finding) :=
  let* _ := HuntDB_update_m hunt_id [Set_h_phase "reporting"] in
  let* verified := gets (λ w,
    List.filter (λ f, String.eqb (f_status f) "verified")
      (FindingDB_get_by_hunt hunt_id (db w))) in
  let* _ := for_each verified (λ finding,
    call (EvReport (f_id finding) hunt_id (t_platform target))
      (generate_report E (f_id finding) hunt_id (t_platform target))) in
  let* _ := call (EvHuntSummary hunt_id target_id domain)
    (generate_hunt_summary E hunt_id target_id domain) in
  let* _ := modify (λ w,
    with_cross_patterns
      (CrossTargetAnalyzer.analyze_findings domain
         (isoformat E (now E (trace w))) verified (cross_patterns w)) w) in
  ret verified.

(** Complete hunt *)
Definition complete (domain : string) (hunt_id : Z) (verified_count : Z)
    (verified : list finding) : M unit :=
  let* at_ := gets (λ w, now E (trace w)) in
  let* _ := HuntDB_update_m hunt_id
    [Set_h_status "complete"; Set_h_completed_at at_;
     Set_h_findings_count verified_count] in
  let* _ := TargetDB_update_m domain
    [Set_t_last_full_hunt_at at_;
     Set_t_total_findings (Z.of_nat (length verified))] in
  let* _ := increment_stat_m "hunts_completed" 1 in
  increment_stat_m "findings_total" verified_count.

(** The body of the [try] *)
Definition hunt (target_id : Z) (target : target) (domain : string) : M hunt_result :=
  let* hunt_id := HuntDB_create_m target_id "full" in
  let* recon_result := recon target_id hunt_id domain in
  if py_eq_str (rr_status recon_result) "error" then
    let* _ := HuntDB_update_m hunt_id
      [Set_h_status "failed"; Set_h_error (rr_error recon_result)] in
    ret (HFailed "recon" (rr_error recon_result))
  else
    let* _ := discovery target_id hunt_id domain in
    let* cards := testing target_id hunt_id domain in
    let* all_findings := sync target_id hunt_id domain cards in
    let* verified_count := validation hunt_id in
    let* verified := reporting target target_id hunt_id domain in
    let* _ := complete domain hunt_id verified_count verified in
    ret (HComplete hunt_id domain (length all_findings) verified_count
           (length verified)).

Definition run_hunt (target_id : Z) : M hunt_result :=
  let* found := gets (λ w, TargetDB_get_by_id target_id (db w)) in
  match found with
  | None => ret (HError ("Target " +:+ pretty target_id +:+ " not found"))
  | Some target =>
      let domain := t_domain target in
      (* Lock target to prevent parallel hunts *)
      let* locked := set_target_lock_m domain 7200 in
      if negb locked then
        ret (HSkipped (domain +:+ " is already being hunted"))
      else
        try_finally (hunt target_id target domain) (release_target_lock_w domain)
  end.

End WithEnv.

End Brain.

(** ** Sample surroundings, for the concrete runs *)

Module Scenario.
Import Models Json Py World.

(** The host of a URL of the form scheme://host/path *)
Fixpoint after_scheme (s : string) : string :=
  match s with
  | EmptyString => EmptyString
  | String a s' =>
      if PyStr.startswith "://" s then String.substring 3 (String.length s) s
      else after_scheme s'
  end.

Definition sample_host (url : string) : option string :=
  Some (Validator.before ":" (Validator.before "/" (after_scheme url))).

(** The shell answers by the kind of command; the other parts of the
    surroundings are given. *)
Definition sample_curl (dns http endpoint body : curl_result) (command : string)
  : curl_result :=
  if PyStr.startswith "nslookup" command then dns
  else if PyStr.contains " -I " command then http
  else if PyStr.contains "http_code" command then endpoint
  else body.

Definition quiet {A} (a : A) (d : database) : outcome A * database := (Ok a, d).

Definition sample_env (dns http endpoint body : curl_result)
    (reply : outcome string)
    (scan gap : Z → database → outcome unit * database)
    (test : Z → card → database → outcome unit * database) : env :=
  mk_env
    (λ h, 1000000 * Z.of_nat (length h))
    (λ at_, "T+" +:+ pretty at_)
    (λ _, "2026-01-01T00:00:00Z")
    sample_host
    (λ _, sample_curl dns http endpoint body)
    (λ _ _ _, reply)
    (λ _ _ _, 128)
    (λ _, "None")
    (λ _ _ _, on_tables (quiet (mk_recon_result (PyStr "complete") PyNone)))
    (λ _ _ _ _, on_tables (quiet tt))
    (λ _ hunt_id _, on_tables (scan hunt_id))
    (λ hunt_id _ card _, on_tables (test hunt_id card))
    (λ _ hunt_id _ _, on_tables (gap hunt_id))
    (λ _ _ _, on_tables (quiet tt))
    (λ _ _ _, on_tables (quiet tt)).

Definition dns_ok : curl_result :=
  mk_curl_result
    "Server: 127.0.0.53 Address: 127.0.0.53#53 Name: a.com Address: 93.184.216.34"
    "" 0.

Definition dns_nxdomain : curl_result :=
  mk_curl_result
    "Server: 127.0.0.53 Address: 127.0.0.53#53 server can't find a.com: NXDOMAIN"
    "" 1.

Definition http_ok : curl_result :=
  mk_curl_result "HTTP/2 200 server: nginx" "" 0.

Definition http_waf : curl_result :=
  mk_curl_result "HTTP/2 403 server: cloudflare cf-ray: 8a1b2c3d" "" 0.

Definition http_down : curl_result := mk_curl_result "" "TIMEOUT" (-1).

(** What [run_curl] gives for [nslookup] when it does not answer in time *)
Definition lookup_timeout : curl_result := mk_curl_result "" "TIMEOUT" (-1).

Definition says (text : string) : curl_result := mk_curl_result text "" 0.

Definition a_finding (id hunt_id : Z) (status : string) : finding :=
  mk_finding id hunt_id 1 "idor" "medium" "IDOR on /api/users"
    (PyStr "user 2 is readable")
    "https://a.com/api/users/2" (PyStr "id=2") PyNone status PyNone PyNone.

Definition a_target (total_findings : Z) : target :=
  mk_target 1 "a.com" "hackerone" 100 1000 5 "recon_complete" None total_findings.

Definition a_world (total_findings : Z) (fs : list finding) : world :=
  mk_world (mk_database [a_target total_findings] [] 0 fs [] [] []) ∅ ∅ None [] [].

(** A scan that records one finding for the hunt, one that finds
    nothing, and one whose result does not arrive in time *)
Definition scan_finds (hunt_id : Z) (d : database) : outcome unit * database :=
  (Ok tt, with_findings (findings d ++ [a_finding 1 hunt_id "unverified"]) d).

Definition scan_nothing (hunt_id : Z) (d : database) : outcome unit * database :=
  (Ok tt, d).

Definition scan_times_out (hunt_id : Z) (d : database) : outcome unit * database :=
  (Raise TimeoutError, d).

(** A second wave that writes one card, and a test that marks its card
    tested and records nothing *)
Definition gap_one_card (hunt_id : Z) (d : database) : outcome unit * database :=
  (Ok tt,
   mk_database (targets d) (hunts d) (hunt_seq d) (findings d)
     (cards d ++ [mk_card 1 hunt_id "Race condition on coupon redeem" "high" "pending"])
     (recon_data d) (worker_logs d)).

Definition test_marks_tested (hunt_id : Z) (c : card) (d : database)
  : outcome unit * database :=
  (Ok tt,
   mk_database (targets d) (hunts d) (hunt_seq d) (findings d)
     (map (λ c', if c_id c' =? c_id c
                 then mk_card (c_id c') (c_hunt_id c') (c_hypothesis c')
                        (c_confidence c') "tested"
                 else c') (cards d))
     (recon_data d) (worker_logs d)).

Definition confirmed_reply : string :=
  PyStr.quoted
    ("{'verdict': 'CONFIRMED', 'evidence': 'user 2 in body', " +:+
     "'reasoning': 'other user data returned', " +:+
     "'severity_adjustment': 'upgrade', 'adjusted_severity': 'high'}").

Definition confirmed_plain_reply : string :=
  PyStr.quoted "{'verdict': 'CONFIRMED', 'evidence': 'user 2 in body'}".

Definition rejected_reply : string :=
  PyStr.quoted
    ("{'verdict': 'FALSE_POSITIVE', 'evidence': 'login page', " +:+
     "'reasoning': 'generic login page returned'}").

Definition reply_with_note : string :=
  PyStr.quoted "Here you go: {'verdict': 'CONFIRMED'} - done".

Definition reply_two_objects : string :=
  PyStr.quoted "Sure: {'a': 1} or {'b': 2}".

(** The surroundings of the sample runs *)
Definition env_confirmed : env :=
  sample_env dns_ok http_ok (says "200") (says "{user: 2}")
    (Ok confirmed_reply) scan_finds gap_one_card test_marks_tested.

Definition env_confirmed_plain : env :=
  sample_env dns_ok http_ok (says "200") (says "{user: 2}")
    (Ok confirmed_plain_reply) scan_finds gap_one_card test_marks_tested.

Definition env_nxdomain : env :=
  sample_env dns_nxdomain http_ok (says "200") (says "{user: 2}")
    (Ok confirmed_reply) scan_finds gap_one_card test_marks_tested.

Definition env_waf_403 : env :=
  sample_env dns_ok http_waf (says "403") (says "Access denied")
    (Ok confirmed_reply) scan_finds gap_one_card test_marks_tested.

(** The same host and URL, when the lookup does not answer in time *)
Definition env_waf_403_no_lookup : env :=
  sample_env lookup_timeout http_waf (says "403") (says "Access denied")
    (Ok confirmed_reply) scan_finds gap_one_card test_marks_tested.

Definition env_waf_500 : env :=
  sample_env dns_ok http_waf (says "500") (says "Internal Server Error")
    (Ok confirmed_plain_reply) scan_finds gap_one_card test_marks_tested.

Definition env_scan_timeout : env :=
  sample_env dns_ok http_ok (says "200") (says "{user: 2}")
    (Ok confirmed_reply) scan_times_out gap_one_card test_marks_tested.

Definition env_no_findings : env :=
  sample_env dns_ok http_ok (says "200") (says "{user: 2}")
    (Ok confirmed_reply) scan_nothing gap_one_card test_marks_tested.

Definition world_with_finding : world := a_world 0 [a_finding 1 7 "unverified"].

Definition fresh_world (total_findings : Z) : world := a_world total_findings [].

(** Targets for the scheduler: all but the scored inputs is fixed *)
Definition scored (bounty_min bounty_max priority : Z) (last : option Z) : target :=
  mk_target 1 "a.com" "private" bounty_min bounty_max priority "pending" last 0.

(** Lock commands of other workers *)
Definition other_commands : list (Z * TaskQueue.command) :=
  [(10, TaskQueue.Acquire "a.com" 7200);
   (20, TaskQueue.IsLocked "b.com");
   (30, TaskQueue.Release "b.com")].

End Scenario.

(** ** Further string operations *)

Module PyText.

(** [s[n:]] *)
Fixpoint drop (n : nat) (s : string) : string :=
  match n, s with
  | O, _ => s
  | S n', String _ s' => drop n' s'
  | S _, EmptyString => EmptyString
  end.

(** [s.endswith(suffix)] *)
Definition endswith (suffix s : string) : bool :=
  (String.length suffix <=? String.length s)%nat &&
  String.eqb (drop (String.length s - String.length suffix) s) suffix.

(** [s.replace(old, "")] for a non-empty [old]: the occurrences are found
    from the left and do not overlap; [skip] counts the characters of the
    occurrence being dropped. *)
Fixpoint remove_from (old : string) (skip : nat) (s : string) : string :=
  match s with
  | EmptyString => EmptyString
  | String c s' =>
      match skip with
      | S k => remove_from old k s'
      | O =>
          if PyStr.startswith old s
          then remove_from old (String.length old - 1) s'
          else String c (remove_from old 0 s')
      end
  end.

Definition remove (old s : string) : string := remove_from old 0 s.

End PyText.

Module TaskQueueStats.
Import TaskQueue.

Definition stats_prefix : string := PREFIX +:+ "stats:".

(** [get_stats]: [listed] is the answer of [KEYS bhl:stats:*], the
    counters that are there in the order the server walks them.  The dict
    is filled key by key; a counter that is gone when it is read counts
    as zero. *)
Definition get_stats (listed : list string) (stats : gmap string Z) : gmap string Z :=
  fold_left
    (λ acc k, <[PyText.remove stats_prefix k := default 0 (stats !! k)]> acc)
    listed ∅.

(** What [KEYS pattern*] may answer: each key with the prefix once. *)
Definition keys_answer (prefix : string) (stats : gmap string Z)
    (listed : list string) : Prop :=
  NoDup listed ∧
  ∀ k, k ∈ listed ↔ is_Some (stats !! k) ∧ PyStr.startswith prefix k = true.

(** The counters are those [increment_stat] has written under names that
    do not hold the text of the prefix. *)
Definition clean_name (name : string) : Prop :=
  PyStr.contains stats_prefix name = false.

Definition clean_store (stats : gmap string Z) : Prop :=
  ∀ k, is_Some (stats !! k) → ∃ name, k = stats_prefix +:+ name ∧ clean_name name.

End TaskQueueStats.

(** ** The tokens of [json.dumps] *)

Module JsonTokens.
Import Json JsonLoads JsonDumps.

(** The tokens of the text [dumps] writes for a value *)
Fixpoint separated (parts : list (list token)) : list token :=
  match parts with
  | [] => []
  | [p] => p
  | p :: ps => p ++ TComma :: separated ps
  end.

Fixpoint tokens (v : json) : list token :=
  match v with
  | JNull => [TAtom "null"]
  | JBool b => [TAtom (if b then "true" else "false")]
  | JInt z => [TAtom (pretty z)]
  | JFloat literal => [TAtom literal]
  | JStr s => [TString s]
  | JArr items => TLBracket :: separated (map tokens items) ++ [TRBracket]
  | JObj members =>
      TLBrace ::
      separated (map (λ '(k, v), TString k :: TColon :: tokens v) members) ++
      [TRBrace]
  end.

(** A text after which a literal or a number ends *)
Definition delimited (rest : string) : Prop :=
  match rest with
  | EmptyString => True
  | String c _ => is_atom_char c = false
  end.

Fixpoint all_digits (s : string) : bool :=
  match s with
  | EmptyString => true
  | String c s' => is_digit c && all_digits s'
  end.

Fixpoint all_atom_chars (s : string) : bool :=
  match s with
  | EmptyString => true
  | String c s' => is_atom_char c && all_atom_chars s'
  end.

(** The text of a value is scanned to its tokens, whatever follows it. *)
Definition scans (v : json) : Prop :=
  ∀ rest, delimited rest →
    lex_from LDefault (dumps v +:+ rest) = (tokens v ++.) <$> lex_from LDefault rest.

Definition member_text (kv : string * json) : string :=
  let '(k, v) := kv in quote k +:+ ": " +:+ dumps v.

Definition member_tokens (kv : string * json) : list token :=
  let '(k, v) := kv in TString k :: TColon :: tokens v.

(** The tokens of a value are parsed to it, where a value may start. *)
Definition starts (e : expect) : Prop := e = PValue ∨ e = PArrFirst.

Definition parses (v : json) : Prop :=
  ∀ e stack ts, starts e →
    parse_from e stack (tokens v ++ ts)
    = parse_from (push_value v stack).1 (push_value v stack).2 ts.

End JsonTokens.



(** ** Listing, batches and row orders (models.py, scheduler.py) *)

Module ModelsOrder.
Import Models.

(** [ORDER BY]: rows are taken in rowid order and put in place one by
    one; [precedes a b] says that [a] sorts strictly before [b]; rows that
    tie keep the rowid order. *)
Fixpoint insert_sorted {A} (precedes : A → A → bool) (x : A) (l : list A) : list A :=
  match l with
  | [] => [x]
  | y :: l' => if precedes y x then y :: insert_sorted precedes x l' else x :: l
  end.

Definition stable_sort {A} (precedes : A → A → bool) (l : list A) : list A :=
  foldr (insert_sorted precedes) [] l.

(** [TargetDB.list_all]: [ORDER BY priority DESC, updated_at ASC]; the
    column [updated_at] is given by the id of the row. *)
Definition listed_before (updated_at : Z → string) (a b : target) : bool :=
  (t_priority b <? t_priority a) ||
  ((t_priority a =? t_priority b) &&
   String.ltb (updated_at (t_id a)) (updated_at (t_id b))).

Definition TargetDB_list_all (updated_at : Z → string) (db : database) : list target :=
  stable_sort (listed_before updated_at) (targets db).

End ModelsOrder.

Module SchedulerBatch.
Import Models ModelsOrder PriorityScheduler.

(** The domains of the targets of the running hunts *)
Definition active_domains (db : database) : gset string :=
  list_to_set
    (omap (λ h, t_domain <$> TargetDB_get_by_id (h_target_id h) db)
       (HuntDB_get_active db)).

Definition available (targets : list target) (db : database) : list target :=
  List.filter
    (λ t, negb (String.eqb (t_status t) "disabled") &&
          bool_decide (t_domain t ∉ active_domains db))
    targets.

(** [[(self.score_target(t), t) for t in available]]; [clock i] is the
    instant at which the target at index [i] is scored. *)
Definition scored (clock : nat → Z) (available : list target) : list (Q * target) :=
  imap (λ i t, (score_target (clock i) t, t)) available.

(** [scored.sort(key=lambda x: x[0], reverse=True)]: the higher score
    first, equal scores in the order they had. *)
Definition higher (a b : Q * target) : bool := negb (Qle_bool a.1 b.1).

Definition ranked (clock : nat → Z) (updated_at : Z → string) (db : database)
  : list (Q * target) :=
  stable_sort higher (scored clock (available (TargetDB_list_all updated_at db) db)).

Definition get_next_batch (max_concurrent : Z) (clock : nat → Z)
    (updated_at : Z → string) (db : database) : list target :=
  let active_hunts := HuntDB_get_active db in
  let slots := max_concurrent - Z.of_nat (length active_hunts) in
  if slots <=? 0 then []
  else (take (Z.to_nat slots) (ranked clock updated_at db)).*2.

End SchedulerBatch.

Module ModelsRows.
Import Models.

(** The ids of the hunts come from the AUTOINCREMENT sequence. *)
Definition hunts_wf (db : database) : Prop :=
  Forall (λ h, h_id h ≤ hunt_seq db) (hunts db).

(** [CASE confidence WHEN 'high' THEN 1 WHEN 'medium' THEN 2 ELSE 3 END] *)
Definition confidence_rank (c : card) : nat :=
  if String.eqb (c_confidence c) "high" then 1
  else if String.eqb (c_confidence c) "medium" then 2 else 3.

Definition is_pending (hunt_id : Z) (c : card) : bool :=
  (c_hunt_id c =? hunt_id) && String.eqb (c_status c) "pending".

(** The order of [ORDER BY severity]: the byte order of the texts *)
Definition severity_le (f g : finding) : Prop :=
  String.leb (f_severity f) (f_severity g) = true.

End ModelsRows.

(** ** What a worker leaves as it is; batches of validations; the swarm *)

Module Frame.
Import Models Py World.

(** A computation keeps a relation between the world it starts in and
    the world it leaves, whether it returns or raises. *)
Definition keeps {A} (R : world → world → Prop) (m : M A) : Prop :=
  ∀ w, R w (m w).2.

(** A part of the world is left as it is. *)
Definition unchanged {X} (part : world → X) (w w' : world) : Prop :=
  part w' = part w.

(** A collaborator task keeps a part of the world. *)
Definition task_keeps {X A} (part : world → X) (t : task A) : Prop :=
  ∀ w, part (task_result w (t w).2) = part w.

(** All the collaborators of [run_hunt] keep it. *)
Definition collaborators_keep {X} (part : world → X) (E : env) : Prop :=
  (∀ target_id hunt_id domain,
     task_keeps part (run_recon E target_id hunt_id domain)) ∧
  (∀ target_id hunt_id domain recon_data,
     task_keeps part (generate_hypotheses E target_id hunt_id domain recon_data)) ∧
  (∀ target_id hunt_id domain,
     task_keeps part (run_scan_get E target_id hunt_id domain)) ∧
  (∀ hunt_id target_id card domain,
     task_keeps part (test_hypothesis_browser E hunt_id target_id card domain)) ∧
  (∀ target_id hunt_id domain failed_tests,
     task_keeps part (gap_triggered_discovery E target_id hunt_id domain failed_tests)) ∧
  (∀ finding_id hunt_id platform,
     task_keeps part (generate_report E finding_id hunt_id platform)) ∧
  (∀ hunt_id target_id domain,
     task_keeps part (generate_hunt_summary E hunt_id target_id domain)).


(** The counters [VLLMClient.chat] raises for the validator model *)
Definition validator_counters : list string :=
  ["bhl:stats:tokens:validator"; "bhl:stats:calls:validator"].

(** Only the findings with the ids may change: no row is added or taken
    away, the other findings, the other tables, the locks and the
    pattern log are as they were; of the counters only the two of the
    validator model may change; the trace and the worker log grow at
    their ends.  (Nothing is said about the hash of the worker reports.) *)
Record only_findings (finding_ids : list Z) (w w' : world) : Prop := mk_only_findings {
  of_targets : targets (db w') = targets (db w);
  of_hunts : hunts (db w') = hunts (db w);
  of_hunt_seq : hunt_seq (db w') = hunt_seq (db w);
  of_cards : cards (db w') = cards (db w);
  of_recon : recon_data (db w') = recon_data (db w);
  of_leases : leases w' = leases w;
  of_stats : ∀ key, key ∉ validator_counters → stats w' !! key = stats w !! key;
  of_patterns : cross_patterns w' = cross_patterns w;
  of_ids : f_id <$> findings (db w') = f_id <$> findings (db w);
  of_others : ∀ other, other ∉ finding_ids →
    FindingDB_get other (db w') = FindingDB_get other (db w);
  of_trace : trace w `prefix_of` trace w';
  of_logs : worker_logs (db w) `prefix_of` worker_logs (db w') }.

End Frame.

Module ValidatorBatch.
Import Models Json Py World Validator.

Record batch_result := mk_batch_result {
  br_total : nat;
  br_confirmed : nat;
  br_false_positive : nat;
  br_results : list val_result }.

(** [r.get("status") == "FALSE_POSITIVE"] *)
Definition is_false_positive (r : val_result) : bool :=
  match r with VFalsePositive _ _ _ => true | _ => false end.

Definition is_error (r : val_result) : bool :=
  match r with VError _ => true | _ => false end.

(** The row of a finding after a verdict: the status, the validator's
    name and a stamp are written; the other columns, but the severity,
    are those of [f]. *)
Definition marked (status : string) (f f' : finding) : Prop :=
  f_status f' = status ∧
  f_verified_by f' = PyStr "poc-validator" ∧
  (∃ stamp, f_verified_at f' = PyStr stamp) ∧
  f_id f' = f_id f ∧ f_hunt_id f' = f_hunt_id f ∧ f_target_id f' = f_target_id f ∧
  f_finding_type f' = f_finding_type f ∧ f_title f' = f_title f ∧
  f_description f' = f_description f ∧ f_url f' = f_url f ∧
  f_payload f' = f_payload f ∧ f_curl_command f' = f_curl_command f.

Section WithEnv.
Context (E : env).

(** [for fid in ...: results.append(validate_finding(fid, hunt_id))] *)
Fixpoint validate_all (hunt_id : Z) (finding_ids : list Z) (results : list val_result)
  : M (list val_result) :=
  match finding_ids with
  | [] => ret results
  | fid :: rest =>
      let* result := validate_finding E fid hunt_id in
      validate_all hunt_id rest (results ++ [result])
  end.

Definition batch_validate (hunt_id : Z) (finding_ids : list Z) : M batch_result :=
  let* results := validate_all hunt_id (take 10 finding_ids) [] in
  ret (mk_batch_result
         (length results)
         (length (List.filter is_confirmed results))
         (length (List.filter is_false_positive results))
         results).

End WithEnv.

End ValidatorBatch.

Module BrainSwarm.
Import Models Py World PriorityScheduler SchedulerBatch ModelsOrder.

Inductive swarm_result :=
| SwarmIdle
| SwarmDispatched (hunts : list target).

(** [for target in targets]: a hunt is dispatched for each target whose
    lock is free at [lock_clock i], the instant the target at index [i]
    is checked at. *)
Fixpoint dispatch_unlocked (lock_clock : nat → Z) (i : nat) (leases : gmap string Z)
    (targets : list target) : list target :=
  match targets with
  | [] => []
  | target :: rest =>
      if negb (TaskQueue.is_target_locked (lock_clock i) (t_domain target) leases)
      then target :: dispatch_unlocked lock_clock (S i) leases rest
      else dispatch_unlocked lock_clock (S i) leases rest
  end.

(** [run_swarm]: the tables are there ([init_db] creates none anew), the
    scheduler has three slots; the answer lists the hunts dispatched. *)
Definition run_swarm (clock : nat → Z) (updated_at : Z → string)
    (lock_clock : nat → Z) (w : world) : swarm_result :=
  match get_next_batch 3 clock updated_at (db w) with
  | [] => SwarmIdle
  | targets => SwarmDispatched (dispatch_unlocked lock_clock 0 (leases w) targets)
  end.

(** [schedule_full_retest]: the targets a hunt is dispatched for;
    [clock i] is the instant the target at index [i] is looked at. *)
Fixpoint retest_due (clock : nat → Z) (i : nat) (targets : list target) : list target :=
  match targets with
  | [] => []
  | target :: rest =>
      if String.eqb (t_status target) "disabled" then retest_due clock (S i) rest
      else
        match t_last_full_hunt_at target with
        | Some last_dt =>
            if clock i - last_dt <? 7 * day_us then retest_due clock (S i) rest
            else target :: retest_due clock (S i) rest
        | None => target :: retest_due clock (S i) rest
        end
  end.

Definition schedule_full_retest (clock : nat → Z) (updated_at : Z → string)
    (db : database) : list target :=
  retest_due clock 0 (TargetDB_list_all updated_at db).

End BrainSwarm.

(** ** Scope rules and masks (scope_parser.py, credential_manager.py) *)

Module ScopeParser.
Import Json World.

(** [scope.get(key, [])] *)
Definition scope_list (key : string) (scope : gmap string (list string)) : list string :=
  default [] (scope !! key).

(** [parse_scope]: [s.strip().lower()] on every pattern *)
Definition parse_scope (scope_config : gmap string (list string))
  : gmap string (list string) :=
  <["in_scope" := (λ s, PyStr.lower (PyStr.strip s)) <$> scope_list "in_scope" scope_config]>
  (<["out_of_scope" :=
       (λ s, PyStr.lower (PyStr.strip s)) <$> scope_list "out_of_scope" scope_config]> ∅).

Record scope_check := mk_scope_check {
  sc_url : string;
  sc_domain : string;
  sc_in_scope : bool;
  sc_matched_rule : string }.

Section WithLibrary.
(** [urlparse] comes with the surroundings; [fnmatch] is the matcher of
    the standard library, taken as it is. *)
Context (E : env) (fnmatch : string → string → bool).

Definition _matches_pattern (domain pattern : string) : bool :=
  let pattern := PyStr.strip pattern in
  if PyStr.startswith "*." pattern then
    let base := PyText.drop 2 pattern in
    String.eqb domain base || PyText.endswith ("." +:+ base) domain
  else fnmatch domain pattern.

Definition is_in_scope (url_or_domain : string) (scope : gmap string (list string))
  : bool :=
  let domain := PyStr.lower (Validator._extract_domain E url_or_domain) in
  if existsb (_matches_pattern domain) (scope_list "out_of_scope" scope) then false
  else existsb (_matches_pattern domain) (scope_list "in_scope" scope).

Definition validate_url_in_scope (url : string) (scope : gmap string (list string))
  : scope_check :=
  let domain := Validator._extract_domain E url in
  let in_scope := is_in_scope url scope in
  mk_scope_check url domain in_scope
    match List.find (_matches_pattern domain) (scope_list "out_of_scope" scope) with
    | Some pattern => "OUT: " +:+ pattern
    | None =>
        match List.find (_matches_pattern domain) (scope_list "in_scope" scope) with
        | Some pattern => "IN: " +:+ pattern
        | None => "NO MATCH (default: out of scope)"
        end
    end.

End WithLibrary.

(** *** Eligibility *)

Definition ineligible_types : list (string * list string) :=
  [ ("hackerone",
     ["missing_headers"; "error_messages"; "stack_traces";
      "username_enumeration"; "email_enumeration"; "rate_limiting";
      "clickjacking_no_state_change"; "csrf_login"; "csrf_logout";
      "self_xss"; "content_injection_no_xss"; "open_ports";
      "banner_grabbing"; "dns_misconfiguration"]);
    ("bugcrowd",
     ["missing_headers"; "error_messages"; "stack_traces";
      "username_enumeration"; "rate_limiting"; "self_xss";
      "clickjacking_no_state_change"; "dns_misconfiguration"]);
    ("intigriti",
     ["missing_headers"; "error_messages"; "stack_traces";
      "username_enumeration"; "rate_limiting"; "self_xss"]) ].

Record eligibility := mk_eligibility {
  el_finding_type : string;
  el_platform : string;
  el_eligible : bool;
  el_reason : string }.

Definition check_finding_eligibility (finding_type platform : string) : eligibility :=
  let platform_exclusions := default [] (dict_get platform ineligible_types) in
  let eligible := negb (bool_decide (PyStr.lower finding_type ∈ platform_exclusions)) in
  mk_eligibility finding_type platform eligible
    (if eligible then "Eligible"
     else "'" +:+ finding_type +:+ "' is typically excluded by " +:+ platform).

Definition excluded_on (platform finding_type : string) : Prop :=
  el_eligible (check_finding_eligibility finding_type platform) = false.

End ScopeParser.

Module CredentialManager.

(** ["*" * n] *)
Fixpoint stars (n : nat) : string :=
  match n with
  | O => EmptyString
  | S n' => String "*" (stars n')
  end.

(** [value[-4:]] *)
Definition last4 (value : string) : string :=
  PyText.drop (String.length value - 4) value.

Definition mask_value (value : string) (show_chars : nat) : string :=
  if (String.length value <=? show_chars * 2)%nat then stars (String.length value)
  else PyStr.upto show_chars value +:+ "..." +:+ last4 value.

End CredentialManager.

(** ** Credential files (credential_manager.py) *)

Module CredentialStore.
Import ModelsOrder.

(** [for line in f]: the lines of a text file without their line ends
    (a line feed, a carriage return, or the two in a row); [line] holds
    the characters of the line being read. *)
Fixpoint file_lines (s : string) (line : string) : list string :=
  match s with
  | EmptyString => if PyStr.truthy line then [line] else []
  | String c s' =>
      if (nat_of_ascii c =? 10)%nat then line :: file_lines s' ""
      else if (nat_of_ascii c =? 13)%nat then
        match s' with
        | String c' s'' =>
            if (nat_of_ascii c' =? 10)%nat then line :: file_lines s'' ""
            else line :: file_lines s' ""
        | EmptyString => line :: file_lines s' ""
        end
      else file_lines s' (line +:+ String c "")
  end.

(** [line.partition("=")[2]] *)
Fixpoint after (c : ascii) (s : string) : string :=
  match s with
  | EmptyString => EmptyString
  | String a s' => if Ascii.eqb a c then s' else after c s'
  end.

(** One turn of the loop of [load_credentials] *)
Definition load_line (creds : gmap string string) (line : string) : gmap string string :=
  let line := PyStr.strip line in
  if negb (PyStr.truthy line) || PyStr.startswith "#" line then creds
  else if PyStr.contains "=" line then
    <[PyStr.strip (Validator.before "=" line) := PyStr.strip (after "=" line)]> creds
  else creds.

(** The files of the credentials directory, by target *)
Definition load_credentials (target : string) (files : gmap string string)
  : gmap string string :=
  match files !! target with
  | None => ∅
  | Some content => fold_left load_line (file_lines content "") ∅
  end.

(** [sorted([k for k in creds if test(k)])] *)
Definition sorted_keys (test : string → bool) (creds : gmap string string) : list string :=
  stable_sort String.ltb (List.filter test (elements (dom creds))).

Definition is_user_a (k : string) : bool := PyStr.startswith "USER_A_" k.
Definition is_user_b (k : string) : bool := PyStr.startswith "USER_B_" k.
Definition is_other (k : string) : bool := negb (is_user_a k) && negb (is_user_b k).

(** [if keys: lines.append(title); for k in keys: ...; lines.append("")] *)
Definition group (title : string) (keys : list string) (creds : gmap string string)
  : list string :=
  match keys with
  | [] => []
  | _ => title :: map (λ k, k +:+ "=" +:+ default "" (creds !! k)) keys ++ [""]
  end.

Definition newline : string := String (ascii_of_nat 10) "".

(** [save_credentials]; [created] and [refreshed] are the two readings
    of the clock in ISO format. *)
Definition save_credentials (created refreshed : string) (target : string)
    (creds : gmap string string) (files : gmap string string) : gmap string string :=
  let lines :=
    ["# Target: " +:+ target; "# Created: " +:+ created;
     "# Last refreshed: " +:+ refreshed; ""] ++
    group "# --- User A (primary) ---" (sorted_keys is_user_a creds) creds ++
    group "# --- User B (IDOR testing) ---" (sorted_keys is_user_b creds) creds ++
    group "# --- API Keys / Extras ---" (sorted_keys is_other creds) creds in
  <[target := String.concat newline lines]> files.

(** Texts that round-trip: no line end inside, no white space at the
    ends; a key, besides, holds no [=] and does not start with [#]. *)
Fixpoint one_line (s : string) : bool :=
  match s with
  | EmptyString => true
  | String c s' =>
      negb ((nat_of_ascii c =? 10)%nat || (nat_of_ascii c =? 13)%nat) && one_line s'
  end.

Definition head_ok (s : string) : bool :=
  match s with
  | EmptyString => true
  | String c _ => negb (PyStr.is_ws c)
  end.

Definition trimmed (s : string) : bool := head_ok s && head_ok (String.rev s).

Definition value_ok (v : string) : bool :=
  JsonDumps.is_ascii v && one_line v && trimmed v.

Definition key_ok (k : string) : bool :=
  value_ok k && negb (PyStr.contains "=" k) && negb (PyStr.startswith "#" k).

Definition creds_ok (creds : gmap string string) : Prop :=
  ∀ k v, creds !! k = Some v → key_ok k = true ∧ value_ok v = true.

End CredentialStore.

(** ** Sample data for the further runs *)

Module Samples.
Import Models Json Py World Scenario.

(** A store of counters with one counter, and the answer of [KEYS]
    after a second one has been counted *)
Definition counted : gmap string Z := {["bhl:stats:findings_total" := 3]}.

Definition counted_keys : list string :=
  ["bhl:stats:findings_total"; "bhl:stats:hunts_completed"].

Definition a_state : json :=
  JObj [("phase", JStr "recon"); ("cards", JArr [JInt 1; JInt 2]); ("done", JBool false)].

Definition a_report : json := JObj [("state", JStr "busy"); ("hunt", JInt 7)].

Definition idle_report : json := JObj [("state", JStr "idle")].

(** The hash of the workers with one report, good until instant 500 *)
Definition one_worker : option (gmap string string * Z) :=
  Some ({["w1" := JsonDumps.dumps idle_report]}, 500).

(** Tables with one hunt that is over *)
Definition a_database : database :=
  mk_database [a_target 0]
    [mk_hunt 1 1 "full" "complete" "reporting" (Some 5000000) 2 PyNone] 1 [] [] [] [].

(** Surroundings in which recon answers an error *)
Definition env_recon_error : env :=
  mk_env (now env_confirmed) (isoformat env_confirmed) (strftime env_confirmed)
    (urlparse_hostname env_confirmed) (run_curl env_confirmed) (chat env_confirmed)
    (chat_tokens env_confirmed) (request_id env_confirmed)
    (λ _ _ _, on_tables (quiet (mk_recon_result (PyStr "error") (PyStr "dns failure"))))
    (generate_hypotheses env_confirmed) (run_scan_get env_confirmed)
    (test_hypothesis_browser env_confirmed) (gap_triggered_discovery env_confirmed)
    (generate_report env_confirmed) (generate_hunt_summary env_confirmed).

(** A matcher for patterns without wildcard characters *)
Definition exact_fnmatch (name pattern : string) : bool := String.eqb name pattern.

(** A world in which the lock of the sample target is held *)
Definition locked_world : world :=
  mk_world (db (fresh_world 0)) {[TaskQueue.lock_key "a.com" := 7200000000]} ∅ None
    [] [].

Definition some_credentials : gmap string string :=
  {["USER_A_EMAIL" := "a@example.com"; "USER_A_AUTH_TOKEN" := "eyJhbGciOi.J9==";
    "USER_B_EMAIL" := "b@example.com"; "API_KEY" := "k-123"]}.

End Samples.

(** * Properties *)

(** ** Target lock manager *)

Section LockFacts.
Import TaskQueue.

Lemma set_target_lock_true now d ttl (leases : gmap string Z) :
  exists_at now (lock_key d) leases = false →
  set_target_lock now d ttl leases = (true, <[lock_key d := now + ttl]> leases).
Proof. intros H. unfold set_target_lock, set_nx_ex. by rewrite H. Qed.

Lemma set_target_lock_false now d ttl (leases : gmap string Z) :
  exists_at now (lock_key d) leases = true →
  set_target_lock now d ttl leases = (false, leases).
Proof. intros H. unfold set_target_lock, set_nx_ex. by rewrite H. Qed.

Lemma lock_key_inj d d' : lock_key d = lock_key d' → d = d'.
Proof. unfold lock_key, PREFIX. intros H. cbv [String.append] in H. congruence. Qed.

(** A command that does not release [d], run while the lease of [d] is
    live, leaves that lease as it is. *)
Lemma exec_keeps_lease now c d expiry (leases : gmap string Z) :
  leases !! lock_key d = Some expiry →
  now < expiry →
  releases d c = false →
  (exec now c leases).2 !! lock_key d = Some expiry.
Proof.
  intros Hl Hnow Hrel. destruct c as [d' ttl | d' | d']; simpl in *.
  - unfold set_target_lock, set_nx_ex.
    destruct (exists_at now (lock_key d') leases) eqn:E; simpl; [done |].
    destruct (decide (d' = d)) as [-> | Hne].
    + unfold exists_at in E. rewrite Hl in E.
      apply Z.ltb_ge in E. lia.
    + rewrite lookup_insert_ne; [done |]. intros Hk. by apply lock_key_inj in Hk.
  - unfold release_target_lock.
    rewrite lookup_delete_ne; [done |].
    intros Hk. apply lock_key_inj in Hk. subst d'.
    by rewrite String.eqb_refl in Hrel.
  - done.
Qed.

Lemma run_keeps_lease sched d expiry (leases : gmap string Z) :
  leases !! lock_key d = Some expiry →
  Forall (λ tc, tc.1 < expiry ∧ releases d tc.2 = false) sched →
  (run sched leases).2 !! lock_key d = Some expiry.
Proof.
  intros Hl Hall. revert leases Hl.
  induction Hall as [| [now c] rest [Hnow Hrel] _ IH]; intros leases Hl; [done |].
  simpl in *. pose proof (exec_keeps_lease now c d expiry leases Hl Hnow Hrel) as Hk.
  destruct (exec now c leases) as [r leases'].
  specialize (IH leases' Hk).
  destruct (run rest leases') as [rs leases'']. done.
Qed.

End LockFacts.

(** C1. [set_target_lock] is a test-and-set: it answers true exactly when
    no live lock of the domain is there, and then creates it; it answers
    false and changes nothing when a live lock is held.  Hence of two
    acquire calls for one domain, in whatever order the server runs them
    and whatever other lock commands run in between, the second fails as
    long as the first's lease is live and nobody released it: at most one
    succeeds. *)
Theorem set_target_lock_exclusive
    (leases : gmap string Z) (d : string) (t1 ttl1 t2 ttl2 : Z)
    (between : list (Z * TaskQueue.command)) :
  Forall (λ tc, tc.1 < t1 + ttl1 ∧ TaskQueue.releases d tc.2 = false) between →
  t2 < t1 + ttl1 →
  let first := TaskQueue.set_target_lock t1 d ttl1 leases in
  let mid := TaskQueue.run between first.2 in
  let second := TaskQueue.set_target_lock t2 d ttl2 mid.2 in
  (first.1 = negb (TaskQueue.is_target_locked t1 d leases)) ∧
  (first.1 = false → first.2 = leases) ∧
  (first.1 = true →
     first.2 !! TaskQueue.lock_key d = Some (t1 + ttl1) ∧
     second.1 = false ∧ second.2 = mid.2 ∧
     TaskQueue.is_target_locked t2 d second.2 = true).
Proof.
  intros Hbetween Ht2 first mid second.
  assert (Hfirst : first.1 = negb (TaskQueue.is_target_locked t1 d leases)).
  { subst first. unfold TaskQueue.set_target_lock, TaskQueue.set_nx_ex,
      TaskQueue.is_target_locked.
    by destruct (TaskQueue.exists_at t1 (TaskQueue.lock_key d) leases). }
  split; [exact Hfirst |]. split.
  - subst first. unfold TaskQueue.set_target_lock, TaskQueue.set_nx_ex.
    by destruct (TaskQueue.exists_at t1 (TaskQueue.lock_key d) leases).
  - intros Htrue.
    assert (Hlease : first.2 !! TaskQueue.lock_key d = Some (t1 + ttl1)).
    { subst first. revert Htrue.
      unfold TaskQueue.set_target_lock, TaskQueue.set_nx_ex.
      destruct (TaskQueue.exists_at t1 (TaskQueue.lock_key d) leases); simpl; [done |].
      intros _. apply lookup_insert_eq. }
    split; [exact Hlease |].
    pose proof (run_keeps_lease between d (t1 + ttl1) first.2 Hlease Hbetween) as Hmid.
    fold mid in Hmid.
    assert (Hlive : TaskQueue.exists_at t2 (TaskQueue.lock_key d) mid.2 = true).
    { unfold TaskQueue.exists_at. rewrite Hmid. by apply Z.ltb_lt. }
    subst second. rewrite (set_target_lock_false _ _ _ _ Hlive). simpl.
    repeat split. exact Hlive.
Qed.

Lemma set_target_lock_exclusive_witness :
  (TaskQueue.set_target_lock 0 "a.com" 7200 ∅).1 = true ∧
  (TaskQueue.set_target_lock 7199 "a.com" 7200
     (TaskQueue.run Scenario.other_commands
        (TaskQueue.set_target_lock 0 "a.com" 7200 ∅).2).2).1
  = false.
Proof.
  assert (Hb : Forall (λ tc : Z * TaskQueue.command,
                 tc.1 < 0 + 7200 ∧ TaskQueue.releases "a.com" tc.2 = false)
                 Scenario.other_commands).
  { repeat constructor; simpl; lia. }
  pose proof (set_target_lock_exclusive ∅ "a.com" 0 7200 7199 7200
                Scenario.other_commands Hb ltac:(lia)) as (H1 & _ & H3).
  assert (Ht : (TaskQueue.set_target_lock 0 "a.com" 7200 ∅).1 = true)
    by (rewrite H1; reflexivity).
  split; [exact Ht |]. exact (proj1 (proj2 (H3 Ht))).
Defined.

(** ** Python floats *)

Section FloatFacts.
Import PyFloat.
Local Open Scope Q_scope.

Lemma round_half_even_bounds x :
  (Qfloor x <= round_half_even x <= Qfloor x + 1)%Z.
Proof.
  unfold round_half_even.
  destruct (Qcompare _ _); [destruct (Z.even _) | |]; lia.
Qed.

Lemma round_half_even_mono x y :
  x <= y → (round_half_even x <= round_half_even y)%Z.
Proof.
  intros Hxy.
  pose proof (Qfloor_resp_le _ _ Hxy) as Hf.
  pose proof (round_half_even_bounds x) as Hx.
  pose proof (round_half_even_bounds y) as Hy.
  destruct (Z.eq_dec (Qfloor x) (Qfloor y)) as [Heq | Hne]; [| lia].
  clear Hx Hy Hf. unfold round_half_even. rewrite <- Heq.
  assert (Hr : x - inject_Z (Qfloor x) <= y - inject_Z (Qfloor x)) by lra.
  destruct (Qcompare_spec (x - inject_Z (Qfloor x)) (1 # 2)) as [Hx | Hx | Hx];
    destruct (Qcompare_spec (y - inject_Z (Qfloor x)) (1 # 2)) as [Hy | Hy | Hy];
    try destruct (Z.even (Qfloor x)); try lia; exfalso; lra.
Qed.

Lemma round_half_even_Z n : round_half_even (inject_Z n) = n.
Proof.
  unfold round_half_even. rewrite Qfloor_Z.
  destruct (Qcompare_spec (inject_Z n - inject_Z n) (1 # 2)) as [H | H | H];
    [exfalso; lra | done | exfalso; lra].
Qed.

Lemma round_half_even_eq x n : x == inject_Z n → round_half_even x = n.
Proof.
  intros H. rewrite <- (round_half_even_Z n).
  apply Z.le_antisymm; apply round_half_even_mono; rewrite H; apply Qle_refl.
Qed.

Lemma two_pos q : 0 < 2 ^ q.
Proof. by apply Qpower_0_lt. Qed.

Lemma two_neq q : ¬ 2 ^ q == 0.
Proof. pose proof (two_pos q). lra. Qed.


(** The numbers with all their places at or above [2^q] are kept. *)
Lemma round_at_grid q n : round_at q (inject_Z n * 2 ^ q) == inject_Z n * 2 ^ q.
Proof.
  unfold round_at. rewrite (round_half_even_eq _ n); [reflexivity |].
  apply Qdiv_mult_l, two_neq.
Qed.





(** *** The exponent *)













End FloatFacts.

(** ** Priority scheduler *)

Section SchedulerFacts.
Import Models PyFloat PriorityScheduler.
Local Open Scope Q_scope.
























End SchedulerFacts.

Section SchedulerClaims.
Import Models PyFloat PriorityScheduler.
Local Open Scope Q_scope.


(** A score as CPython computes it: for a bounty of 0 to 215, priority
    1 and no hunt so far, the product is the float nearest to 0.215,
    which lies below it, and the score is the float nearest to 0.21. *)
Lemma score_target_sample :
  Qred (raw_score 0 (Scenario.scored 0 215 1 None))
  = 7746191359077253 # 36028797018963968 ∧
  Qred (score_target 0 (Scenario.scored 0 215 1 None))
  = 7566047373982433 # 36028797018963968.
Proof. split; vm_compute; reflexivity. Qed.



End SchedulerClaims.

(** ** Cross-target pattern store *)

Section CrossTargetFacts.
Import Models CrossTargetAnalyzer.

Lemma direct_loop td ps seen hyps :
  (fold_left (direct_step td) ps (seen, hyps)).2
  = hyps ++ direct_cards td (length hyps) (first_per_type seen ps).
Proof.
  revert seen hyps. induction ps as [| p ps IH]; intros seen hyps; simpl.
  - by rewrite app_nil_r.
  - unfold direct_step at 2. simpl.
    destruct (true_ftype p) as [ftype |]; [| apply IH].
    destruct (bool_decide (ftype ∈ seen)); [apply IH |].
    rewrite IH. rewrite length_app. simpl. rewrite Nat.add_1_r.
    by rewrite <- app_assoc.
Qed.

Lemma direct_cards_medium td len srcs :
  Forall (λ h, hy_confidence h = "medium") (direct_cards td len srcs).
Proof.
  revert len. induction srcs as [| [ftype p] srcs IH]; intros len; simpl.
  - constructor.
  - constructor; [reflexivity | apply IH].
Qed.

Lemma direct_cards_length td len srcs :
  length (direct_cards td len srcs) = length srcs.
Proof.
  revert len. induction srcs as [| [ftype p] srcs IH]; intros len; simpl;
    [done | by rewrite IH].
Qed.

Lemma tech_loop tech_lower entries hyps :
  ∃ techs, fold_left (tech_step tech_lower) entries hyps = hyps ++ techs ∧
           Forall (λ h, hy_confidence h = "low") techs.
Proof.
  revert hyps. induction entries as [| e entries IH]; intros hyps; simpl.
  - exists []. by rewrite app_nil_r.
  - unfold tech_step at 2.
    destruct (existsb _ tech_lower).
    + destruct (IH (hyps ++ [tech_card (length hyps) e.2])) as (techs & -> & Hlow).
      exists (tech_card (length hyps) e.2 :: techs).
      split; [by rewrite <- app_assoc |]. by constructor.
    + apply IH.
Qed.

Lemma first_per_type_fresh seen ps ftype p :
  (ftype, p) ∈ first_per_type seen ps → ftype ∉ seen.
Proof.
  revert seen. induction ps as [| q ps IH]; intros seen; simpl.
  - by intros ?%elem_of_nil.
  - destruct (true_ftype q) as [ft |]; [| apply IH].
    destruct (bool_decide (ft ∈ seen)) eqn:E; [apply IH |].
    apply bool_decide_eq_false in E.
    intros [Heq | Hin]%elem_of_cons.
    + by inversion Heq; subst.
    + apply IH in Hin. set_solver.
Qed.

Lemma first_per_type_NoDup seen ps : NoDup (first_per_type seen ps).*1.
Proof.
  revert seen. induction ps as [| q ps IH]; intros seen; simpl.
  - constructor.
  - destruct (true_ftype q) as [ft |]; [| apply IH].
    destruct (bool_decide (ft ∈ seen)); [apply IH |].
    simpl. constructor; [| apply IH].
    intros ([ft' p'] & Heq & Hin)%list_elem_of_fmap. simpl in Heq. subst ft'.
    apply first_per_type_fresh in Hin. set_solver.
Qed.

Lemma first_per_type_first seen ps ftype p :
  (ftype, p) ∈ first_per_type seen ps →
  true_ftype p = Some ftype ∧
  ∃ l1 l2, ps = l1 ++ p :: l2 ∧ ∀ q, q ∈ l1 → true_ftype q ≠ Some ftype.
Proof.
  revert seen. induction ps as [| q ps IH]; intros seen; simpl.
  - by intros ?%elem_of_nil.
  - destruct (true_ftype q) as [ft |] eqn:Eq.
    + destruct (bool_decide (ft ∈ seen)) eqn:E.
      * apply bool_decide_eq_true in E. intros Hin.
        pose proof (first_per_type_fresh _ _ _ _ Hin) as Hfresh.
        destruct (IH _ Hin) as (Hty & l1 & l2 & -> & Hfirst).
        split; [exact Hty |]. exists (q :: l1), l2. split; [done |].
        intros q' [-> | Hq']%elem_of_cons; [| by apply Hfirst].
        rewrite Eq. intros [= ->]. contradiction.
      * intros [Heq | Hin]%elem_of_cons.
        -- inversion Heq; subst. split; [exact Eq |].
           exists [], ps. split; [done |]. by intros q' ?%elem_of_nil.
        -- pose proof (first_per_type_fresh _ _ _ _ Hin) as Hfresh.
           destruct (IH _ Hin) as (Hty & l1 & l2 & -> & Hfirst).
           split; [exact Hty |]. exists (q :: l1), l2. split; [done |].
           intros q' [-> | Hq']%elem_of_cons; [| by apply Hfirst].
           rewrite Eq. intros [= ->]. apply Hfresh.
           apply elem_of_union. left. by apply elem_of_singleton.
    + intros Hin. destruct (IH _ Hin) as (Hty & l1 & l2 & -> & Hfirst).
      split; [exact Hty |]. exists (q :: l1), l2. split; [done |].
      intros q' [-> | Hq']%elem_of_cons; [| by apply Hfirst].
      by rewrite Eq.
Qed.

(** A split of the filtered log is a split of the log. *)
Lemma filter_split {A} (f : A → bool) (l a b : list A) (x : A) :
  List.filter f l = a ++ x :: b →
  ∃ l1 l2, l = l1 ++ x :: l2 ∧ List.filter f l1 = a ∧ f x = true.
Proof.
  revert a. induction l as [| y l IH]; intros a; simpl.
  - by destruct a.
  - destruct (f y) eqn:E.
    + destruct a as [| a0 a]; simpl; intros [= -> Hrest].
      * exists [], l. by rewrite E.
      * destruct (IH _ Hrest) as (l1 & l2 & -> & Hf & Hx).
        exists (a0 :: l1), l2. simpl. rewrite E. by rewrite Hf.
    + intros Hrest. destruct (IH _ Hrest) as (l1 & l2 & -> & Hf & Hx).
      exists (y :: l1), l2. simpl. by rewrite E.
Qed.

End CrossTargetFacts.

Section CrossTargetClaims.
Import Models CrossTargetAnalyzer.

Lemma direct_cards_cite target_domain len srcs :
  Forall2 (cites_source target_domain) srcs (direct_cards target_domain len srcs).
Proof.
  revert len. induction srcs as [| [ftype p] srcs IH]; intros len; [constructor |].
  cbn [direct_cards]. constructor; [| apply IH].
  unfold cites_source, direct_card. cbn. done.
Qed.

(** C7. The result of [get_transfer_hypotheses] is the first fifteen of
    the direct-transfer hypotheses followed by the tech-stack hypotheses.
    There is one direct hypothesis per source pattern, in order: it is of
    medium confidence, its text names the finding type and cites the
    source domain of its pattern, and it carries the payload of the
    pattern.  The sources have pairwise distinct finding types, come from
    other targets than [target_domain], and each is the first pattern of
    its type among the patterns of other targets, in the order of the
    log.  The tech-stack hypotheses are of low confidence.  With one idor
    pattern from a.com the result for b.com is the one hypothesis citing
    a.com, and a second idor pattern from c.com adds nothing. *)
Theorem get_transfer_hypotheses_spec
    (patterns : list (gmap string pyval)) (target_domain : string)
    (tech_stack : list string) :
  let hs := get_transfer_hypotheses patterns target_domain tech_stack in
  (∃ srcs directs techs,
     hs = take 15 (directs ++ techs) ∧
     Forall2 (cites_source target_domain) srcs directs ∧
     Forall (λ h, hy_confidence h = "low") techs ∧
     NoDup srcs.*1 ∧
     (∀ ftype p, (ftype, p) ∈ srcs →
        pget "source_domain" p ≠ PyStr target_domain ∧
        true_ftype p = Some ftype ∧
        ∃ l1 l2, patterns = l1 ++ p :: l2 ∧
          ∀ q, q ∈ l1 → pget "source_domain" q ≠ PyStr target_domain →
               true_ftype q ≠ Some ftype)) ∧
  (length hs ≤ 15)%nat ∧
  get_transfer_hypotheses [idor_pattern "a.com" "id=2"] "b.com" []
  = [mk_hypothesis "CT-001" "idor found on a.com - test on b.com" (PyStr "idor")
       "medium" "Successfully exploited on a.com" "curl" (PyStr "id=2")
       "Same behavior as on a.com"] ∧
  get_transfer_hypotheses
    [idor_pattern "a.com" "id=2"; idor_pattern "c.com" "uid=7"] "b.com" []
  = [mk_hypothesis "CT-001" "idor found on a.com - test on b.com" (PyStr "idor")
       "medium" "Successfully exploited on a.com" "curl" (PyStr "id=2")
       "Same behavior as on a.com"].
Proof.
  intros hs. split; [| split; [| split; vm_compute; reflexivity]].
  - subst hs. unfold get_transfer_hypotheses.
    set (others := List.filter (from_other_target target_domain) patterns).
    rewrite direct_loop, app_nil_l.
    change (length (@nil hypothesis)) with 0%nat.
    destruct (tech_loop (map PyStr.lower tech_stack) TRANSFERABLE_PATTERNS
                (direct_cards target_domain 0 (first_per_type ∅ others)))
      as (techs & -> & Hlow).
    exists (first_per_type ∅ others),
      (direct_cards target_domain 0 (first_per_type ∅ others)), techs.
    split; [reflexivity |]. split; [apply direct_cards_cite |].
    split; [exact Hlow |]. split; [apply first_per_type_NoDup |].
    intros ftype p Hin.
    destruct (first_per_type_first _ _ _ _ Hin) as (Hty & a & b & Hsplit & Hfirst).
    destruct (filter_split _ _ _ _ _ Hsplit) as (l1 & l2 & -> & Hf & Hp).
    assert (Hother : ∀ q, from_other_target target_domain q = true ↔
                          pget "source_domain" q ≠ PyStr target_domain).
    { intros q. unfold from_other_target, py_eq_str.
      destruct (pget "source_domain" q) as [| s]; [done |].
      destruct (String.eqb_spec s target_domain) as [-> | Hne]; simpl.
      - split; [done | intros H; by destruct H].
      - split; [intros _ [= ?]; contradiction | done]. }
    split; [by apply Hother |]. split; [exact Hty |].
    exists l1, l2. split; [reflexivity |].
    intros q Hq Hqo. apply Hfirst. rewrite <- Hf.
    apply list_elem_of_In, filter_In. split; [by apply list_elem_of_In |].
    by apply Hother.
  - subst hs. unfold get_transfer_hypotheses. rewrite length_take. lia.
Qed.

End CrossTargetClaims.

(** ** JSON recovery of the LLM client *)

Section JsonFacts.
Import Json JsonLoads.

Lemma bottom_kind_cons f g st : bottom_kind (f :: g :: st) = bottom_kind (g :: st).
Proof. reflexivity. Qed.

Lemma push_value_open v stack b :
  bottom_kind stack = Some b →
  ∃ stack', push_value v stack = (PAfter, stack') ∧ bottom_kind stack' = Some b.
Proof.
  destruct stack as [| [items | ms k] [| g st]]; simpl; intros H; try done;
    eexists; (split; [reflexivity | exact H]).
Qed.

(** While the outermost container is open the parser keeps it at the
    bottom of the stack; the parse is over when it is closed, and the
    value is that container. *)
Lemma parse_step_bottom e stack t e' stack' b :
  bottom_kind stack = Some b →
  is_done e = false →
  parse_step e stack t = Some (e', stack') →
  (bottom_kind stack' = Some b ∧ is_done e' = false) ∨
  (∃ v, e' = PDone v ∧ value_kind v = Some b).
Proof.
  intros Hb Hdone Hstep.
  assert (Hpush : ∀ v, Some (push_value v stack) = Some (e', stack') →
            bottom_kind stack' = Some b ∧ is_done e' = false).
  { intros v Hv. destruct (push_value_open v stack b Hb) as (s' & Hp & Hk).
    rewrite Hp in Hv. by inversion Hv; subst. }
  assert (Hstart : start_value t stack = Some (e', stack') →
            bottom_kind stack' = Some b ∧ is_done e' = false).
  { unfold start_value. destruct t; try done; try apply Hpush.
    - intros [= <- <-]. split; [| done].
      destruct stack; [done | exact Hb].
    - intros [= <- <-]. split; [| done].
      destruct stack; [done | exact Hb].
    - destruct (atom_value text); [apply Hpush | done]. }
  assert (Hclose : ∀ v st, value_kind v = bottom_kind [hd (FArr []) stack] →
            stack = hd (FArr []) stack :: st →
            Some (push_value v st) = Some (e', stack') →
            (bottom_kind stack' = Some b ∧ is_done e' = false) ∨
            (∃ v, e' = PDone v ∧ value_kind v = Some b)).
  { intros v st Hv Hst Hp. destruct st as [| g st].
    - right. simpl in Hp. inversion Hp; subst. exists v. split; [done |].
      rewrite Hst in Hb. simpl in Hb. simpl in Hv. congruence.
    - left. rewrite Hst, bottom_kind_cons in Hb.
      destruct (push_value_open v (g :: st) b Hb) as (s' & Hp' & Hk).
      rewrite Hp' in Hp. by inversion Hp; subst. }
  destruct e; simpl in Hstep; try done.
  - left. by apply Hstart.
  - destruct t; try (left; by apply Hstart).
    unfold close_array in Hstep. destruct stack as [| [items | ms k] st]; try done.
    by apply (Hclose (JArr (rev items)) st).
  - destruct t; try done.
    + unfold close_object in Hstep. destruct stack as [| [items | ms k] st]; try done.
      by apply (Hclose (JObj ms) st).
    + inversion Hstep; subst. by left.
  - destruct t; try done. inversion Hstep; subst. by left.
  - destruct t; try done. destruct stack as [| [items | ms k] st]; try done.
    inversion Hstep; subst. left. split; [| done].
    destruct st; [exact Hb | exact Hb].
  - destruct t; try done.
    + unfold close_object in Hstep. destruct stack as [| [items | ms k] st]; try done.
      by apply (Hclose (JObj ms) st).
    + unfold close_array in Hstep. destruct stack as [| [items | ms k] st]; try done.
      by apply (Hclose (JArr (rev items)) st).
    + destruct stack as [| [items | ms k] st]; try done;
        inversion Hstep; subst; by left.
Qed.

Lemma parse_from_bottom ts e stack b v :
  bottom_kind stack = Some b →
  is_done e = false →
  parse_from e stack ts = Some v →
  value_kind v = Some b.
Proof.
  revert e stack. induction ts as [| t ts IH]; intros e stack Hb Hdone; simpl.
  - by destruct e.
  - destruct (parse_step e stack t) as [[e' stack'] |] eqn:Hstep; [| done].
    destruct (parse_step_bottom _ _ _ _ _ _ Hb Hdone Hstep)
      as [[Hb' Hdone'] | (w & -> & Hw)].
    + by apply IH.
    + destruct ts as [| t' ts]; simpl; [by intros [= <-] | done].
Qed.

(** A text that starts with a brace parses, if at all, to an object, and
    one that starts with a bracket to an array. *)
Lemma loads_brace s v : loads (String "{" s) = Some v → ∃ ms, v = JObj ms.
Proof.
  unfold loads, lex. simpl.
  destruct (lex_from LDefault s) as [ts |]; [| done]. simpl.
  intros H. apply (parse_from_bottom _ _ _ true) in H; [| done | done].
  destruct v; try done. by eexists.
Qed.

Lemma loads_bracket s v : loads (String "[" s) = Some v → ∃ items, v = JArr items.
Proof.
  unfold loads, lex. simpl.
  destruct (lex_from LDefault s) as [ts |]; [| done]. simpl.
  intros H. apply (parse_from_bottom _ _ _ false) in H; [| done | done].
  destruct v; try done. by eexists.
Qed.

(** The slice that starts at the index [find] answers starts with the
    character looked for. *)
Lemma find_from_range c s i : PyStr.find_from c s i = -1 ∨ i <= PyStr.find_from c s i.
Proof.
  revert i. induction s as [| a s IH]; intros i; simpl; [by left |].
  destruct (Ascii.eqb a c); [right; lia |].
  destruct (IH (i + 1)) as [H | H]; [by left | right; lia].
Qed.

Lemma slice_find_from c s i n :
  0 <= i → i <= PyStr.find_from c s i →
  (0 < n)%nat →
  ∃ rest, String.substring (Z.to_nat (PyStr.find_from c s i - i)) n s = String c rest.
Proof.
  revert i. induction s as [| a s IH]; intros i Hi Hfound Hn; simpl in *; [lia |].
  destruct (Ascii.eqb_spec a c) as [-> | Hne].
  - rewrite Z.sub_diag. simpl. destruct n; [lia |]. by eexists.
  - destruct (find_from_range c s (i + 1)) as [H | H]; [lia |].
    destruct (IH (i + 1) ltac:(lia) H Hn) as (rest & Hrest).
    replace (Z.to_nat (PyStr.find_from c s (i + 1) - i))
      with (S (Z.to_nat (PyStr.find_from c s (i + 1) - (i + 1)))) by lia.
    simpl. by exists rest.
Qed.

Lemma slice_find c s end_ :
  0 <= PyStr.find c s → PyStr.find c s < end_ →
  ∃ rest, PyStr.slice (PyStr.find c s) end_ s = String c rest.
Proof.
  intros H0 Hlt. unfold PyStr.slice, PyStr.find in *.
  destruct (slice_find_from c s 0 (Z.to_nat (end_ - PyStr.find_from c s 0))
              ltac:(lia) H0 ltac:(lia)) as (rest & Hrest).
  rewrite Z.sub_0_r in Hrest. by exists rest.
Qed.

End JsonFacts.

Section ChatJsonClaims.
Import Json Py VLLMClient.

(** C9, as the code has it.  For a reply that is not JSON, [chat_json]
    decodes one span: from the first opening brace to the last closing
    brace when the first comes before the last, otherwise from the first
    opening bracket to the last closing bracket.  A value it returns is
    that span decoded, an object or an array (never [None]); when the span
    does not decode, or there is no span, it raises the decode error. *)
Theorem chat_json_recovery (raw : string) :
  JsonLoads.loads raw = None →
  let brace := PyStr.slice (PyStr.find "{" raw) (PyStr.rfind "}" raw + 1) raw in
  let bracket := PyStr.slice (PyStr.find "[" raw) (PyStr.rfind "]" raw + 1) raw in
  let has_brace :=
    (0 <=? PyStr.find "{" raw) && (PyStr.find "{" raw <? PyStr.rfind "}" raw + 1) in
  let has_bracket :=
    (0 <=? PyStr.find "[" raw) && (PyStr.find "[" raw <? PyStr.rfind "]" raw + 1) in
  match chat_json raw with
  | Ok v =>
      (has_brace = true ∧ JsonLoads.loads brace = Some v ∧ ∃ ms, v = JObj ms) ∨
      (has_brace = false ∧ has_bracket = true ∧
       JsonLoads.loads bracket = Some v ∧ ∃ items, v = JArr items)
  | Raise e =>
      e = JSONDecodeError ∧
      (has_brace = true → JsonLoads.loads brace = None) ∧
      (has_brace = false → has_bracket = true → JsonLoads.loads bracket = None)
  end.
Proof.
  intros Hraw brace bracket has_brace has_bracket.
  unfold chat_json. rewrite Hraw. fold has_brace has_bracket brace bracket.
  destruct has_brace eqn:Hb.
  - unfold loads_or_raise. destruct (JsonLoads.loads brace) as [v |] eqn:Hv.
    + left. repeat split.
      apply andb_prop in Hb as [H0%Z.leb_le Hlt%Z.ltb_lt].
      destruct (slice_find "{" raw _ H0 Hlt) as (rest & Hrest).
      subst brace. rewrite Hrest in Hv. by apply loads_brace in Hv.
    + by repeat split.
  - destruct has_bracket eqn:Hk.
    + unfold loads_or_raise. destruct (JsonLoads.loads bracket) as [v |] eqn:Hv.
      * right. repeat split.
        apply andb_prop in Hk as [H0%Z.leb_le Hlt%Z.ltb_lt].
        destruct (slice_find "[" raw _ H0 Hlt) as (rest & Hrest).
        subst bracket. rewrite Hrest in Hv. by apply loads_bracket in Hv.
      * by repeat split.
    + by repeat split.
Qed.

Lemma chat_json_recovery_witness :
  JsonLoads.loads Scenario.reply_with_note = None ∧
  ∃ ms, chat_json Scenario.reply_with_note = Ok (JObj ms).
Proof.
  assert (H : JsonLoads.loads Scenario.reply_with_note = None)
    by (vm_compute; reflexivity).
  split; [exact H |].
  pose proof (chat_json_recovery _ H) as Hspec. cbv zeta in Hspec.
  destruct (chat_json _) as [v | e].
  - destruct Hspec as [(_ & _ & ms & ->) | (Hb & _)]; [by exists ms |].
    vm_compute in Hb. discriminate.
  - destruct Hspec as (_ & Hnone & _).
    specialize (Hnone ltac:(vm_compute; reflexivity)).
    vm_compute in Hnone. discriminate.
Defined.

(** C9, where the claim fails.  The reply [reply_two_objects] is not
    JSON and holds a well-formed bracketed JSON text, its characters 6 to
    13; [chat_json] decodes the span from the first opening brace to the
    last closing brace, which is not JSON, and raises. *)
Lemma chat_json_misses_first_substring :
  JsonLoads.loads Scenario.reply_two_objects = None ∧
  PyStr.slice 6 14 Scenario.reply_two_objects = PyStr.quoted "{'a': 1}" ∧
  JsonLoads.loads (PyStr.slice 6 14 Scenario.reply_two_objects)
  = Some (JObj [("a", JInt 1)]) ∧
  chat_json Scenario.reply_two_objects = Raise JSONDecodeError.
Proof. vm_compute. repeat split. Qed.

End ChatJsonClaims.

(** ** Validation pipeline *)

Section ValidatorFacts.
Import Models Json Py World Validator.
Context (E : env).

Lemma find_map_update {A} (p : A → bool) (g : A → A) (l : list A) (x : A) :
  (∀ y, p (g y) = p y) →
  List.find p l = Some x →
  List.find p (map (λ y, if p y then g y else y) l) = Some (g x).
Proof.
  intros Hp. induction l as [| y l IH]; simpl; [done |].
  destruct (p y) eqn:Ey.
  - intros [= ->]. by rewrite Hp, Ey.
  - rewrite Ey. exact IH.
Qed.

Lemma assign_finding_id f a : f_id (assign_finding f a) = f_id f.
Proof. by destruct a. Qed.

Lemma assign_all_finding_id kwargs f : f_id (fold_left assign_finding kwargs f) = f_id f.
Proof.
  revert f. induction kwargs as [| a kwargs IH]; intros f; simpl; [done |].
  by rewrite IH, assign_finding_id.
Qed.

Lemma FindingDB_get_update finding_id kwargs d f :
  FindingDB_get finding_id d = Some f →
  FindingDB_get finding_id (FindingDB_update finding_id kwargs d)
  = Some (fold_left assign_finding kwargs f).
Proof.
  unfold FindingDB_get, FindingDB_update. simpl. intros H.
  apply (find_map_update (λ f, f_id f =? finding_id)
           (λ f, fold_left assign_finding kwargs f)); [| exact H].
  intros y. by rewrite assign_all_finding_id.
Qed.

Lemma FindingDB_get_log finding_id entry d :
  FindingDB_get finding_id (WorkerLogDB_log entry d) = FindingDB_get finding_id d.
Proof. reflexivity. Qed.

(** What [_fail_finding] does: the row is marked, the reason is logged
    and returned; nothing else is touched and nothing is sent out. *)
Lemma fail_finding_spec finding_id steps (reason : string) w :
  _fail_finding E finding_id steps (JStr reason) w
  = (Ok (VFalsePositive finding_id steps (JStr reason)),
     with_db
       (WorkerLogDB_log
          (mk_worker_log None "validator" "mistral-7b" "validate"
             "FALSE_POSITIVE" (JStr (PyStr.upto 100 reason)))
          (FindingDB_update finding_id
             [Set_f_status "false_positive"; Set_f_verified_by "poc-validator";
              Set_f_verified_at (strftime E (trace w))] (db w)))
       w).
Proof. reflexivity. Qed.

Lemma fail_finding_result finding_id steps reason w r w' :
  _fail_finding E finding_id steps reason w = (Ok r, w') →
  r = VFalsePositive finding_id steps reason.
Proof.
  unfold _fail_finding, bind, gets, FindingDB_update_m, WorkerLogDB_log_m,
    modify, lift, ret.
  destruct (py_slice 100 reason); [| done]. by intros [= <- _].
Qed.

End ValidatorFacts.

Section SeverityClaim.
Import Models Json Py World Validator.
Context (E : env).

Lemma vulnerability_proof_confirmed worker finding_id f hunt_id steps0 status_code body
    w steps verdict w' :
  FindingDB_get finding_id (db w) = Some f →
  vulnerability_proof E worker finding_id f hunt_id steps0 status_code body w
  = (Ok (VConfirmed finding_id steps verdict), w') →
  ∃ ms f',
    verdict = JObj ms ∧
    py_is_str (Json.get "verdict" ms) "CONFIRMED" = true ∧
    FindingDB_get finding_id (db w') = Some f' ∧
    f_status f' = "verified" ∧
    if py_is_str (Json.get "severity_adjustment" ms) "none"
    then f_severity f' = f_severity f
    else bind_text (Json.get_or "adjusted_severity" (JStr (f_severity f)) ms)
         = Ok (f_severity f').
Proof.
  intros Hf. unfold vulnerability_proof, bind, llm_chat_json, lift, gets,
    FindingDB_update_m, WorkerLogDB_log_m, set_worker_status_m, modify, ret.
  destruct (chat E (trace w) "validator" _) as [raw | e]; [| done].
  destruct (VLLMClient.chat_json raw) as [v | e]; [| done].
  destruct v as [| | | | | | ms]; try done. simpl.
  destruct (py_slice 300 _) as [evidence | e]; [| done].
  destruct (py_is_str (Json.get "verdict" ms) "CONFIRMED") eqn:Hc.
  - destruct (py_is_str (Json.get "severity_adjustment" ms) "none") eqn:Ha; simpl.
    + intros [= <- <- <-]. exists ms. eexists. simpl.
      split; [done |]. split; [done |]. split.
      * rewrite FindingDB_get_log. apply FindingDB_get_update. exact Hf.
      * rewrite Ha. by split.
    + destruct (bind_text _) as [severity | e] eqn:Hb; [| done]. simpl.
      intros [= <- <- <-]. exists ms. eexists. simpl.
      split; [done |]. split; [done |]. split.
      * rewrite FindingDB_get_log. apply FindingDB_get_update.
        apply FindingDB_get_update. exact Hf.
      * rewrite Ha. split; [reflexivity | exact Hb].
  - intros H%fail_finding_result. discriminate.
Qed.

(** C10. When [validate_finding] confirms a finding, the verdict is an
    object saying CONFIRMED and the row reads verified; unless the
    verdict's severity_adjustment is the string none (so also when it is
    absent: [get] then answers None), the severity column is overwritten
    with adjusted_severity, and with the finding's own severity when
    adjusted_severity is absent. *)
Theorem confirmed_severity_adjustment
    (finding_id hunt_id : Z) (w : world) (f : finding)
    (steps : list step) (verdict : json) (w' : world) :
  FindingDB_get finding_id (db w) = Some f →
  validate_finding E finding_id hunt_id w
  = (Ok (VConfirmed finding_id steps verdict), w') →
  ∃ ms f',
    verdict = JObj ms ∧
    py_is_str (Json.get "verdict" ms) "CONFIRMED" = true ∧
    FindingDB_get finding_id (db w') = Some f' ∧
    f_status f' = "verified" ∧
    (if py_is_str (Json.get "severity_adjustment" ms) "none"
     then f_severity f' = f_severity f
     else bind_text (Json.get_or "adjusted_severity" (JStr (f_severity f)) ms)
          = Ok (f_severity f')) ∧
    (dict_get "severity_adjustment" ms = None →
     dict_get "adjusted_severity" ms = None →
     f_severity f' = f_severity f) ∧
    (∀ s, dict_get "severity_adjustment" ms = None →
          dict_get "adjusted_severity" ms = Some (JStr s) →
          f_severity f' = s).
Proof.
  intros Hf. unfold validate_finding.
  unfold bind at 1, gets at 1. unfold bind at 1, set_worker_status_m, modify.
  unfold bind at 1, gets at 1. cbn [db with_workers]. rewrite Hf.
  intros Hrun.
  assert (Hmain : ∃ worker steps0 status_code body w0,
            FindingDB_get finding_id (db w0) = Some f ∧
            vulnerability_proof E worker finding_id f hunt_id steps0 status_code body w0
            = (Ok (VConfirmed finding_id steps verdict), w')).
  { revert Hrun. unfold bind, curl. simpl.
    destruct (negb (dns_pass _)).
    { intros H%fail_finding_result. discriminate. }
    destruct (negb (http_pass _)).
    { intros H%fail_finding_result. discriminate. }
    destruct (negb (endpoint_pass _) && endpoint_rejected _).
    { intros H%fail_finding_result. discriminate. }
    intros H. do 5 eexists. split; [| exact H]. exact Hf. }
  destruct Hmain as (worker & steps0 & status_code & body & w0 & Hf0 & Hvp).
  destruct (vulnerability_proof_confirmed _ _ _ _ _ _ _ _ _ _ _ Hf0 Hvp)
    as (ms & f' & -> & Hc & Hf' & Hst & Hsev).
  exists ms, f'. repeat split; try done.
  - intros Ha Hs. unfold Json.get, Json.get_or in Hsev. rewrite Ha, Hs in Hsev.
    simpl in Hsev. by inversion Hsev.
  - intros s Ha Hs. unfold Json.get, Json.get_or in Hsev. rewrite Ha, Hs in Hsev.
    simpl in Hsev. by inversion Hsev.
Qed.

End SeverityClaim.

Section FailFast.
Import Models Json Py World Validator.
Context (E : env).

Lemma endpoint_rejected_not_pass s :
  endpoint_rejected s = true → endpoint_pass s = false.
Proof.
  unfold endpoint_rejected. intros H.
  apply orb_prop in H as [H | H]; [apply orb_prop in H as [H | H] |];
    apply String.eqb_eq in H; by subst.
Qed.

Ltac stage_unfold :=
  unfold steps_endpoint, steps_http, steps_dns, prompt_of, body_answer,
    status_answer, http_answer, dns_answer, after_body, after_endpoint,
    after_http, after_dns in *.

Lemma stage1_fails finding_id hunt_id w f :
  FindingDB_get finding_id (db w) = Some f →
  dns_pass (dns_answer E w f) = false →
  validate_finding E finding_id hunt_id w
  = (Ok (VFalsePositive finding_id (steps_dns E w f) (JStr "Domain does not resolve")),
     rejected_world E finding_id (JStr "Domain does not resolve") (after_dns E w f) (started E finding_id w)).
Proof.
  intros Hf Hdns. stage_unfold.
  unfold validate_finding.
  unfold bind at 1, gets at 1. unfold bind at 1, set_worker_status_m, modify.
  unfold bind at 1, gets at 1. cbn [db with_workers]. rewrite Hf.
  unfold bind, curl. change (trace (with_workers _ w)) with (trace w). rewrite Hdns. simpl.
  by rewrite fail_finding_spec.
Qed.

Lemma stage2_fails finding_id hunt_id w f :
  FindingDB_get finding_id (db w) = Some f →
  dns_pass (dns_answer E w f) = true →
  http_pass (http_answer E w f) = false →
  validate_finding E finding_id hunt_id w
  = (Ok (VFalsePositive finding_id (steps_http E w f)
           (JStr (unreachable_reason (http_answer E w f)))),
     rejected_world E finding_id
       (JStr (PyStr.upto 100 (unreachable_reason (http_answer E w f))))
       (after_http E w f) (started E finding_id w)).
Proof.
  intros Hf Hdns Hhttp. stage_unfold.
  unfold validate_finding.
  unfold bind at 1, gets at 1. unfold bind at 1, set_worker_status_m, modify.
  unfold bind at 1, gets at 1. cbn [db with_workers]. rewrite Hf.
  unfold bind, curl. change (trace (with_workers _ w)) with (trace w). rewrite Hdns. simpl. rewrite Hhttp. simpl.
  by rewrite fail_finding_spec.
Qed.

Lemma stage3_fails finding_id hunt_id w f :
  FindingDB_get finding_id (db w) = Some f →
  dns_pass (dns_answer E w f) = true →
  http_pass (http_answer E w f) = true →
  endpoint_rejected (status_answer E w f) = true →
  validate_finding E finding_id hunt_id w
  = (Ok (VFalsePositive finding_id (steps_endpoint E w f)
           (JStr ("Endpoint returns HTTP " +:+ status_answer E w f))),
     rejected_world E finding_id
       (JStr (PyStr.upto 100 ("Endpoint returns HTTP " +:+ status_answer E w f)))
       (after_body E w f) (started E finding_id w)).
Proof.
  intros Hf Hdns Hhttp Hrej.
  pose proof (endpoint_rejected_not_pass _ Hrej) as Hpass. stage_unfold.
  unfold validate_finding.
  unfold bind at 1, gets at 1. unfold bind at 1, set_worker_status_m, modify.
  unfold bind at 1, gets at 1. cbn [db with_workers]. rewrite Hf.
  unfold bind, curl. change (trace (with_workers _ w)) with (trace w). rewrite Hdns. simpl. rewrite Hhttp. simpl.
  rewrite Hrej, Hpass. simpl.
  by rewrite fail_finding_spec.
Qed.

Lemma stage4_fails finding_id hunt_id w f raw ms evidence shown :
  FindingDB_get finding_id (db w) = Some f →
  dns_pass (dns_answer E w f) = true →
  http_pass (http_answer E w f) = true →
  endpoint_rejected (status_answer E w f) = false →
  chat E (after_body E w f) "validator" (prompt_of E w f) = Ok raw →
  VLLMClient.chat_json raw = Ok (JObj ms) →
  py_is_str (Json.get "verdict" ms) "CONFIRMED" = false →
  py_slice 300 (Json.get_or "evidence" (JStr "") ms) = Ok evidence →
  py_slice 100 (Json.get_or "reasoning" (JStr "Not confirmed") ms) = Ok shown →
  validate_finding E finding_id hunt_id w
  = (Ok (VFalsePositive finding_id
           (steps_endpoint E w f ++ [mk_step "vuln_proof" "FAIL" evidence])
           (Json.get_or "reasoning" (JStr "Not confirmed") ms)),
     rejected_world E finding_id shown
       (after_body E w f ++ [EvChat "validator" (prompt_of E w f)])
       (chat_counted E (after_body E w f) "validator" (prompt_of E w f)
          (started E finding_id w))).
Proof.
  intros Hf Hdns Hhttp Hrej Hchat Hjson Hverdict Hev Hshown. stage_unfold.
  unfold validate_finding.
  unfold bind at 1, gets at 1. unfold bind at 1, set_worker_status_m, modify.
  unfold bind at 1, gets at 1. cbn [db with_workers]. rewrite Hf.
  unfold bind, curl. change (trace (with_workers _ w)) with (trace w). rewrite Hdns. simpl. rewrite Hhttp. simpl.
  rewrite Hrej, andb_false_r.
  unfold vulnerability_proof, bind, llm_chat_json, lift. simpl.
  rewrite Hchat, Hjson. simpl. rewrite Hev, Hverdict. simpl.
  unfold _fail_finding, bind, gets, FindingDB_update_m, WorkerLogDB_log_m,
    modify, lift, ret. simpl. by rewrite Hshown.
Qed.

End FailFast.

Section ValidatorClaims.
Import Models Json Py World Validator.
Context (E : env).

(** C2, as the code has it.  For a finding that [validate_finding]
    finds, the first step that rejects ends the run: the result is
    FALSE_POSITIVE with the steps up to that one, the last of them
    recorded as FAIL, and the reason; the row is marked false_positive and
    the reason is logged; the commands sent are those of the steps up to
    that one and nothing after it.  A step rejects when: the lookup shows
    no address or NXDOMAIN; the request to the host errs or prints
    nothing; the endpoint answers 404, 403 or 401; the verdict is not
    CONFIRMED.  (A WAF banner, or another status that is not 2xx, 301 or
    302, is recorded as FAIL and does not reject.) *)
Theorem validate_finding_fail_fast (finding_id hunt_id : Z) (w : world) (f : finding) :
  FindingDB_get finding_id (db w) = Some f →
  (dns_pass (dns_answer E w f) = false →
     validate_finding E finding_id hunt_id w
     = (Ok (VFalsePositive finding_id (steps_dns E w f)
              (JStr "Domain does not resolve")),
        rejected_world E finding_id (JStr "Domain does not resolve")
          (after_dns E w f) (started E finding_id w)) ∧
     step_result <$> steps_dns E w f = ["FAIL"]) ∧
  (dns_pass (dns_answer E w f) = true →
   http_pass (http_answer E w f) = false →
     validate_finding E finding_id hunt_id w
     = (Ok (VFalsePositive finding_id (steps_http E w f)
              (JStr (unreachable_reason (http_answer E w f)))),
        rejected_world E finding_id
          (JStr (PyStr.upto 100 (unreachable_reason (http_answer E w f))))
          (after_http E w f) (started E finding_id w)) ∧
     step_result <$> steps_http E w f = ["PASS"; "FAIL"]) ∧
  (dns_pass (dns_answer E w f) = true →
   http_pass (http_answer E w f) = true →
   endpoint_rejected (status_answer E w f) = true →
     validate_finding E finding_id hunt_id w
     = (Ok (VFalsePositive finding_id (steps_endpoint E w f)
              (JStr ("Endpoint returns HTTP " +:+ status_answer E w f))),
        rejected_world E finding_id
          (JStr (PyStr.upto 100 ("Endpoint returns HTTP " +:+ status_answer E w f)))
          (after_body E w f) (started E finding_id w)) ∧
     last (step_result <$> steps_endpoint E w f) = Some "FAIL") ∧
  (∀ raw ms evidence shown,
   dns_pass (dns_answer E w f) = true →
   http_pass (http_answer E w f) = true →
   endpoint_rejected (status_answer E w f) = false →
   chat E (after_body E w f) "validator" (prompt_of E w f) = Ok raw →
   VLLMClient.chat_json raw = Ok (JObj ms) →
   py_is_str (Json.get "verdict" ms) "CONFIRMED" = false →
   py_slice 300 (Json.get_or "evidence" (JStr "") ms) = Ok evidence →
   py_slice 100 (Json.get_or "reasoning" (JStr "Not confirmed") ms) = Ok shown →
     validate_finding E finding_id hunt_id w
     = (Ok (VFalsePositive finding_id
              (steps_endpoint E w f ++ [mk_step "vuln_proof" "FAIL" evidence])
              (Json.get_or "reasoning" (JStr "Not confirmed") ms)),
        rejected_world E finding_id shown
          (after_body E w f ++ [EvChat "validator" (prompt_of E w f)])
       (chat_counted E (after_body E w f) "validator" (prompt_of E w f)
          (started E finding_id w)))).
Proof.
  intros Hf. split; [| split; [| split]].
  - intros Hdns. split; [by apply stage1_fails |].
    unfold steps_dns, dns_step. simpl. by rewrite Hdns.
  - intros Hdns Hhttp. split; [by apply stage2_fails |].
    unfold steps_http, steps_dns, http_step, dns_step. simpl.
    by rewrite Hdns, Hhttp.
  - intros Hdns Hhttp Hrej. split; [by apply stage3_fails |].
    unfold steps_endpoint, steps_http, steps_dns, endpoint_step. simpl.
    by rewrite (endpoint_rejected_not_pass _ Hrej).
  - intros raw ms evidence shown Hdns Hhttp Hrej Hchat Hjson Hverdict Hev Hshown.
    by eapply stage4_fails.
Qed.

(** C8, as the code has it.  A finding whose URL answers 403 and whose
    host answers with a WAF banner in its headers ends false_positive,
    with the reason returned and logged, and no request is made to the
    judgment model.  The reason is that of the first step that rejects:
    [Domain does not resolve] when the lookup fails, [Host unreachable]
    with the exit code when the request to the host errs, and
    [Endpoint returns HTTP 403] otherwise; the banner is recorded as a
    FAIL of the http step and is named in no reason.  When the host
    resolves and is reached, the run ends after the four shell
    commands. *)
Theorem waf_403_rejected_before_judgment
    (finding_id hunt_id : Z) (w : world) (f : finding) :
  FindingDB_get finding_id (db w) = Some f →
  (∀ h, _check_waf
          (stdout (run_curl E h (http_command (_extract_domain E (f_url f)))))
        = true) →
  (∀ h, PyStr.strip (stdout (run_curl E h (endpoint_command (f_url f)))) = "403") →
  let run := validate_finding E finding_id hunt_id w in
  (∃ steps reason,
     run.1 = Ok (VFalsePositive finding_id steps (JStr reason)) ∧
     reason = (if negb (dns_pass (dns_answer E w f)) then "Domain does not resolve"
               else if negb (http_pass (http_answer E w f))
                    then unreachable_reason (http_answer E w f)
                    else "Endpoint returns HTTP 403") ∧
     last (worker_logs (db run.2))
     = Some (mk_worker_log None "validator" "mistral-7b" "validate"
               "FALSE_POSITIVE" (JStr (PyStr.upto 100 reason)))) ∧
  (∃ f', FindingDB_get finding_id (db run.2) = Some f' ∧
         f_status f' = "false_positive") ∧
  (∃ sent, trace run.2 = trace w ++ sent ∧ Forall (λ e, is_chat e = false) sent) ∧
  (dns_pass (dns_answer E w f) = true →
   http_pass (http_answer E w f) = true →
   run.1 = Ok (VFalsePositive finding_id
                [mk_step "dns" "PASS"
                   (JStr (PyStr.upto 200 (stdout (dns_answer E w f))));
                 mk_step "http" "FAIL"
                   (JStr (PyStr.upto 300 (stdout (http_answer E w f))));
                 mk_step "endpoint" "FAIL"
                   (JStr ("HTTP 403, body length: " +:+
                          pretty (String.length (body_answer E w f))))]
                (JStr "Endpoint returns HTTP 403")) ∧
   trace run.2
   = trace w ++ [EvCurl (dns_command (_extract_domain E (f_url f)));
                 EvCurl (http_command (_extract_domain E (f_url f)));
                 EvCurl (endpoint_command (f_url f));
                 EvCurl (body_command (f_url f))]).
Proof.
  intros Hf Hwaf Hstatus run.
  assert (Hst : status_answer E w f = "403") by apply Hstatus.
  assert (Hrej : endpoint_rejected (status_answer E w f) = true) by (by rewrite Hst).
  assert (Hmarked : ∀ shown h,
            ∃ f', FindingDB_get finding_id
                    (db (rejected_world E finding_id shown h (started E finding_id w)))
                  = Some f' ∧ f_status f' = "false_positive").
  { intros shown h. eexists. split; [by apply FindingDB_get_update |]. reflexivity. }
  assert (Hlog : ∀ shown h,
            last (worker_logs
                    (db (rejected_world E finding_id shown h (started E finding_id w))))
            = Some (mk_worker_log None "validator" "mistral-7b" "validate"
                      "FALSE_POSITIVE" shown)).
  { intros shown h. simpl. by rewrite last_snoc. }
  destruct (dns_pass (dns_answer E w f)) eqn:Hdns;
    [destruct (http_pass (http_answer E w f)) eqn:Hhttp |].
  - subst run. rewrite (stage3_fails E _ hunt_id _ _ Hf Hdns Hhttp Hrej).
    rewrite Hst. simpl fst. simpl snd.
    split; [do 2 eexists; split; [reflexivity | split; [reflexivity | apply Hlog]] |].
    split; [apply Hmarked |]. split.
    + simpl. unfold after_body, after_endpoint, after_http, after_dns.
      rewrite <- !app_assoc. eexists. split; [reflexivity |].
      simpl. repeat constructor.
    + intros _ _. split.
      * unfold steps_endpoint, steps_http, steps_dns, dns_step, http_step,
          endpoint_step.
        rewrite Hdns, Hhttp, Hst.
        unfold http_answer, after_dns. by rewrite Hwaf.
      * simpl. unfold after_body, after_endpoint, after_http, after_dns.
        by rewrite <- !app_assoc.
  - subst run. rewrite (stage2_fails E _ hunt_id _ _ Hf Hdns Hhttp).
    simpl fst. simpl snd.
    split; [do 2 eexists; split; [reflexivity | split; [reflexivity | apply Hlog]] |].
    split; [apply Hmarked |]. split; [| done].
    simpl. unfold after_http, after_dns. rewrite <- !app_assoc.
    eexists. split; [reflexivity |]. simpl. repeat constructor.
  - subst run. rewrite (stage1_fails E _ hunt_id _ _ Hf Hdns).
    simpl fst. simpl snd.
    split; [do 2 eexists; split; [reflexivity | split; [reflexivity | apply Hlog]] |].
    split; [apply Hmarked |]. split; [| done].
    simpl. unfold after_dns.
    eexists. split; [reflexivity |]. repeat constructor.
Qed.

End ValidatorClaims.

Section ValidatorWitnesses.
Import Models Json Py World Validator Scenario.

Lemma validate_finding_fail_fast_witness :
  (validate_finding env_nxdomain 1 7 world_with_finding).1
  = Ok (VFalsePositive 1
          [mk_step "dns" "FAIL" (JStr (stdout dns_nxdomain))]
          (JStr "Domain does not resolve")) ∧
  trace (validate_finding env_nxdomain 1 7 world_with_finding).2
  = [EvCurl "nslookup a.com"].
Proof.
  destruct (validate_finding_fail_fast env_nxdomain 1 7 world_with_finding
              (a_finding 1 7 "unverified") eq_refl) as [Hdns _].
  destruct (Hdns ltac:(vm_compute; reflexivity)) as [Hrun _].
  rewrite Hrun. split; vm_compute; reflexivity.
Defined.

(** C2, where the claim fails.  The host answers with a WAF banner and
    the URL answers 500: the http step and the endpoint step are both
    recorded as FAIL, and yet the run goes on to the judgment model,
    records its evidence and confirms the finding. *)
Lemma validate_finding_goes_on_after_fail :
  ∃ steps verdict,
    (validate_finding env_waf_500 1 7 world_with_finding).1
    = Ok (VConfirmed 1 steps verdict) ∧
    step_name <$> steps = ["dns"; "http"; "endpoint"; "vuln_proof"] ∧
    step_result <$> steps = ["PASS"; "FAIL"; "FAIL"; "PASS"] ∧
    f_status <$> findings (db (validate_finding env_waf_500 1 7 world_with_finding).2)
    = ["verified"].
Proof. do 2 eexists. vm_compute. repeat split. Qed.

Lemma waf_403_rejected_before_judgment_witness :
  (validate_finding env_waf_403 1 7 world_with_finding).1
  = Ok (VFalsePositive 1
          [mk_step "dns" "PASS" (JStr (stdout dns_ok));
           mk_step "http" "FAIL" (JStr (stdout http_waf));
           mk_step "endpoint" "FAIL" (JStr "HTTP 403, body length: 13")]
          (JStr "Endpoint returns HTTP 403")) ∧
  ∃ sent, trace (validate_finding env_waf_403 1 7 world_with_finding).2 = sent ∧
          Forall (λ e, is_chat e = false) sent.
Proof.
  destruct (waf_403_rejected_before_judgment env_waf_403 1 7 world_with_finding
              (a_finding 1 7 "unverified") eq_refl
              ltac:(intros h; vm_compute; reflexivity)
              ltac:(intros h; vm_compute; reflexivity))
    as (_ & _ & (sent & Htrace & Hsent) & Hreached).
  destruct (Hreached ltac:(vm_compute; reflexivity) ltac:(vm_compute; reflexivity))
    as [Hrun _].
  split; [rewrite Hrun; vm_compute; reflexivity |].
  exists sent. split; [by rewrite Htrace | exact Hsent].
Defined.

(** C8, where the claim fails.  The host answers with a WAF banner and
    the URL answers 403, but the lookup does not answer in time: the
    finding is rejected at the dns step, and the reason returned and
    logged is [Domain does not resolve], which names neither the WAF nor
    the block. *)
Lemma waf_403_reason_is_not_the_block :
  (∀ h, _check_waf (stdout (run_curl env_waf_403_no_lookup h
                              (http_command "a.com"))) = true) ∧
  (∀ h, PyStr.strip (stdout (run_curl env_waf_403_no_lookup h
                               (endpoint_command "https://a.com/api/users/2")))
        = "403") ∧
  (validate_finding env_waf_403_no_lookup 1 7 world_with_finding).1
  = Ok (VFalsePositive 1 [mk_step "dns" "FAIL" (JStr "")]
          (JStr "Domain does not resolve")) ∧
  last (worker_logs (db (validate_finding env_waf_403_no_lookup 1 7
                           world_with_finding).2))
  = Some (mk_worker_log None "validator" "mistral-7b" "validate" "FALSE_POSITIVE"
            (JStr "Domain does not resolve")).
Proof.
  split; [intros h; vm_compute; reflexivity |].
  split; [intros h; vm_compute; reflexivity |].
  split; vm_compute; reflexivity.
Qed.

Lemma confirmed_severity_adjustment_witness :
  f_severity (a_finding 1 7 "unverified") = "medium" ∧
  ∃ f', FindingDB_get 1 (db (validate_finding env_confirmed 1 7 world_with_finding).2)
        = Some f' ∧
        f_severity f' = "high".
Proof.
  split; [reflexivity |].
  destruct (validate_finding env_confirmed 1 7 world_with_finding) as [r w'] eqn:Hrun.
  assert (Hr : ∃ steps, r = Ok (VConfirmed 1 steps (JObj
             [("verdict", JStr "CONFIRMED"); ("evidence", JStr "user 2 in body");
              ("reasoning", JStr "other user data returned");
              ("severity_adjustment", JStr "upgrade");
              ("adjusted_severity", JStr "high")]))).
  { eexists. apply (f_equal fst) in Hrun. simpl in Hrun. rewrite <- Hrun.
    vm_compute. reflexivity. }
  destruct Hr as (steps & ->).
  destruct (confirmed_severity_adjustment env_confirmed 1 7 world_with_finding
              (a_finding 1 7 "unverified") _ _ _ eq_refl Hrun)
    as (ms & f' & Hms & _ & Hf' & _ & Hsev & _).
  exists f'. split; [exact Hf' |].
  inversion Hms; subst ms. vm_compute in Hsev. by inversion Hsev.
Defined.

End ValidatorWitnesses.

(** ** Hunt orchestrator *)

Section GapNeutral.
Import Models Json Py World.
Context (E : env).

Lemma gap_calls_snoc h e :
  gap_calls (h ++ [e]) = (gap_calls h + if is_gap e then 1 else 0)%nat.
Proof.
  unfold gap_calls. rewrite List.filter_app, length_app. simpl.
  by destruct (is_gap e).
Qed.

Lemma neutral_ret {A} (a : A) : neutral (ret a).
Proof. by intros w. Qed.

Lemma neutral_raise {A} e : neutral (@raise A e).
Proof. by intros w. Qed.

Lemma neutral_gets {A} (f : world → A) : neutral (gets f).
Proof. by intros w. Qed.

Lemma neutral_lift {A} (r : outcome A) : neutral (lift r).
Proof. by intros w. Qed.

Lemma neutral_modify (f : world → world) :
  (∀ w, trace (f w) = trace w) → neutral (modify f).
Proof. intros H w. simpl. by rewrite H. Qed.

Lemma neutral_emit e : is_gap e = false → neutral (modify (emit e)).
Proof. intros H w. simpl. rewrite gap_calls_snoc, H. lia. Qed.

Lemma neutral_bind {A B} (m : M A) (k : A → M B) :
  neutral m → (∀ a, neutral (k a)) → neutral (bind m k).
Proof.
  intros Hm Hk w. unfold bind. specialize (Hm w).
  destruct (m w) as [[a | e] w1]; simpl in *; [| exact Hm].
  by rewrite Hk.
Qed.

Lemma neutral_call {A} e (t : task A) :
  is_gap e = false → neutral (call e t).
Proof.
  intros H w. unfold call. destruct (t w) as [r w']. simpl.
  rewrite gap_calls_snoc, H. lia.
Qed.

Lemma neutral_for_each {A} (xs : list A) (body : A → M unit) :
  (∀ x, neutral (body x)) → neutral (for_each xs body).
Proof.
  intros H. induction xs as [| x xs IH]; simpl.
  - apply neutral_ret.
  - apply neutral_bind; [apply H | intros _; exact IH].
Qed.

Lemma neutral_curl command : neutral (Validator.curl E command).
Proof. intros w. unfold Validator.curl. simpl. rewrite gap_calls_snoc. simpl. lia. Qed.

Lemma neutral_chat_json k p : neutral (Validator.llm_chat_json E k p).
Proof.
  intros w. unfold Validator.llm_chat_json.
  destruct (chat E (trace w) k p); simpl; rewrite gap_calls_snoc; simpl; lia.
Qed.

Ltac neutral_step :=
  first
    [ apply neutral_ret | apply neutral_raise | apply neutral_gets
    | apply neutral_lift | apply neutral_curl | apply neutral_chat_json
    | apply neutral_modify; reflexivity
    | apply neutral_emit; reflexivity
    | apply neutral_call; reflexivity
    | apply neutral_for_each; intros
    | apply neutral_bind; [| intros]
    | progress cbv zeta
    | match goal with
      | |- neutral (if ?b then _ else _) => destruct b
      | |- neutral (match ?x with _ => _ end) => destruct x
      end ].

Ltac neutral_tac := repeat neutral_step.

Lemma neutral_fail_finding finding_id steps reason :
  neutral (Validator._fail_finding E finding_id steps reason).
Proof.
  unfold Validator._fail_finding, Validator.FindingDB_update_m,
    Validator.WorkerLogDB_log_m. neutral_tac.
Qed.

Lemma neutral_vulnerability_proof worker finding_id f hunt_id steps status_code body :
  neutral (Validator.vulnerability_proof E worker finding_id f hunt_id steps
             status_code body).
Proof.
  unfold Validator.vulnerability_proof, Validator.FindingDB_update_m,
    Validator.WorkerLogDB_log_m, Validator.set_worker_status_m. neutral_tac.
Qed.

Lemma neutral_validate_finding finding_id hunt_id :
  neutral (Validator.validate_finding E finding_id hunt_id).
Proof.
  unfold Validator.validate_finding, Validator.set_worker_status_m. neutral_tac.
Qed.

Lemma neutral_test_cards hunt_id target_id domain cards :
  neutral (Brain.test_cards E hunt_id target_id domain cards).
Proof. unfold Brain.test_cards. neutral_tac. Qed.

Lemma neutral_create target_id hunt_type :
  neutral (Brain.HuntDB_create_m target_id hunt_type).
Proof.
  intros w. unfold Brain.HuntDB_create_m, HuntDB_create.
  by destruct (TargetDB_get_by_id target_id (db w)).
Qed.

Lemma neutral_recon target_id hunt_id domain :
  neutral (Brain.recon E target_id hunt_id domain).
Proof. unfold Brain.recon, Brain.HuntDB_update_m. neutral_tac. Qed.

Lemma neutral_discovery target_id hunt_id domain :
  neutral (Brain.discovery E target_id hunt_id domain).
Proof. unfold Brain.discovery, Brain.HuntDB_update_m. neutral_tac. Qed.

Lemma neutral_testing target_id hunt_id domain :
  neutral (Brain.testing E target_id hunt_id domain).
Proof.
  unfold Brain.testing, Brain.HuntDB_update_m. neutral_tac.
Qed.

Lemma neutral_validate_each hunt_id unverified count :
  neutral (Brain.validate_each E hunt_id unverified count).
Proof.
  revert count. induction unverified as [| f fs IH]; intros count; simpl.
  - apply neutral_ret.
  - apply neutral_bind; [apply neutral_validate_finding | intros r; apply IH].
Qed.

Lemma neutral_validation hunt_id : neutral (Brain.validation E hunt_id).
Proof.
  unfold Brain.validation, Brain.HuntDB_update_m. neutral_tac.
  apply neutral_validate_each.
Qed.

Lemma neutral_reporting target target_id hunt_id domain :
  neutral (Brain.reporting E target target_id hunt_id domain).
Proof. unfold Brain.reporting, Brain.HuntDB_update_m. neutral_tac. Qed.

Lemma neutral_complete domain hunt_id verified_count verified :
  neutral (Brain.complete E domain hunt_id verified_count verified).
Proof.
  unfold Brain.complete, Brain.HuntDB_update_m, Brain.TargetDB_update_m,
    Brain.increment_stat_m. neutral_tac.
Qed.

(** [sync] calls the gap discovery once when the hunt has no finding,
    and not at all otherwise. *)
Lemma sync_gap_calls target_id hunt_id domain cards w :
  gap_calls (trace (Brain.sync E target_id hunt_id domain cards w).2)
  = (gap_calls (trace w) +
     match FindingDB_get_by_hunt hunt_id (db w) with [] => 1 | _ => 0 end)%nat.
Proof.
  unfold Brain.sync, bind at 1 2, Brain.HuntDB_update_m, modify, gets. simpl.
  change (FindingDB_get_by_hunt hunt_id
            (HuntDB_update hunt_id [Set_h_phase "sync"] (db w)))
    with (FindingDB_get_by_hunt hunt_id (db w)).
  destruct (FindingDB_get_by_hunt hunt_id (db w)) as [| f fs]; [| simpl; lia].
  unfold bind at 1, call at 1.
  destruct (gap_triggered_discovery E _ _ _ _ _) as [[[] | e] d]; simpl.
  - assert (Hrest : neutral (bind (gets (λ w0, HypothesisDB_get_pending hunt_id (db w0)))
              (λ second_cards,
                 bind (Brain.test_cards E hunt_id target_id domain second_cards)
                 (λ _, gets (λ w0, FindingDB_get_by_hunt hunt_id (db w0)))))).
    { neutral_tac. }
    rewrite Hrest. simpl. rewrite gap_calls_snoc. reflexivity.
  - rewrite gap_calls_snoc. reflexivity.
Qed.

End GapNeutral.

(** Two equations on one run name the same results. *)
Ltac same_run :=
  simplify_eq;
  repeat (match goal with
          | H : ?x = (_, _), H' : ?x = (_, _) |- _ => rewrite H in H'
          | H : ?x = Some _, H' : ?x = Some _ |- _ => rewrite H in H'
          end; simplify_eq).

Section GapClaim.
Import Models Json Py World Brain.
Context (E : env).

(** The gap calls of the body of a hunt *)
Lemma hunt_gap_calls target_id target domain w0 :
  let w' := (hunt E target_id target domain w0).2 in
  (gap_calls (trace w') = gap_calls (trace w0) ∨
   gap_calls (trace w') = S (gap_calls (trace w0))) ∧
  (gap_calls (trace w') = S (gap_calls (trace w0)) ↔
   ∃ hunt_id w1 rr w2 w3 cards w4,
     HuntDB_create_m target_id "full" w0 = (Ok hunt_id, w1) ∧
     recon E target_id hunt_id domain w1 = (Ok rr, w2) ∧
     py_eq_str (rr_status rr) "error" = false ∧
     discovery E target_id hunt_id domain w2 = (Ok tt, w3) ∧
     testing E target_id hunt_id domain w3 = (Ok cards, w4) ∧
     FindingDB_get_by_hunt hunt_id (db w4) = []).
Proof.
  intros w'. pose proof (eq_refl : w' = (hunt E target_id target domain w0).2) as Hw.
  clearbody w'. unfold hunt, bind at 1 in Hw.
  pose proof (neutral_create target_id "full" w0) as N0.
  destruct (HuntDB_create_m target_id "full" w0) as [[hunt_id | e] w1] eqn:Hc;
    simpl in N0.
  2: { simpl in Hw. subst w'. split; [by left |]. split; [lia |].
       intros (? & ? & ? & ? & ? & ? & ? & H & _). discriminate. }
  unfold bind at 1 in Hw.
  pose proof (neutral_recon E target_id hunt_id domain w1) as N1.
  destruct (recon E target_id hunt_id domain w1) as [[rr | e] w2] eqn:Hr;
    simpl in N1.
  2: { simpl in Hw. subst w'. split; [left; lia |]. split; [lia |].
       intros (? & ? & ? & ? & ? & ? & ? & H1 & H2 & _). same_run. }
  destruct (py_eq_str (rr_status rr) "error") eqn:Herr.
  { simpl in Hw. subst w'. simpl. split; [left; lia |]. split; [lia |].
    intros (? & ? & ? & ? & ? & ? & ? & H1 & H2 & H3 & _). same_run. congruence. }
  unfold bind at 1 in Hw.
  pose proof (neutral_discovery E target_id hunt_id domain w2) as N2.
  destruct (discovery E target_id hunt_id domain w2) as [[[] | e] w3] eqn:Hd;
    simpl in N2.
  2: { simpl in Hw. subst w'. split; [left; lia |]. split; [lia |].
       intros (? & ? & ? & ? & ? & ? & ? & H1 & H2 & H3 & H4 & _). same_run. }
  unfold bind at 1 in Hw.
  pose proof (neutral_testing E target_id hunt_id domain w3) as N3.
  destruct (testing E target_id hunt_id domain w3) as [[cards | e] w4] eqn:Ht;
    simpl in N3.
  2: { simpl in Hw. subst w'. split; [left; lia |]. split; [lia |].
       intros (? & ? & ? & ? & ? & ? & ? & H1 & H2 & H3 & H4 & H5 & _). same_run. }
  unfold bind at 1 in Hw.
  pose proof (sync_gap_calls E target_id hunt_id domain cards w4) as N4.
  assert (Hgap : (gap_calls (trace w') = gap_calls (trace w0) +
            match FindingDB_get_by_hunt hunt_id (db w4) with [] => 1 | _ => 0 end)%nat).
  { destruct (sync E target_id hunt_id domain cards w4) as [[all_findings | e] w5] eqn:Hs;
      simpl in N4.
    - assert (Nrest : neutral
                (bind (validation E hunt_id) (λ verified_count,
                 bind (reporting E target target_id hunt_id domain) (λ verified,
                 bind (complete E domain hunt_id verified_count verified) (λ _,
                 ret (HComplete hunt_id domain (length all_findings) verified_count
                        (length verified))))))).
      { apply neutral_bind; [apply neutral_validation | intros vc].
        apply neutral_bind; [apply neutral_reporting | intros vs].
        apply neutral_bind; [apply neutral_complete | intros _].
        apply neutral_ret. }
      rewrite Hw, (Nrest w5). lia.
    - simpl in Hw. subst w'. lia. }
  clear Hw N4.
  destruct (FindingDB_get_by_hunt hunt_id (db w4)) as [| f fs] eqn:Hfind.
  - split; [right; lia |]. split; [| lia].
    intros _. by exists hunt_id, w1, rr, w2, w3, cards, w4.
  - split; [left; lia |]. split; [lia |].
    intros (? & ? & ? & ? & ? & ? & ? & H1 & H2 & H3 & H4 & H5 & H6). same_run.
    congruence.
Qed.

Lemma test_cards_trace hunt_id target_id domain cards w w' :
  test_cards E hunt_id target_id domain cards w = (Ok tt, w') →
  trace w' = trace w ++
    map (λ c, EvTestHypothesis hunt_id target_id (c_id c) domain) cards.
Proof.
  unfold test_cards. revert w. induction cards as [| c cards IH]; intros w; simpl.
  - intros [= <-]. by rewrite app_nil_r.
  - unfold bind at 1, call at 1.
    destruct (test_hypothesis_browser E hunt_id target_id c domain w)
      as [[[] | e] d]; [| done].
    intros H%IH. rewrite H. simpl. by rewrite <- app_assoc.
Qed.

End GapClaim.

Section GapTheorem.
Import Models Json Py World Brain.
Context (E : env).

(** The three ways a run of [run_hunt] goes: no such target, the lock
    is held, or the hunt runs and the lock is released after it. *)
Lemma run_hunt_cases target_id w :
  (TargetDB_get_by_id target_id (db w) = None ∧
   run_hunt E target_id w
   = (Ok (HError ("Target " +:+ pretty target_id +:+ " not found")), w)) ∨
  (∃ target w0,
     TargetDB_get_by_id target_id (db w) = Some target ∧
     set_target_lock_m E (t_domain target) 7200 w = (Ok false, w0) ∧
     trace w0 = trace w ∧
     run_hunt E target_id w
     = (Ok (HSkipped (t_domain target +:+ " is already being hunted")), w0)) ∨
  (∃ target w0,
     TargetDB_get_by_id target_id (db w) = Some target ∧
     set_target_lock_m E (t_domain target) 7200 w = (Ok true, w0) ∧
     trace w0 = trace w ∧
     run_hunt E target_id w
     = ((hunt E target_id target (t_domain target) w0).1,
        release_target_lock_w (t_domain target)
          (hunt E target_id target (t_domain target) w0).2)).
Proof.
  destruct (TargetDB_get_by_id target_id (db w)) as [target |] eqn:Hfound.
  2: { left. split; [done |]. unfold run_hunt, bind, gets. by rewrite Hfound. }
  right.
  assert (Htrace : ∀ b w0, set_target_lock_m E (t_domain target) 7200 w = (Ok b, w0) →
                           trace w0 = trace w).
  { unfold set_target_lock_m. destruct (TaskQueue.set_target_lock _ _ _ _).
    by intros ? ? [= <- <-]. }
  destruct (set_target_lock_m E (t_domain target) 7200 w) as [[[|] | e] w0] eqn:Hlock.
  - right. exists target, w0. split; [done |]. split; [done |].
    split; [by apply (Htrace true) |].
    unfold run_hunt, bind, gets. rewrite Hfound, Hlock. simpl.
    unfold try_finally. by destruct (hunt E target_id target (t_domain target) w0).
  - left. exists target, w0. split; [done |]. split; [done |].
    split; [by apply (Htrace false) |].
    unfold run_hunt, bind, gets. by rewrite Hfound, Hlock.
  - exfalso. unfold set_target_lock_m in Hlock.
    by destruct (TaskQueue.set_target_lock _ _ _ _).
Qed.

(** C3. In every run of [run_hunt] the gap-triggered discovery is called
    at most once.  It is called exactly when the run gets through recon,
    discovery and the primary testing (the lock taken, the hunt created,
    no error from recon, no exception) and the hunt then has no finding.
    When it is called and its second wave runs through, the cards pending
    after it are tested one by one, in their order, and only then are the
    findings read again: [sync] returns the findings of the world the
    last test left. *)
Theorem gap_discovery_once (target_id : Z) (w : world) :
  let w' := (run_hunt E target_id w).2 in
  (gap_calls (trace w') = gap_calls (trace w) ∨
   gap_calls (trace w') = S (gap_calls (trace w))) ∧
  (gap_calls (trace w') = S (gap_calls (trace w)) ↔
   ∃ target w0 hunt_id w1 rr w2 w3 cards w4,
     TargetDB_get_by_id target_id (db w) = Some target ∧
     set_target_lock_m E (t_domain target) 7200 w = (Ok true, w0) ∧
     HuntDB_create_m target_id "full" w0 = (Ok hunt_id, w1) ∧
     recon E target_id hunt_id (t_domain target) w1 = (Ok rr, w2) ∧
     py_eq_str (rr_status rr) "error" = false ∧
     discovery E target_id hunt_id (t_domain target) w2 = (Ok tt, w3) ∧
     testing E target_id hunt_id (t_domain target) w3 = (Ok cards, w4) ∧
     FindingDB_get_by_hunt hunt_id (db w4) = []) ∧
  (∀ hunt_id domain cards v vg v',
     let failed_tests := map c_hypothesis cards in
     FindingDB_get_by_hunt hunt_id (db v) = [] →
     call (EvGapDiscovery target_id hunt_id domain failed_tests)
       (gap_triggered_discovery E target_id hunt_id domain failed_tests)
       (with_db (HuntDB_update hunt_id [Set_h_phase "sync"] (db v)) v)
     = (Ok tt, vg) →
     test_cards E hunt_id target_id domain
       (HypothesisDB_get_pending hunt_id (db vg)) vg = (Ok tt, v') →
     sync E target_id hunt_id domain cards v
     = (Ok (FindingDB_get_by_hunt hunt_id (db v')), v') ∧
     trace v' = trace v ++
       EvGapDiscovery target_id hunt_id domain failed_tests ::
       map (λ c, EvTestHypothesis hunt_id target_id (c_id c) domain)
         (HypothesisDB_get_pending hunt_id (db vg))).
Proof.
  intros w'. split; [| split].
  - subst w'.
    destruct (run_hunt_cases target_id w)
      as [[_ ->] | [(target & w0 & _ & _ & Ht & ->) | (target & w0 & _ & _ & Ht & ->)]].
    + by left.
    + left. simpl. by rewrite Ht.
    + simpl. rewrite <- Ht.
      apply (hunt_gap_calls E target_id target (t_domain target) w0).
  - subst w'.
    destruct (run_hunt_cases target_id w)
      as [[Hnone ->] | [(target & w0 & Hsome & Hlock & Ht & ->)
                        | (target & w0 & Hsome & Hlock & Ht & ->)]].
    + simpl. split; [lia |].
      intros (? & ? & ? & ? & ? & ? & ? & ? & ? & H & _). congruence.
    + simpl. rewrite Ht. split; [lia |].
      intros (? & ? & ? & ? & ? & ? & ? & ? & ? & H1 & H2 & _). same_run.
    + simpl. rewrite <- Ht.
      pose proof (hunt_gap_calls E target_id target (t_domain target) w0) as [_ H].
      simpl in H. rewrite H. split.
      * intros (hunt_id & w1 & rr & w2 & w3 & cards & w4 & H1 & H2 & H3 & H4 & H5 & H6).
        by exists target, w0, hunt_id, w1, rr, w2, w3, cards, w4.
      * intros (t' & w0' & hunt_id & w1 & rr & w2 & w3 & cards & w4 &
                H0 & H1 & H2 & H3 & H4 & H5 & H6 & H7).
        same_run. by exists hunt_id, w1, rr, w2, w3, cards, w4.
  - intros hunt_id domain cards v vg v' failed_tests Hfind Hgap Htest.
    assert (Htrace : trace vg = trace v ++
              [EvGapDiscovery target_id hunt_id domain failed_tests]).
    { unfold call in Hgap.
      destruct (gap_triggered_discovery E _ _ _ _ _) as [r d].
      by simplify_eq. }
    split.
    + unfold sync, bind at 1 2, HuntDB_update_m, modify, gets. simpl.
      change (FindingDB_get_by_hunt hunt_id
                (HuntDB_update hunt_id [Set_h_phase "sync"] (db v)))
        with (FindingDB_get_by_hunt hunt_id (db v)).
      rewrite Hfind. unfold bind at 1. fold failed_tests. rewrite Hgap.
      unfold bind at 1. simpl. unfold bind. by rewrite Htest.
    + rewrite (test_cards_trace E _ _ _ _ _ _ Htest), Htrace.
      by rewrite <- app_assoc.
Qed.

End GapTheorem.

Section HuntRuns.
Import Models Json Py World Brain Scenario.

Lemma gap_discovery_once_witness :
  gap_calls (trace (run_hunt env_no_findings 1 (fresh_world 0)).2) = 1%nat ∧
  trace (run_hunt env_no_findings 1 (fresh_world 0)).2
  = [EvRecon 1 1 "a.com"; EvGenerateHypotheses 1 1 "a.com";
     EvScanDelay 1 1 "a.com"; EvScanGet 900;
     EvGapDiscovery 1 1 "a.com" []; EvTestHypothesis 1 1 1 "a.com";
     EvHuntSummary 1 1 "a.com"].
Proof.
  split; [| vm_compute; reflexivity].
  destruct (gap_discovery_once env_no_findings 1 (fresh_world 0)) as (_ & Hiff & _).
  apply Hiff. do 9 eexists.
  split; [vm_compute; reflexivity |]. split; [vm_compute; reflexivity |].
  split; [vm_compute; reflexivity |]. split; [vm_compute; reflexivity |].
  split; [vm_compute; reflexivity |]. split; [vm_compute; reflexivity |].
  split; vm_compute; reflexivity.
Defined.

End HuntRuns.

Section HuntOutcomes.
Import Models Json Py World Brain.
Context (E : env).

Lemma bind_ok_inv {A B} (m : M A) (k : A → M B) w b w' :
  bind m k w = (Ok b, w') → ∃ a w1, m w = (Ok a, w1) ∧ k a w1 = (Ok b, w').
Proof.
  unfold bind. destruct (m w) as [[a | e] w1]; [| done].
  intros H. by exists a, w1.
Qed.

Lemma assign_target_domain t a : t_domain (assign_target t a) = t_domain t.
Proof. by destruct a. Qed.

Lemma assign_all_target_domain kwargs t :
  t_domain (fold_left assign_target kwargs t) = t_domain t.
Proof.
  revert t. induction kwargs as [| a kwargs IH]; intros t; simpl; [done |].
  by rewrite IH, assign_target_domain.
Qed.

(** After [TargetDB.update(domain, last_full_hunt_at=..., total_findings=n)]
    every row of the domain holds [n]. *)
Lemma TargetDB_update_total domain at_ n d t :
  t ∈ targets (TargetDB_update domain
                 [Set_t_last_full_hunt_at at_; Set_t_total_findings n] d) →
  t_domain t = domain →
  t_total_findings t = n ∧ t_last_full_hunt_at t = Some at_.
Proof.
  unfold TargetDB_update. simpl.
  intros (t0 & -> & Hin)%list_elem_of_fmap.
  destruct (String.eqb_spec (t_domain t0) domain) as [-> | Hne]; simpl; [done |].
  intros H. contradiction.
Qed.

(** The path of a scan result that does not arrive: the exception of the
    wait leaves [hunt] as it is. *)
Lemma hunt_testing_raises target_id target domain w0 hunt_id w1 rr w2 w3 e w4 :
  HuntDB_create_m target_id "full" w0 = (Ok hunt_id, w1) →
  recon E target_id hunt_id domain w1 = (Ok rr, w2) →
  py_eq_str (rr_status rr) "error" = false →
  discovery E target_id hunt_id domain w2 = (Ok tt, w3) →
  testing E target_id hunt_id domain w3 = (Raise e, w4) →
  hunt E target_id target domain w0 = (Raise e, w4).
Proof.
  intros Hc Hr Herr Hd Ht. unfold hunt, bind. by rewrite Hc, Hr, Herr, Hd, Ht.
Qed.

Lemma testing_wait_raises target_id hunt_id domain w3 w e w5 :
  let started :=
    emit (EvScanDelay target_id hunt_id domain)
      (with_db (HuntDB_update hunt_id [Set_h_phase "testing"] (db w3)) w3) in
  test_cards E hunt_id target_id domain
    (HypothesisDB_get_pending hunt_id (db started)) started = (Ok tt, w) →
  run_scan_get E target_id hunt_id domain w = (Raise e, w5) →
  testing E target_id hunt_id domain w3
  = (Raise e, emit (EvScanGet 900) (task_result w w5)).
Proof.
  intros started Htests Hscan. subst started.
  unfold testing, bind, HuntDB_update_m, modify, gets.
  cbn beta iota. rewrite Htests. unfold call. by rewrite Hscan.
Qed.

End HuntOutcomes.

Section HuntClaims.
Import Models Json Py World Brain.
Context (E : env).

(** C4, as the code has it.  When the wait for the scan result raises
    the timeout, [run_hunt] ends with that exception and releases the
    lock, and it writes nothing more: the tables are those the wait left,
    so the Hunt record is not set to failed and holds no error text. *)
Theorem scan_timeout_leaves_hunt_record
    (target_id : Z) (w : world) (target : target) (w0 : world) (hunt_id : Z)
    (w1 : world) (rr : recon_result) (w2 w3 w4 w5 : world) :
  TargetDB_get_by_id target_id (db w) = Some target →
  set_target_lock_m E (t_domain target) 7200 w = (Ok true, w0) →
  HuntDB_create_m target_id "full" w0 = (Ok hunt_id, w1) →
  recon E target_id hunt_id (t_domain target) w1 = (Ok rr, w2) →
  py_eq_str (rr_status rr) "error" = false →
  discovery E target_id hunt_id (t_domain target) w2 = (Ok tt, w3) →
  test_cards E hunt_id target_id (t_domain target)
    (HypothesisDB_get_pending hunt_id
       (HuntDB_update hunt_id [Set_h_phase "testing"] (db w3)))
    (emit (EvScanDelay target_id hunt_id (t_domain target))
       (with_db (HuntDB_update hunt_id [Set_h_phase "testing"] (db w3)) w3))
  = (Ok tt, w4) →
  run_scan_get E target_id hunt_id (t_domain target) w4 = (Raise TimeoutError, w5) →
  (run_hunt E target_id w).1 = Raise TimeoutError ∧
  db (run_hunt E target_id w).2 = db w5 ∧
  leases (run_hunt E target_id w).2 !! TaskQueue.lock_key (t_domain target) = None.
Proof.
  intros Hfound Hlock Hc Hr Herr Hd Htests Hscan.
  pose proof (testing_wait_raises E target_id hunt_id (t_domain target) w3 w4
                TimeoutError w5 Htests Hscan) as Ht.
  pose proof (hunt_testing_raises E target_id target (t_domain target) _ _ _ _ _ _ _ _
                Hc Hr Herr Hd Ht) as Hhunt.
  destruct (run_hunt_cases E target_id w)
    as [[Hnone _] | [(t' & w0' & Hsome & Hl & _) | (t' & w0' & Hsome & Hl & _ & ->)]].
  - congruence.
  - same_run.
  - same_run. rewrite Hhunt. simpl. repeat split.
    unfold TaskQueue.release_target_lock. apply lookup_delete_eq.
Qed.

(** C5, as the code has it.  When [run_hunt] completes, every Target row
    of the domain holds the moment of completion as its last full hunt
    and, as its [total_findings], the number of findings of this hunt
    that read verified (the [reported] of the result): the former count is
    overwritten, not added to. *)
Theorem complete_overwrites_total_findings
    (target_id : Z) (w : world) (hunt_id : Z) (domain : string)
    (total : nat) (verified_count : Z) (reported : nat) (w' : world) :
  run_hunt E target_id w
  = (Ok (HComplete hunt_id domain total verified_count reported), w') →
  ∀ t, t ∈ targets (db w') → t_domain t = domain →
       t_total_findings t = Z.of_nat reported ∧
       ∃ at_, t_last_full_hunt_at t = Some at_.
Proof.
  intros Hrun t Hin Hdom.
  destruct (run_hunt_cases E target_id w)
    as [[_ Heq] | [(target & w0 & _ & _ & _ & Heq) | (target & w0 & _ & _ & _ & Heq)]];
    rewrite Heq in Hrun; [done | done |].
  clear Heq. destruct (hunt E target_id target (t_domain target) w0) as [r v] eqn:Hhunt.
  simpl in Hrun. injection Hrun as -> <-.
  unfold hunt in Hhunt.
  apply bind_ok_inv in Hhunt as (hid & w1 & _ & Hhunt).
  apply bind_ok_inv in Hhunt as (rr & w2 & _ & Hhunt).
  destruct (py_eq_str (rr_status rr) "error").
  { apply bind_ok_inv in Hhunt as (? & ? & _ & Hhunt). discriminate. }
  apply bind_ok_inv in Hhunt as ([] & w3 & _ & Hhunt).
  apply bind_ok_inv in Hhunt as (cards & w4 & _ & Hhunt).
  apply bind_ok_inv in Hhunt as (all_findings & w5 & _ & Hhunt).
  apply bind_ok_inv in Hhunt as (vc & w6 & _ & Hhunt).
  apply bind_ok_inv in Hhunt as (verified & w7 & _ & Hhunt).
  apply bind_ok_inv in Hhunt as ([] & w8 & Hcomplete & Hret).
  revert Hdom. unfold ret in Hret. inversion Hret; subst; clear Hret. intros Hdom.
  unfold complete, bind, gets, HuntDB_update_m, TargetDB_update_m,
    increment_stat_m, modify in Hcomplete. simpl in Hcomplete.
  injection Hcomplete as <-. simpl in Hin.
  destruct (TargetDB_update_total _ _ _ _ _ Hin Hdom) as [Htotal Hat].
  split; [exact Htotal | by eexists].
Qed.

End HuntClaims.

Section HuntWitnesses.
Import Models Json Py World Brain Scenario.

Lemma scan_timeout_leaves_hunt_record_witness :
  (run_hunt env_scan_timeout 1 (fresh_world 0)).1 = Raise TimeoutError ∧
  hunts (db (run_hunt env_scan_timeout 1 (fresh_world 0)).2)
  = [mk_hunt 1 1 "full" "running" "testing" None 0 PyNone] ∧
  HuntDB_get_active (db (run_hunt env_scan_timeout 1 (fresh_world 0)).2)
  = [mk_hunt 1 1 "full" "running" "testing" None 0 PyNone] ∧
  leases (run_hunt env_scan_timeout 1 (fresh_world 0)).2
    !! TaskQueue.lock_key "a.com" = None.
Proof.
  edestruct (scan_timeout_leaves_hunt_record env_scan_timeout 1 (fresh_world 0))
    as (Hr & Hdb & Hlock).
  - vm_compute; reflexivity.
  - vm_compute; reflexivity.
  - vm_compute; reflexivity.
  - vm_compute; reflexivity.
  - vm_compute; reflexivity.
  - vm_compute; reflexivity.
  - vm_compute; reflexivity.
  - vm_compute; reflexivity.
  - split; [exact Hr |]. rewrite Hdb.
    split; [vm_compute; reflexivity |]. split; [vm_compute; reflexivity | exact Hlock].
Defined.

Lemma complete_overwrites_total_findings_witness :
  t_total_findings <$> targets (db (fresh_world 3)) = [3] ∧
  (run_hunt env_confirmed_plain 1 (fresh_world 3)).1
  = Ok (HComplete 1 "a.com" 1 1 1) ∧
  (∀ t, t ∈ targets (db (run_hunt env_confirmed_plain 1 (fresh_world 3)).2) →
        t_total_findings t = 1).
Proof.
  assert (Hrun : run_hunt env_confirmed_plain 1 (fresh_world 3)
                 = (Ok (HComplete 1 "a.com" 1 1 1),
                    (run_hunt env_confirmed_plain 1 (fresh_world 3)).2))
    by (vm_compute; reflexivity).
  assert (Hts : t_domain <$>
                  targets (db (run_hunt env_confirmed_plain 1 (fresh_world 3)).2)
                = ["a.com"])
    by (vm_compute; reflexivity).
  split; [reflexivity |]. split; [by rewrite Hrun |].
  intros t Hin.
  assert (Hdom : t_domain t = "a.com").
  { apply (list_elem_of_fmap_2 t_domain) in Hin. rewrite Hts in Hin.
    by apply list_elem_of_singleton in Hin. }
  by destruct (complete_overwrites_total_findings env_confirmed_plain 1
                 (fresh_world 3) 1 "a.com" 1 1 1 _ Hrun t Hin Hdom) as [-> _].
Defined.

End HuntWitnesses.

(** * Further properties *)

(** ** Strings *)

Section MoreStringFacts.

Lemma str_app_String c s r : String c s +:+ r = String c (s +:+ r).
Proof. reflexivity. Qed.

Lemma str_app_empty r : "" +:+ r = r.
Proof. reflexivity. Qed.

Lemma str_app_empty_r (s : string) : s +:+ "" = s.
Proof. induction s as [|x s IH]; [done|]. by rewrite str_app_String, IH. Qed.

Lemma str_app_assoc (a b c : string) : (a +:+ b) +:+ c = a +:+ (b +:+ c).
Proof. induction a as [|x a IH]; [done|]. rewrite !str_app_String. by rewrite IH. Qed.

Lemma str_length_app (a b : string) :
  String.length (a +:+ b) = (String.length a + String.length b)%nat.
Proof. induction a as [|x a IH]; [done|]. rewrite str_app_String. cbn. by rewrite IH. Qed.

Lemma drop_app (a b : string) : PyText.drop (String.length a) (a +:+ b) = b.
Proof. induction a as [|x a IH]; [by destruct b|]. exact IH. Qed.

Lemma drop_split n (s : string) :
  (n ≤ String.length s)%nat →
  ∃ a, s = a +:+ PyText.drop n s ∧ String.length a = n.
Proof.
  revert s. induction n as [|n IH]; intros s Hn.
  - exists "". by destruct s.
  - destruct s as [|c s]; [cbn in Hn; lia|].
    destruct (IH s) as (a & Ha & Hl); [cbn in Hn; lia|].
    exists (String c a). cbn [PyText.drop]. rewrite str_app_String, <- Ha.
    split; [done|]. cbn. by rewrite Hl.
Qed.

Lemma endswith_iff suffix s :
  PyText.endswith suffix s = true ↔ ∃ pre, s = pre +:+ suffix.
Proof.
  unfold PyText.endswith. split.
  - intros [Hlen Heq]%andb_true_iff. apply Nat.leb_le in Hlen.
    apply String.eqb_eq in Heq.
    destruct (drop_split (String.length s - String.length suffix) s) as (a & Ha & _);
      [lia|].
    exists a. by rewrite <- Heq.
  - intros [pre ->]. rewrite str_length_app. apply andb_true_iff. split.
    + apply Nat.leb_le. lia.
    + replace (String.length pre + String.length suffix - String.length suffix)%nat
        with (String.length pre) by lia.
      rewrite drop_app. apply String.eqb_refl.
Qed.

Lemma upto_app (a b : string) : PyStr.upto (String.length a) (a +:+ b) = a.
Proof.
  unfold PyStr.upto. induction a as [|x a IH]; [by destruct b|].
  rewrite str_app_String. cbn. by rewrite IH.
Qed.

End MoreStringFacts.

Section StringFacts.

Lemma startswith_app p s : PyStr.startswith p (p +:+ s) = true.
Proof. induction p as [|a p IH]; simpl; [done|]. by rewrite Ascii.eqb_refl. Qed.

Lemma startswith_inv p s :
  PyStr.startswith p s = true → ∃ r, s = p +:+ r.
Proof.
  revert s. induction p as [|a p IH]; intros s H; simpl in *.
  - by exists s.
  - destruct s as [|b s]; [done|].
    destruct (Ascii.eqb a b) eqn:Hab; [|done].
    apply Ascii.eqb_eq in Hab as ->.
    destruct (IH _ H) as [r ->]. by exists r.
Qed.

Lemma remove_from_skip old p s :
  PyText.remove_from old (String.length p) (p +:+ s) = PyText.remove_from old 0 s.
Proof. induction p as [|a p IH]; simpl; [done|]. exact IH. Qed.

Lemma remove_absent old s :
  PyStr.contains old s = false → PyText.remove old s = s.
Proof.
  unfold PyText.remove. induction s as [|c s IH]; intros H; [done|].
  simpl in H. apply orb_false_iff in H as [H1 H2].
  cbn [PyText.remove_from]. rewrite H1. by rewrite IH.
Qed.

Lemma remove_prefix old s :
  old ≠ "" → PyStr.contains old s = false →
  PyText.remove old (old +:+ s) = s.
Proof.
  intros Hne Hs. destruct old as [|a old]; [done|].
  unfold PyText.remove.
  change (String a old +:+ s) with (String a (old +:+ s)).
  cbn [PyText.remove_from].
  change (String a (old +:+ s)) with (String a old +:+ s).
  rewrite startswith_app. cbn [String.length].
  replace (S (String.length old) - 1)%nat with (String.length old) by lia.
  rewrite remove_from_skip. by apply remove_absent.
Qed.

End StringFacts.

Section StatsFacts.
Import TaskQueue TaskQueueStats.

Lemma stats_key_eq key : PREFIX +:+ "stats:" +:+ key = stats_prefix +:+ key.
Proof. reflexivity. Qed.

Lemma stats_prefix_inj a b : stats_prefix +:+ a = stats_prefix +:+ b → a = b.
Proof. unfold stats_prefix, PREFIX. cbv [String.append]. congruence. Qed.

Lemma get_stats_fold listed (stats acc : gmap string Z) name :
  (∀ k, k ∈ listed → ∃ n, k = stats_prefix +:+ n ∧ clean_name n) →
  fold_left
    (λ acc k, <[PyText.remove stats_prefix k := default 0 (stats !! k)]> acc)
    listed acc !! name
  = if bool_decide (stats_prefix +:+ name ∈ listed)
    then Some (default 0 (stats !! (stats_prefix +:+ name)))
    else acc !! name.
Proof.
  revert acc. induction listed as [|k listed IH]; intros acc Hk.
  - cbn [fold_left]. by rewrite bool_decide_eq_false_2 by set_solver.
  - cbn [fold_left]. rewrite IH by (intros; apply Hk; set_solver).
    destruct (Hk k ltac:(set_solver)) as (n & -> & Hn).
    rewrite remove_prefix by done.
    destruct (decide (stats_prefix +:+ name ∈ listed)) as [Hin|Hin].
    + by rewrite !bool_decide_eq_true_2 by set_solver.
    + rewrite (bool_decide_eq_false_2 _ Hin).
      destruct (decide (n = name)) as [->|Hne].
      * rewrite bool_decide_eq_true_2 by set_solver. by rewrite lookup_insert_eq.
      * rewrite bool_decide_eq_false_2.
        -- by rewrite lookup_insert_ne.
        -- intros [Heq|?]%elem_of_cons; [|done].
           by apply stats_prefix_inj in Heq.
Qed.

Lemma clean_store_increment key amount stats :
  clean_name key → clean_store stats → clean_store (increment_stat key amount stats).
Proof.
  intros Hkey Hst k. unfold increment_stat. rewrite stats_key_eq.
  destruct (decide (k = stats_prefix +:+ key)) as [->|Hne].
  - intros _. by exists key.
  - rewrite lookup_insert_ne by done. apply Hst.
Qed.

Lemma get_stats_lookup listed (stats : gmap string Z) name :
  clean_store stats → keys_answer stats_prefix stats listed →
  get_stats listed stats !! name = stats !! (stats_prefix +:+ name).
Proof.
  intros Hst [_ Hl]. unfold get_stats. rewrite get_stats_fold.
  - case_bool_decide as Hin.
    + apply Hl in Hin as [[v Hv] _]. by rewrite Hv.
    + rewrite lookup_empty. destruct (stats !! (stats_prefix +:+ name)) eqn:Hv; [|done].
      destruct Hin. apply Hl. split; [by eexists|]. apply startswith_app.
  - intros k Hk. apply Hl in Hk as [Hk _]. by apply Hst.
Qed.

(** X1. The counters are read back under the names they were counted
    under: after [increment_stat key amount], [get_stats] shows the old
    count of [key] (zero when there was none) plus [amount], and every
    other counter as it was. *)
Theorem get_stats_after_increment
    (stats : gmap string Z) (key : string) (amount : Z) (listed : list string) :
  clean_name key →
  clean_store stats →
  keys_answer stats_prefix (increment_stat key amount stats) listed →
  get_stats listed (increment_stat key amount stats) !! key
  = Some (default 0 (stats !! (stats_prefix +:+ key)) + amount) ∧
  ∀ name, name ≠ key →
    get_stats listed (increment_stat key amount stats) !! name
    = stats !! (stats_prefix +:+ name).
Proof.
  intros Hkey Hst Hl.
  pose proof (clean_store_increment key amount stats Hkey Hst) as Hst'.
  split.
  - rewrite (get_stats_lookup _ _ _ Hst' Hl). unfold increment_stat.
    rewrite !stats_key_eq. by rewrite lookup_insert_eq.
  - intros name Hne. rewrite (get_stats_lookup _ _ _ Hst' Hl). unfold increment_stat.
    rewrite !stats_key_eq. rewrite lookup_insert_ne; [done|].
    intros Heq. by apply stats_prefix_inj in Heq.
Qed.

End StatsFacts.

(** ** [json.loads] after [json.dumps] *)

Section JsonRoundTrip.
Import Json JsonLoads JsonDumps JsonTokens.

Lemma json_nested_ind (P : json → Prop) :
  P JNull → (∀ b, P (JBool b)) → (∀ z, P (JInt z)) → (∀ l, P (JFloat l)) →
  (∀ s, P (JStr s)) →
  (∀ items, Forall P items → P (JArr items)) →
  (∀ ms, Forall (λ kv, P kv.2) ms → P (JObj ms)) →
  ∀ v, P v.
Proof.
  intros HN HB HI HF HS HA HO. fix IH 1.
  intros [ | b | z | l | s | items | ms];
    [exact HN | apply HB | apply HI | apply HF | apply HS | |].
  - apply HA. induction items as [|x xs IHxs]; constructor; [apply IH | exact IHxs].
  - apply HO. induction ms as [|[k x] xs IHxs]; constructor; [apply IH | exact IHxs].
Qed.

(** *** Scanning *)

Lemma lex_from_cons st c s :
  lex_from st (String c s)
  = match lex_step st c with
    | Some (toks, st') => (toks ++.) <$> lex_from st' s
    | None => None
    end.
Proof.
  cbn [lex_from]. destruct (lex_step st c) as [[toks st']|]; [|done].
  by destruct (lex_from st' s).
Qed.

Lemma lex_from_silent st c st' s :
  lex_step st c = Some ([], st') → lex_from st (String c s) = lex_from st' s.
Proof. intros H. rewrite lex_from_cons, H. by destruct (lex_from st' s). Qed.

Lemma lex_from_emit st c t s :
  lex_step st c = Some ([t], LDefault) →
  lex_from st (String c s) = (t ::.) <$> lex_from LDefault s.
Proof. intros H. by rewrite lex_from_cons, H. Qed.

Lemma fmap_app_app {A} (a b : list A) (o : option (list A)) :
  (a ++.) <$> ((b ++.) <$> o) = ((a ++ b) ++.) <$> o.
Proof. destruct o; simpl; [|done]. by rewrite app_assoc. Qed.

Lemma fmap_cons_app {A} (a : A) (b : list A) (o : option (list A)) :
  (a ::.) <$> ((b ++.) <$> o) = ((a :: b) ++.) <$> o.
Proof. by destruct o. Qed.

Lemma string_of_rev_cons c acc :
  string_of_rev (c :: acc) = string_of_rev acc +:+ String c "".
Proof.
  unfold string_of_rev.
  assert (H : ∀ l s, fold_left (λ s c, String c s) l s
                     = fold_left (λ s c, String c s) l "" +:+ s).
  { induction l as [|x l IH]; intros s; [done|].
    cbn [fold_left]. rewrite (IH (String x s)), (IH (String x "")).
    by rewrite str_app_assoc. }
  cbn [fold_left]. apply H.
Qed.

Lemma atom_char_default c :
  is_atom_char c = true → lex_default c = Some ([], LAtom [c]).
Proof.
  destruct c as [[] [] [] [] [] [] [] []]; vm_compute; congruence.
Qed.

Lemma lex_atom_rest text acc rest :
  all_atom_chars text = true → delimited rest →
  lex_from (LAtom acc) (text +:+ rest)
  = (TAtom (string_of_rev acc +:+ text) ::.) <$> lex_from LDefault rest.
Proof.
  revert acc. induction text as [|c text IH]; intros acc Hall Hrest.
  - rewrite str_app_empty. replace (string_of_rev acc +:+ "") with (string_of_rev acc)
      by (induction (string_of_rev acc) as [|x s IHs]; [done|];
          by rewrite str_app_String, <- IHs).
    destruct rest as [|c r]; [done|]. simpl in Hrest.
    rewrite !lex_from_cons. cbn [lex_step]. rewrite Hrest.
    destruct (lex_default c) as [[toks st']|]; [|done].
    by destruct (lex_from st' r).
  - simpl in Hall. apply andb_true_iff in Hall as [Hc Hall].
    rewrite str_app_String, lex_from_silent with (st' := LAtom (c :: acc))
      by (cbn [lex_step]; by rewrite Hc).
    rewrite IH by done. rewrite string_of_rev_cons, str_app_assoc. done.
Qed.

Lemma lex_atom text rest :
  text ≠ "" → all_atom_chars text = true → delimited rest →
  lex_from LDefault (text +:+ rest) = (TAtom text ::.) <$> lex_from LDefault rest.
Proof.
  intros Hne Hall Hrest. destruct text as [|c text]; [done|].
  simpl in Hall. apply andb_true_iff in Hall as [Hc Hall].
  rewrite str_app_String, lex_from_silent with (st' := LAtom [c])
    by (cbn [lex_step]; by apply atom_char_default).
  by rewrite lex_atom_rest.
Qed.

Lemma lex_escape_char c acc tail :
  (nat_of_ascii c <? 128)%nat = true →
  lex_from (LStr acc) (escape_char c +:+ tail) = lex_from (LStr (c :: acc)) tail.
Proof.
  intros Hc.
  destruct c as [b0 b1 b2 b3 b4 b5 b6 []]; [by destruct b0, b1, b2, b3, b4, b5, b6|].
  clear Hc.
  destruct b0, b1, b2, b3, b4, b5, b6;
    match goal with
    | |- context [escape_char ?c] =>
        let e := eval vm_compute in (escape_char c) in
        change (escape_char c) with e
    end;
    rewrite ?str_app_String, ?str_app_empty;
    repeat (erewrite lex_from_silent by reflexivity);
    reflexivity.
Qed.

Lemma lex_escape s acc rest :
  is_ascii s = true →
  lex_from (LStr acc) (escape s +:+ dquote +:+ rest)
  = (TString (string_of_rev acc +:+ s) ::.) <$> lex_from LDefault rest.
Proof.
  revert acc. induction s as [|c s IH]; intros acc Hs.
  - cbn [escape]. rewrite str_app_empty, str_app_empty_r.
    unfold dquote. rewrite str_app_String, str_app_empty.
    by rewrite lex_from_emit with (t := TString (string_of_rev acc)).
  - simpl in Hs. apply andb_true_iff in Hs as [Hc Hs].
    cbn [escape]. rewrite str_app_assoc, lex_escape_char by done.
    rewrite IH by done. by rewrite string_of_rev_cons, str_app_assoc.
Qed.

Lemma lex_quote s rest :
  is_ascii s = true →
  lex_from LDefault (quote s +:+ rest) = (TString s ::.) <$> lex_from LDefault rest.
Proof.
  intros Hs. unfold quote. rewrite !str_app_assoc.
  unfold dquote at 1. rewrite str_app_String, str_app_empty.
  rewrite lex_from_silent with (st' := LStr []) by reflexivity.
  by rewrite lex_escape.
Qed.

Lemma lex_comma rest :
  lex_from LDefault (", " +:+ rest) = (TComma ::.) <$> lex_from LDefault rest.
Proof.
  rewrite !str_app_String, str_app_empty.
  rewrite lex_from_emit with (t := TComma) by reflexivity.
  by rewrite lex_from_silent with (st' := LDefault) by reflexivity.
Qed.

Lemma lex_colon rest :
  lex_from LDefault (": " +:+ rest) = (TColon ::.) <$> lex_from LDefault rest.
Proof.
  rewrite !str_app_String, str_app_empty.
  rewrite lex_from_emit with (t := TColon) by reflexivity.
  by rewrite lex_from_silent with (st' := LDefault) by reflexivity.
Qed.

(** *** Integers *)

Lemma digit_char_facts x :
  (x < 10)%N →
  is_digit (pretty_N_char x) = true ∧
  Z.of_nat (nat_of_ascii (pretty_N_char x) - 48) = Z.of_N x ∧
  (pretty_N_char x = "0"%char → x = 0%N).
Proof.
  intros H.
  assert (x = 0 ∨ x = 1 ∨ x = 2 ∨ x = 3 ∨ x = 4 ∨ x = 5 ∨ x = 6 ∨ x = 7 ∨ x = 8
          ∨ x = 9)%N as Hx by lia.
  repeat destruct Hx as [->|Hx]; try subst x; by vm_compute.
Qed.

Lemma digits_value_app d e acc :
  digits_value (d +:+ e) acc = digits_value e (digits_value d acc).
Proof.
  revert acc. induction d as [|c d IH]; intros acc; [done|].
  rewrite str_app_String. cbn [digits_value]. by rewrite IH.
Qed.

Lemma all_digits_app d e :
  all_digits (d +:+ e) = all_digits d && all_digits e.
Proof.
  induction d as [|c d IH]; [done|].
  rewrite str_app_String. cbn [all_digits]. by rewrite IH, andb_assoc.
Qed.

(** The text of a positive number: digits, the first of them not zero *)
Lemma pretty_N_go_digits x s :
  (0 < x)%N →
  ∃ c d, pretty_N_go x s = String c d +:+ s ∧
         all_digits (String c d) = true ∧ c ≠ "0"%char ∧
         digits_value (String c d) 0 = Z.of_N x.
Proof.
  revert s. induction (N.lt_wf_0 x) as [x _ IH]; intros s Hx.
  rewrite pretty_N_go_step by done.
  destruct (digit_char_facts (x `mod` 10)) as (Hd & Hv & Hz);
    [by apply N.mod_lt|].
  destruct (decide (x `div` 10 = 0)%N) as [Hq|Hq].
  - rewrite Hq, pretty_N_go_0.
    exists (pretty_N_char (x `mod` 10)), "". split; [done|].
    assert (x `mod` 10 = x)%N as Hm by (apply N.mod_small; apply N.div_small_iff in Hq; lia).
    split; [by cbn [all_digits]; rewrite Hd|]. split.
    + intros H0. apply Hz in H0. lia.
    + cbn [digits_value]. rewrite Hv, Hm. lia.
  - destruct (IH (x `div` 10)%N) with (s := String (pretty_N_char (x `mod` 10)) s)
      as (c & d & Heq & Hall & Hc & Hval).
    { apply N.div_lt; lia. }
    { by apply N.neq_0_lt_0. }
    exists c, (d +:+ String (pretty_N_char (x `mod` 10)) ""). split.
    { rewrite Heq. rewrite !str_app_String. f_equal. by rewrite str_app_assoc. }
    split.
    { change (String c (d +:+ String (pretty_N_char (x `mod` 10)) ""))
        with (String c d +:+ String (pretty_N_char (x `mod` 10)) "").
      rewrite all_digits_app, Hall. cbn [all_digits]. by rewrite Hd. }
    split; [done|].
    change (String c (d +:+ String (pretty_N_char (x `mod` 10)) ""))
      with (String c d +:+ String (pretty_N_char (x `mod` 10)) "").
    rewrite digits_value_app, Hval. cbn [digits_value]. rewrite Hv.
    pose proof (N.div_mod x 10 ltac:(done)). lia.
Qed.

Lemma pretty_N_digits (x : N) :
  ∃ c d, pretty x = String c d ∧ all_digits (String c d) = true ∧
         (c = "0"%char → d = "") ∧ digits_value (String c d) 0 = Z.of_N x.
Proof.
  unfold pretty, pretty_N. case_decide as Hx.
  - subst x. exists "0"%char, "". by vm_compute.
  - destruct (pretty_N_go_digits x "") as (c & d & Heq & Hall & Hc & Hval); [lia|].
    rewrite str_app_empty_r in Heq. exists c, d. by repeat split.
Qed.

Lemma span_digits_all d : all_digits d = true → span_digits d = (d, "").
Proof.
  induction d as [|c d IH]; intros H; [done|].
  cbn [all_digits] in H. apply andb_true_iff in H as [Hc H].
  cbn [span_digits]. by rewrite Hc, IH.
Qed.

Lemma digit_not_letter c :
  is_digit c = true →
  is_atom_char c = true ∧
  Ascii.eqb c "-" = false ∧ Ascii.eqb c "n" = false ∧ Ascii.eqb c "t" = false ∧
  Ascii.eqb c "f" = false ∧ Ascii.eqb c "N" = false ∧ Ascii.eqb c "I" = false.
Proof. destruct c as [[] [] [] [] [] [] [] []]; vm_compute; intros; by repeat split. Qed.

Lemma all_digits_atom d : all_digits d = true → all_atom_chars d = true.
Proof.
  induction d as [|c d IH]; intros H; [done|].
  cbn [all_digits] in H. apply andb_true_iff in H as [Hc H].
  cbn [all_atom_chars]. rewrite IH by done.
  by destruct (digit_not_letter c Hc) as [-> _].
Qed.

Lemma number_of_digits c d :
  all_digits (String c d) = true → (c = "0"%char → d = "") →
  atom_value (String c d) = Some (JInt (digits_value (String c d) 0)) ∧
  atom_value (String "-" (String c d)) = Some (JInt (- digits_value (String c d) 0)).
Proof.
  intros Hall Hz.
  pose proof Hall as Hall'. cbn [all_digits] in Hall'.
  apply andb_true_iff in Hall' as [Hc _].
  destruct (digit_not_letter c Hc) as (_ & Hm & Hn & Ht & Hf & HN & HI).
  assert (Hlead : Ascii.eqb c "0" && PyStr.truthy d = false).
  { destruct (Ascii.eqb c "0") eqn:H0; [|done].
    apply Ascii.eqb_eq in H0. by rewrite (Hz H0). }
  split.
  - unfold atom_value. cbn [String.eqb]. rewrite Hn, Ht, Hf, HN, HI. cbn [orb].
    unfold number_of. rewrite Hm. rewrite (span_digits_all _ Hall).
    by rewrite Hlead.
  - unfold atom_value. cbn [String.eqb Ascii.eqb Bool.eqb andb orb].
    rewrite HI. cbn [orb].
    unfold number_of. cbn [Ascii.eqb Bool.eqb andb]. rewrite (span_digits_all _ Hall).
    by rewrite Hlead.
Qed.

Lemma atom_value_pretty z :
  pretty z ≠ "" ∧ all_atom_chars (pretty z) = true ∧
  atom_value (pretty z) = Some (JInt z).
Proof.
  unfold pretty, pretty_Z. destruct z as [|p|p].
  - by vm_compute.
  - destruct (pretty_N_digits (N.pos p)) as (c & d & Heq & Hall & Hz & Hval).
    change (pretty p) with (pretty (N.pos p)). rewrite Heq.
    split; [done|]. split; [by apply all_digits_atom|].
    destruct (number_of_digits c d Hall Hz) as [-> _]. by rewrite Hval.
  - destruct (pretty_N_digits (N.pos p)) as (c & d & Heq & Hall & Hz & Hval).
    change (pretty p) with (pretty (N.pos p)). rewrite Heq.
    split; [done|]. split.
    { rewrite str_app_String, str_app_empty.
      pose proof (all_digits_atom _ Hall) as Ha.
      cbn [all_atom_chars] in *. by rewrite Ha. }
    rewrite str_app_String, str_app_empty.
    destruct (number_of_digits c d Hall Hz) as [_ ->]. by rewrite Hval.
Qed.

(** *** The text of a value scans to its tokens *)

Lemma plain_items items :
  plain (JArr items) = true → Forall (λ v, plain v = true) items.
Proof.
  cbn [plain]. induction items as [|x xs IH]; intros H; [constructor|].
  cbn [forallb] in H. apply andb_true_iff in H as [Hx H]. constructor; [done|by apply IH].
Qed.

Lemma plain_members ms :
  plain (JObj ms) = true →
  Forall (λ kv, is_ascii kv.1 = true ∧ plain kv.2 = true) ms ∧ NoDup ms.*1.
Proof.
  cbn [plain]. intros [H1 H2]%andb_true_iff. split.
  - clear H2. induction ms as [|[k v] ms IH]; [constructor|].
    cbn [forallb] in H1. apply andb_true_iff in H1 as [Hx H1].
    apply andb_true_iff in Hx. constructor; [done|by apply IH].
  - by apply bool_decide_eq_true in H2.
Qed.

Lemma lex_items items rest :
  Forall scans items → delimited rest →
  lex_from LDefault (String.concat ", " (map dumps items) +:+ rest)
  = (separated (map tokens items) ++.) <$> lex_from LDefault rest.
Proof.
  intros Hall Hrest. induction Hall as [|x xs Hx Hxs IH].
  - cbn [map String.concat separated]. rewrite str_app_empty.
    by destruct (lex_from LDefault rest).
  - destruct xs as [|y ys].
    + cbn [map String.concat separated]. by apply Hx.
    + change (String.concat ", " (map dumps (x :: y :: ys)))
        with (dumps x +:+ ", " +:+ String.concat ", " (map dumps (y :: ys))).
      change (separated (map tokens (x :: y :: ys)))
        with (tokens x ++ TComma :: separated (map tokens (y :: ys))).
      rewrite !str_app_assoc. rewrite Hx by done.
      rewrite lex_comma, IH. rewrite fmap_cons_app, fmap_app_app. done.
Qed.

Lemma lex_members (ms : list (string * json)) rest :
  Forall (λ kv, is_ascii kv.1 = true ∧ scans kv.2) ms → delimited rest →
  lex_from LDefault (String.concat ", " (map member_text ms) +:+ rest)
  = (separated (map member_tokens ms) ++.) <$> lex_from LDefault rest.
Proof.
  intros Hall Hrest.
  assert (Hone : ∀ kv r, is_ascii kv.1 = true ∧ scans kv.2 → delimited r →
            lex_from LDefault (member_text kv +:+ r)
            = (member_tokens kv ++.) <$> lex_from LDefault r).
  { intros [k v] r [Hk Hv] Hr. cbn [fst snd] in Hk, Hv.
    cbn [member_text member_tokens].
    rewrite !str_app_assoc. rewrite lex_quote by done.
    rewrite lex_colon. rewrite (Hv r Hr).
    by destruct (lex_from LDefault r). }
  induction Hall as [|x xs Hx Hxs IH].
  - cbn [map String.concat separated]. rewrite str_app_empty.
    by destruct (lex_from LDefault rest).
  - destruct xs as [|y ys].
    + cbn [map String.concat separated]. by apply Hone.
    + change (String.concat ", " (map member_text (x :: y :: ys)))
        with (member_text x +:+ ", " +:+ String.concat ", " (map member_text (y :: ys))).
      change (separated (map member_tokens (x :: y :: ys)))
        with (member_tokens x ++ TComma :: separated (map member_tokens (y :: ys))).
      rewrite !str_app_assoc. rewrite Hone by done.
      rewrite lex_comma, IH. rewrite fmap_cons_app, fmap_app_app. done.
Qed.

Lemma dumps_obj ms :
  dumps (JObj ms) = "{" +:+ String.concat ", " (map member_text ms) +:+ "}".
Proof.
  reflexivity.
Qed.

Lemma tokens_obj ms :
  tokens (JObj ms) = TLBrace :: separated (map member_tokens ms) ++ [TRBrace].
Proof.
  reflexivity.
Qed.

Lemma lex_dumps v : plain v = true → scans v.
Proof.
  induction v as [ | b | z | l | s | items IH | ms IH] using json_nested_ind;
    intros Hp rest Hrest.
  - by apply (lex_atom "null").
  - destruct b; [by apply (lex_atom "true") | by apply (lex_atom "false")].
  - destruct (atom_value_pretty z) as (Hne & Hall & _).
    by apply (lex_atom (pretty z)).
  - done.
  - cbn [dumps tokens]. by apply lex_quote.
  - cbn [dumps tokens]. rewrite !str_app_assoc, str_app_String, str_app_empty.
    rewrite lex_from_emit with (t := TLBracket) by reflexivity.
    rewrite lex_items; [| |done].
    + rewrite str_app_String, str_app_empty.
      rewrite lex_from_emit with (t := TRBracket) by reflexivity.
      destruct (lex_from LDefault rest); [|done]. cbn.
      by rewrite <- app_assoc.
    + apply plain_items in Hp. rewrite Forall_forall in IH, Hp.
      apply Forall_forall. intros x Hx. by apply IH, Hp.
  - rewrite dumps_obj, tokens_obj.
    rewrite !str_app_assoc, str_app_String, str_app_empty.
    rewrite lex_from_emit with (t := TLBrace) by reflexivity.
    rewrite lex_members; [| |done].
    + rewrite str_app_String, str_app_empty.
      rewrite lex_from_emit with (t := TRBrace) by reflexivity.
      destruct (lex_from LDefault rest); [|done]. cbn.
      by rewrite <- app_assoc.
    + apply plain_members in Hp as [Hp _]. rewrite Forall_forall in IH, Hp.
      apply Forall_forall. intros x Hx. destruct (Hp x Hx). split; [done|].
      by apply IH.
Qed.

(** *** The tokens of a value parse to it *)

Lemma parse_scalar e stack t v ts :
  starts e → start_value t stack = Some (push_value v stack) →
  t ≠ TRBracket →
  parse_from e stack (t :: ts)
  = parse_from (push_value v stack).1 (push_value v stack).2 ts.
Proof.
  intros [-> | ->] Hs Ht; cbn [parse_from parse_step].
  - rewrite Hs. by destruct (push_value v stack).
  - destruct t; try done; rewrite Hs; by destruct (push_value v stack).
Qed.

Lemma separated_cons {A} (f : A → list token) x xs :
  separated (map f (x :: xs)) = f x ++ concat (map (λ y, TComma :: f y) xs).
Proof.
  revert x. induction xs as [|y ys IH]; intros x.
  - cbn. by rewrite app_nil_r.
  - change (separated (map f (x :: y :: ys)))
      with (f x ++ TComma :: separated (map f (y :: ys))).
    rewrite IH. done.
Qed.

Lemma parse_more_items xs acc stack ts :
  Forall parses xs →
  parse_from PAfter (FArr acc :: stack)
    (concat (map (λ y, TComma :: tokens y) xs) ++ TRBracket :: ts)
  = parse_from (push_value (JArr (rev acc ++ xs)) stack).1
      (push_value (JArr (rev acc ++ xs)) stack).2 ts.
Proof.
  intros Hall. revert acc. induction Hall as [|x xs Hx Hxs IH]; intros acc.
  - cbn [map concat app parse_from parse_step close_array].
    rewrite app_nil_r. by destruct (push_value (JArr (rev acc)) stack).
  - cbn [map concat]. rewrite <- !app_assoc. cbn [app parse_from parse_step].
    rewrite Hx by (by left). cbn [push_value fst snd].
    rewrite IH. cbn [rev]. by rewrite <- app_assoc.
Qed.

Lemma dict_set_fresh {A} k (v : A) (ms : list (string * A)) :
  k ∉ ms.*1 → dict_set k v ms = ms ++ [(k, v)].
Proof.
  induction ms as [|[k' v'] ms IH]; intros Hk; [done|].
  cbn [dict_set]. rewrite fmap_cons, not_elem_of_cons in Hk. destruct Hk as [Hne Hk].
  cbn [fst] in Hne.
  destruct (String.eqb k k') eqn:Heq; [by apply String.eqb_eq in Heq|].
  by rewrite IH.
Qed.

Lemma parse_member k v acc key stack ts :
  parses v → k ∉ acc.*1 →
  parse_from PKey (FObj acc key :: stack) (member_tokens (k, v) ++ ts)
  = parse_from PAfter (FObj (acc ++ [(k, v)]) k :: stack) ts.
Proof.
  intros Hv Hk. cbn [member_tokens app parse_from parse_step].
  rewrite Hv by (by left). cbn [push_value fst snd]. by rewrite dict_set_fresh.
Qed.

Lemma parse_more_members (ms : list (string * json)) acc key stack ts :
  Forall (λ kv, parses kv.2) ms → NoDup (acc.*1 ++ ms.*1) →
  parse_from PAfter (FObj acc key :: stack)
    (concat (map (λ kv, TComma :: member_tokens kv) ms) ++ TRBrace :: ts)
  = parse_from (push_value (JObj (acc ++ ms)) stack).1
      (push_value (JObj (acc ++ ms)) stack).2 ts.
Proof.
  intros Hall. revert acc key. induction Hall as [|[k v] ms Hx Hxs IH]; intros acc key Hnd.
  - cbn [map concat app parse_from parse_step close_object].
    rewrite app_nil_r. by destruct (push_value (JObj acc) stack).
  - cbn [map concat]. rewrite <- !app_assoc.
    change ((TComma :: member_tokens (k, v)) ++ ?r)
      with (TComma :: (member_tokens (k, v) ++ r)).
    cbn [parse_from parse_step].
    rewrite parse_member; [| done |].
    + rewrite IH.
      * by rewrite <- app_assoc.
      * rewrite fmap_app, <- app_assoc. done.
    + rewrite fmap_cons in Hnd. apply NoDup_app in Hnd as (_ & Hd & _).
      intros Hin. apply (Hd k Hin). left.
Qed.

Lemma parse_tokens v : plain v = true → parses v.
Proof.
  induction v as [ | b | z | l | s | items IH | ms IH] using json_nested_ind;
    intros Hp e stack ts He.
  - by apply parse_scalar.
  - destruct b; by apply parse_scalar.
  - apply parse_scalar; [done| |done]. cbn [start_value].
    by destruct (atom_value_pretty z) as (_ & _ & ->).
  - done.
  - by apply parse_scalar.
  - apply plain_items in Hp.
    assert (Hall : Forall parses items).
    { rewrite Forall_forall in IH, Hp. apply Forall_forall. intros x Hx.
      by apply IH, Hp. }
    cbn [tokens]. rewrite <- app_comm_cons.
    assert (Hopen : parse_from e stack
                      (TLBracket :: (separated (map tokens items) ++ [TRBracket]) ++ ts)
                    = parse_from PArrFirst (FArr [] :: stack)
                        ((separated (map tokens items) ++ [TRBracket]) ++ ts)).
    { by destruct He as [-> | ->]. }
    rewrite Hopen. clear Hopen. destruct Hall as [|x xs Hx Hxs].
    + cbn [map separated app parse_from parse_step close_array rev].
      by destruct (push_value (JArr []) stack).
    + rewrite separated_cons, <- !app_assoc.
      rewrite Hx by (by right). cbn [push_value fst snd].
      change ([TRBracket] ++ ts) with (TRBracket :: ts).
      by rewrite parse_more_items.
  - apply plain_members in Hp as [Hp Hnd].
    assert (Hall : Forall (λ kv, parses kv.2) ms).
    { rewrite Forall_forall in IH, Hp. apply Forall_forall. intros x Hx.
      apply IH; [done|]. by destruct (Hp x Hx). }
    rewrite tokens_obj. rewrite <- app_comm_cons.
    assert (Hopen : parse_from e stack
                      (TLBrace :: (separated (map member_tokens ms) ++ [TRBrace]) ++ ts)
                    = parse_from PObjFirst (FObj [] "" :: stack)
                        ((separated (map member_tokens ms) ++ [TRBrace]) ++ ts)).
    { by destruct He as [-> | ->]. }
    rewrite Hopen. clear Hopen. destruct Hall as [|[k v] xs Hx Hxs].
    + cbn [map separated app parse_from parse_step close_object].
      by destruct (push_value (JObj []) stack).
    + rewrite separated_cons, <- !app_assoc.
      assert (Hfirst : ∀ r,
                parse_from PObjFirst (FObj [] "" :: stack) (member_tokens (k, v) ++ r)
                = parse_from PKey (FObj [] "" :: stack) (member_tokens (k, v) ++ r)).
      { intros r. done. }
      rewrite Hfirst, parse_member; [|done|set_solver].
      change ([TRBrace] ++ ts) with (TRBrace :: ts).
      rewrite parse_more_members; [done|done|].
      by rewrite fmap_cons in Hnd.
Qed.

(** [json.loads] reads back what [json.dumps] wrote. *)
Lemma loads_dumps v : plain v = true → loads (dumps v) = Some v.
Proof.
  intros Hp. unfold loads, lex.
  rewrite <- (str_app_empty_r (dumps v)).
  rewrite (lex_dumps v Hp "" I). cbn [lex_from fmap option_fmap option_map].
  rewrite (parse_tokens v Hp PValue [] [] (or_introl eq_refl)). done.
Qed.

Lemma dumps_truthy v : PyStr.truthy (dumps v) = true ∨ ∃ l, v = JFloat l.
Proof.
  destruct v as [ | [] | z | l | s | items | ms]; try (by left); [|by right; eexists].
  left. destruct (atom_value_pretty z) as (Hne & _). cbn [dumps].
  by destruct (pretty z).
Qed.

End JsonRoundTrip.

(** ** The stores of the task queue *)

Section StoreFacts.
Import Json Py TaskQueue TaskQueueData JsonDumps.

Lemma append_inj_r (a b c : string) : a +:+ c = b +:+ c → a = b.
Proof.
  revert b. induction a as [|x a IH]; intros b H.
  - destruct b as [|y b]; [done|].
    apply (f_equal String.length) in H.
    rewrite str_app_empty, str_app_String in H. cbn [String.length] in H.
    rewrite str_length_app in H. lia.
  - destruct b as [|y b].
    + apply (f_equal String.length) in H.
      rewrite str_app_empty, str_app_String in H. cbn [String.length] in H.
      rewrite str_length_app in H. lia.
    + rewrite !str_app_String in H. injection H as -> H. f_equal. by apply IH.
Qed.

Lemma hunt_state_key_inj a b : hunt_state_key a = hunt_state_key b → a = b.
Proof.
  unfold hunt_state_key, PREFIX. intros H.
  cbv [String.append] in H. injection H as H.
  apply (append_inj_r _ _ ":state") in H. by apply (inj pretty).
Qed.

Lemma findings_key_inj a b : findings_key a = findings_key b → a = b.
Proof.
  unfold findings_key, PREFIX. intros H.
  cbv [String.append] in H. injection H as H.
  apply (append_inj_r _ _ ":findings") in H. by apply (inj pretty).
Qed.

Lemma findings_key_not_patterns a : findings_key a ≠ cross_patterns_key.
Proof. unfold findings_key, cross_patterns_key, PREFIX. cbv [String.append]. congruence. Qed.

Lemma loads_or_raise_dumps v :
  plain v = true → VLLMClient.loads_or_raise (dumps v) = Ok v.
Proof. intros H. unfold VLLMClient.loads_or_raise. by rewrite loads_dumps. Qed.

Lemma loads_each_snoc raw vs x v :
  loads_each raw = Ok vs → VLLMClient.loads_or_raise x = Ok v →
  loads_each (raw ++ [x]) = Ok (vs ++ [v]).
Proof.
  revert vs. induction raw as [|r raw IH]; intros vs Hraw Hx.
  - injection Hraw as <-. cbn [app loads_each]. by rewrite Hx.
  - cbn [app loads_each] in *.
    destruct (VLLMClient.loads_or_raise r) as [u|]; [|done].
    destruct (loads_each raw) as [us|]; [|done].
    injection Hraw as <-. by rewrite (IH us eq_refl Hx).
Qed.

(** X2. A hunt state is read back as it was stored, until 86400 seconds
    have passed; then it is gone.  Storing the state of one hunt leaves
    the states of the others as they are. *)
Theorem get_hunt_state_after_set
    (values : gmap string (string * Z)) (now t : Z) (hunt_id : Z) (state : json) :
  plain state = true →
  (t < now + 86400 →
   get_hunt_state t hunt_id (set_hunt_state now hunt_id state values)
   = Ok (Some state)) ∧
  (now + 86400 ≤ t →
   get_hunt_state t hunt_id (set_hunt_state now hunt_id state values) = Ok None) ∧
  (∀ other, other ≠ hunt_id →
   get_hunt_state t other (set_hunt_state now hunt_id state values)
   = get_hunt_state t other values).
Proof.
  intros Hp. unfold get_hunt_state, redis_get, set_hunt_state. repeat split.
  - intros Ht. rewrite lookup_insert_eq.
    destruct (Z.ltb_spec t (now + 86400)); [|lia].
    destruct (dumps_truthy state) as [-> | [l ->]]; [|done].
    by rewrite loads_or_raise_dumps.
  - intros Ht. rewrite lookup_insert_eq.
    by destruct (Z.ltb_spec t (now + 86400)); [lia|].
  - intros other Hne. rewrite lookup_insert_ne; [done|].
    intros H. by apply hunt_state_key_inj in H.
Qed.

(** X3. Findings and patterns are read back in the order they were
    pushed: a push adds the value at the end of what was read before, and
    leaves the other lists as they are. *)
Theorem get_findings_after_publish
    (lists : gmap string (list string)) (hunt_id : Z) (v : json) (before : list json) :
  plain v = true →
  (get_findings hunt_id lists = Ok before →
   get_findings hunt_id (publish_finding hunt_id v lists) = Ok (before ++ [v])) ∧
  (get_cross_target_patterns lists = Ok before →
   get_cross_target_patterns (store_cross_target_pattern v lists)
   = Ok (before ++ [v])) ∧
  (∀ other, other ≠ hunt_id →
   get_findings other (publish_finding hunt_id v lists) = get_findings other lists) ∧
  get_cross_target_patterns (publish_finding hunt_id v lists)
  = get_cross_target_patterns lists ∧
  get_findings hunt_id (store_cross_target_pattern v lists)
  = get_findings hunt_id lists.
Proof.
  intros Hp.
  unfold get_findings, get_cross_target_patterns, publish_finding,
    store_cross_target_pattern, rpush, lrange_all.
  repeat split.
  - intros Hb. rewrite lookup_insert_eq. cbn [default].
    apply loads_each_snoc; [done | by apply loads_or_raise_dumps].
  - intros Hb. rewrite lookup_insert_eq. cbn [default].
    apply loads_each_snoc; [done | by apply loads_or_raise_dumps].
  - intros other Hne. rewrite lookup_insert_ne; [done|].
    intros H. by apply findings_key_inj in H.
  - rewrite lookup_insert_ne; [done|]. apply findings_key_not_patterns.
  - rewrite lookup_insert_ne; [done|].
    intros H. symmetry in H. by apply findings_key_not_patterns in H.
Qed.

(** X4. Every status report renews the whole hash for 600 seconds: until
    then the report is read back, together with every entry that was
    there when it was made; after that the hash is empty. *)
Theorem get_all_worker_status_after_set
    (workers : option (gmap string string * Z)) (now t : Z)
    (worker_id : string) (status : json) :
  plain status = true →
  map_Forall (λ _ raw, is_Some (JsonLoads.loads raw)) (fields_at now workers) →
  (t < now + 600 →
   ∃ m, get_all_worker_status t (set_worker_status now worker_id status workers) = Ok m ∧
        m !! worker_id = Some status ∧
        ∀ other, other ≠ worker_id →
          m !! other = fields_at now workers !! other ≫= JsonLoads.loads) ∧
  (now + 600 ≤ t →
   get_all_worker_status t (set_worker_status now worker_id status workers) = Ok ∅).
Proof.
  intros Hp Hold. unfold get_all_worker_status, set_worker_status. split.
  - intros Ht. cbn [fields_at]. destruct (Z.ltb_spec t (now + 600)); [|lia].
    rewrite bool_decide_eq_true_2.
    + eexists. split; [done|]. split.
      * rewrite lookup_omap, lookup_insert_eq. cbn. by rewrite loads_dumps.
      * intros other Hne. by rewrite lookup_omap, lookup_insert_ne.
    + apply map_Forall_insert_2; [|done]. rewrite loads_dumps by done. by eexists.
  - intros Ht. cbn [fields_at]. destruct (Z.ltb_spec t (now + 600)); [lia|].
    rewrite bool_decide_eq_true_2; [|apply map_Forall_empty].
    by rewrite omap_empty.
Qed.

End StoreFacts.

Section LockLife.
Import TaskQueue.

(** X5. A lock that was taken is held until its time has passed and no
    longer: from then on, or as soon as it is released, the next call
    takes it.  Taking and releasing the lock of one domain leaves the
    locks of the other domains as they are. *)
Theorem target_lock_free_after_release_or_expiry
    (leases : gmap string Z) (d : string) (t1 ttl1 t2 ttl2 : Z) :
  (set_target_lock t1 d ttl1 leases).1 = true →
  let held := (set_target_lock t1 d ttl1 leases).2 in
  (is_target_locked t2 d held = true ↔ t2 < t1 + ttl1) ∧
  (t1 + ttl1 ≤ t2 → (set_target_lock t2 d ttl2 held).1 = true) ∧
  (set_target_lock t2 d ttl2 (release_target_lock d held)).1 = true ∧
  (∀ d' t, d' ≠ d →
     is_target_locked t d' held = is_target_locked t d' leases ∧
     is_target_locked t d' (release_target_lock d held) = is_target_locked t d' leases).
Proof.
  intros Hfirst held.
  assert (Hheld : held = <[lock_key d := t1 + ttl1]> leases).
  { subst held. unfold set_target_lock, set_nx_ex in *.
    by destruct (exists_at t1 (lock_key d) leases). }
  assert (Hlocked : is_target_locked t2 d held = true ↔ t2 < t1 + ttl1).
  { rewrite Hheld. unfold is_target_locked, exists_at. rewrite lookup_insert_eq.
    apply Z.ltb_lt. }
  split; [done|]. split; [|split].
  - intros Hexp. unfold set_target_lock, set_nx_ex.
    fold (is_target_locked t2 d held).
    destruct (is_target_locked t2 d held); [|done].
    destruct Hlocked as [Hlt _]. specialize (Hlt eq_refl). lia.
  - unfold set_target_lock, set_nx_ex, exists_at, release_target_lock.
    by rewrite lookup_delete_eq.
  - intros d' t Hne.
    assert (Hk : lock_key d ≠ lock_key d') by (intros H%lock_key_inj; congruence).
    rewrite Hheld. unfold is_target_locked, exists_at, release_target_lock.
    by rewrite lookup_delete_ne, !lookup_insert_ne.
Qed.

(** X6. The release does not ask who holds the lock.  When a first
    holder's time has passed and a second worker has taken the lock, the
    release by the first frees it: a third worker then takes the lock
    while the time of the second has not passed. *)
Theorem release_target_lock_ignores_owner
    (leases : gmap string Z) (d : string) (t1 ttl1 t2 ttl2 t3 t4 ttl4 : Z) :
  is_target_locked t1 d leases = false →
  t1 + ttl1 ≤ t2 → t2 ≤ t3 → t3 ≤ t4 → t4 < t2 + ttl2 →
  (run [(t1, Acquire d ttl1); (t2, Acquire d ttl2); (t3, IsLocked d);
        (t3, Release d); (t4, IsLocked d); (t4, Acquire d ttl4)] leases).1
  = [true; true; true; true; false; true].
Proof.
  intros Hfree H12 H23 H34 H42.
  cbn [run exec].
  rewrite set_target_lock_true by done. cbn [fst snd].
  rewrite set_target_lock_true.
  2: { unfold exists_at. rewrite lookup_insert_eq. apply Z.ltb_ge. lia. }
  cbn [fst snd].
  assert (Hl3 : is_target_locked t3 d
                  (<[lock_key d := t2 + ttl2]> (<[lock_key d := t1 + ttl1]> leases))
                = true).
  { unfold is_target_locked, exists_at. rewrite lookup_insert_eq. apply Z.ltb_lt. lia. }
  rewrite Hl3.
  assert (Hl4 : ∀ m : gmap string Z,
            is_target_locked t4 d (release_target_lock d m) = false).
  { intros m. unfold is_target_locked, exists_at, release_target_lock.
    by rewrite lookup_delete_eq. }
  rewrite Hl4. rewrite set_target_lock_true; [done|].
  apply Hl4.
Qed.

End LockLife.

Section TransferIds.
Import Models CrossTargetAnalyzer.

Lemma numbered_snoc (hs : list hypothesis) h :
  hy_id <$> hs = ct_id <$> seq 1 (length hs) →
  hy_id h = ct_id (length hs + 1) →
  hy_id <$> (hs ++ [h]) = ct_id <$> seq 1 (length (hs ++ [h])).
Proof.
  intros Hhs Hh. rewrite fmap_app, length_app. cbn [length].
  rewrite seq_app, fmap_app, Hhs. cbn. rewrite Hh. do 3 f_equal. lia.
Qed.

Lemma direct_step_numbered td st p :
  hy_id <$> st.2 = ct_id <$> seq 1 (length st.2) →
  hy_id <$> (direct_step td st p).2 = ct_id <$> seq 1 (length (direct_step td st p).2).
Proof.
  intros H. unfold direct_step. destruct (true_ftype p) as [ftype|]; [|done].
  case_bool_decide; [done|]. cbn [snd]. by apply numbered_snoc.
Qed.

Lemma tech_step_numbered tech hs entry :
  hy_id <$> hs = ct_id <$> seq 1 (length hs) →
  hy_id <$> tech_step tech hs entry = ct_id <$> seq 1 (length (tech_step tech hs entry)).
Proof.
  intros H. unfold tech_step. destruct (existsb _ tech); [|done].
  by apply numbered_snoc.
Qed.

Lemma take_numbered n (hs : list hypothesis) :
  hy_id <$> hs = ct_id <$> seq 1 (length hs) →
  hy_id <$> take n hs = ct_id <$> seq 1 (length (take n hs)).
Proof.
  intros H. rewrite fmap_take, H, <- fmap_take, length_take. f_equal.
  rewrite take_seq. done.
Qed.

(** X7. The hypotheses are numbered in the order they are returned:
    CT-001, CT-002 and so on, so no two of them share an id. *)
Theorem get_transfer_hypotheses_ids
    (patterns : list (gmap string pyval)) (target_domain : string)
    (tech_stack : list string) :
  let hs := get_transfer_hypotheses patterns target_domain tech_stack in
  hy_id <$> hs = ct_id <$> seq 1 (length hs) ∧
  (∀ i h, hs !! i = Some h → hy_id h = ct_id (i + 1)) ∧
  NoDup (hy_id <$> hs).
Proof.
  intros hs.
  assert (Hnum : hy_id <$> hs = ct_id <$> seq 1 (length hs)).
  { subst hs. unfold get_transfer_hypotheses. apply take_numbered.
    set (direct := fold_left (direct_step target_domain) _ _).
    assert (Hd : hy_id <$> direct.2 = ct_id <$> seq 1 (length direct.2)).
    { subst direct. generalize (List.filter (from_other_target target_domain) patterns).
      intros ps.
      assert (Hgen : ∀ st, hy_id <$> st.2 = ct_id <$> seq 1 (length st.2) →
                hy_id <$> (fold_left (direct_step target_domain) ps st).2
                = ct_id <$> seq 1 (length (fold_left (direct_step target_domain) ps st).2)).
      { induction ps as [|p ps IH]; intros st Hst; [done|].
        cbn [fold_left]. apply IH. by apply direct_step_numbered. }
      by apply Hgen. }
    revert Hd. generalize direct.2. generalize TRANSFERABLE_PATTERNS.
    intros entries. induction entries as [|e entries IH]; intros hyps Hh; [done|].
    cbn [fold_left]. apply IH. by apply tech_step_numbered. }
  assert (Hlen : (length hs ≤ 15)%nat).
  { subst hs. unfold get_transfer_hypotheses. rewrite length_take. lia. }
  split; [done|]. split.
  - intros i h Hi.
    assert (Hl : (hy_id <$> hs) !! i = Some (hy_id h)) by (by rewrite list_lookup_fmap, Hi).
    rewrite Hnum, list_lookup_fmap in Hl.
    destruct (seq 1 (length hs) !! i) as [n|] eqn:Hn; [|done].
    apply lookup_seq in Hn as [-> _]. cbn in Hl. injection Hl as <-.
    f_equal. lia.
  - rewrite Hnum.
    replace (seq 1 (length hs)) with (take (length hs) (seq 1 15))
      by (rewrite take_seq; f_equal; lia).
    rewrite fmap_take. eapply sublist_NoDup; [|apply sublist_take].
    apply (bool_decide_eq_true_1 (NoDup (ct_id <$> seq 1 15))). by vm_compute.
Qed.

End TransferIds.

(** ** Batches and row orders *)

Section SortFacts.
Import ModelsOrder.
Context {A : Type} (precedes : A → A → bool).

Lemma insert_sorted_perm x l : insert_sorted precedes x l ≡ₚ x :: l.
Proof.
  induction l as [|y l IH]; [done|]. cbn [insert_sorted].
  destruct (precedes y x); [|done]. rewrite IH. apply Permutation_swap.
Qed.

Lemma stable_sort_perm l : stable_sort precedes l ≡ₚ l.
Proof.
  induction l as [|x l IH]; [done|]. unfold stable_sort in *. cbn [foldr].
  by rewrite insert_sorted_perm, IH.
Qed.

Hypothesis asym : ∀ a b, precedes a b = true → precedes b a = false.
Hypothesis negtrans :
  ∀ a b c, precedes c b = false → precedes b a = false → precedes c a = false.

Lemma insert_sorted_sorted x l :
  StronglySorted (λ a b, precedes b a = false) l →
  StronglySorted (λ a b, precedes b a = false) (insert_sorted precedes x l).
Proof.
  induction 1 as [|y l Hl IH Hy]; [repeat constructor|].
  cbn [insert_sorted]. destruct (precedes y x) eqn:Hyx.
  - constructor; [done|]. rewrite insert_sorted_perm.
    apply Forall_cons_2; [exact (asym _ _ Hyx)|exact Hy].
  - constructor; [by constructor|]. constructor; [done|].
    eapply Forall_impl; [exact Hy|]. intros z Hz. exact (negtrans x y z Hz Hyx).
Qed.

Lemma stable_sort_sorted l :
  StronglySorted (λ a b, precedes b a = false) (stable_sort precedes l).
Proof.
  induction l as [|x l IH]; [constructor|]. by apply insert_sorted_sorted.
Qed.

End SortFacts.

Lemma sorted_lookup {A} (R : A → A → Prop) (l : list A) i j x y :
  StronglySorted R l → l !! i = Some x → l !! j = Some y → (i < j)%nat → R x y.
Proof.
  intros Hs. revert i j. induction Hs as [|z l Hl IH Hz]; intros i j Hi Hj Hij.
  - done.
  - destruct j as [|j]; [lia|]. cbn in Hj. destruct i as [|i].
    + cbn in Hi. injection Hi as ->. rewrite Forall_forall in Hz.
      apply Hz. by eapply list_elem_of_lookup_2.
    + cbn in Hi. eapply IH; eauto. lia.
Qed.

Section BatchFacts.
Import Models ModelsOrder PriorityScheduler SchedulerBatch.

Lemma scored_targets clock ts : (scored clock ts).*2 = ts.
Proof.
  unfold scored. revert clock. induction ts as [|t ts IH]; intros clock; [done|].
  rewrite imap_cons, fmap_cons. cbn [snd]. f_equal. apply (IH (clock ∘ S)).
Qed.

Lemma ranked_targets clock updated_at db :
  (ranked clock updated_at db).*2
  ≡ₚ available (TargetDB_list_all updated_at db) db.
Proof.
  unfold ranked. rewrite stable_sort_perm. by rewrite scored_targets.
Qed.

Lemma elem_of_list_filter_std {B} (f : B → bool) (l : list B) x :
  x ∈ List.filter f l ↔ x ∈ l ∧ f x = true.
Proof. rewrite !list_elem_of_In. apply filter_In. Qed.

Lemma batch_subset max_concurrent clock updated_at db t :
  t ∈ get_next_batch max_concurrent clock updated_at db →
  t ∈ available (TargetDB_list_all updated_at db) db.
Proof.
  unfold get_next_batch. case_match; [by intros ?%elem_of_nil|].
  intros Hin. rewrite <- ranked_targets.
  rewrite <- (take_drop (Z.to_nat (max_concurrent -
                 Z.of_nat (length (HuntDB_get_active db))))
                (ranked clock updated_at db)).
  rewrite fmap_app. apply elem_of_app. by left.
Qed.

Lemma batch_facts
    (max_concurrent : Z) (clock : nat → Z) (updated_at : Z → string) (db : database) :
  let batch := get_next_batch max_concurrent clock updated_at db in
  let running := HuntDB_get_active db in
  (Z.of_nat (length batch) ≤ Z.max 0 (max_concurrent - Z.of_nat (length running))) ∧
  (max_concurrent ≤ Z.of_nat (length running) → batch = []) ∧
  ∀ t, t ∈ batch →
    t ∈ targets db ∧ t_status t ≠ "disabled" ∧
    ∀ h t', h ∈ hunts db → h_status h = "running" →
      TargetDB_get_by_id (h_target_id h) db = Some t' →
      t_domain t' ≠ t_domain t.
Proof.
  intros batch running. split; [|split].
  - subst batch running. unfold get_next_batch. case_match; [simpl; lia|].
    rewrite length_fmap, length_take. lia.
  - intros Hfull. subst batch running. unfold get_next_batch.
    case_match eqn:Hs; [done|]. apply Z.leb_gt in Hs. lia.
  - intros t Hin. apply batch_subset in Hin.
    unfold available in Hin. apply elem_of_list_filter_std in Hin as [Hin Hf].
    apply andb_true_iff in Hf as [Hst Hact].
    split; [|split].
    + unfold TargetDB_list_all in Hin. by rewrite stable_sort_perm in Hin.
    + intros Heq. rewrite Heq in Hst. done.
    + intros h t' Hh Hrun Ht' Hdom. apply bool_decide_eq_true in Hact.
      apply Hact. unfold active_domains. apply elem_of_list_to_set.
      apply list_elem_of_omap. exists h. split.
      * unfold HuntDB_get_active. apply elem_of_list_filter_std. split; [done|].
        rewrite Hrun. done.
      * by rewrite Ht', <- Hdom.
Qed.

(** X8. A batch holds no more targets than there are free slots, and
    only targets of the table that are not disabled and whose domain is
    not the domain of the target of a running hunt. *)
Theorem get_next_batch_bounds
    (max_concurrent : Z) (clock : nat → Z) (updated_at : Z → string) (db : database) :
  let batch := get_next_batch max_concurrent clock updated_at db in
  let running := HuntDB_get_active db in
  (Z.of_nat (length batch) ≤ Z.max 0 (max_concurrent - Z.of_nat (length running))) ∧
  (max_concurrent ≤ Z.of_nat (length running) → batch = []) ∧
  ∀ t, t ∈ batch →
    t ∈ targets db ∧ t_status t ≠ "disabled" ∧
    ∀ h t', h ∈ hunts db → h_status h = "running" →
      TargetDB_get_by_id (h_target_id h) db = Some t' →
      t_domain t' ≠ t_domain t.
Proof. apply batch_facts. Qed.

Lemma higher_asym a b : higher a b = true → higher b a = false.
Proof.
  unfold higher. intros H. apply negb_true_iff in H. apply negb_false_iff.
  apply Qle_bool_iff. destruct (Qlt_le_dec b.1 a.1) as [Hlt|Hle].
  - by apply Qlt_le_weak.
  - apply Qle_bool_iff in Hle. congruence.
Qed.

Lemma higher_false a b : higher a b = false ↔ (a.1 <= b.1)%Q.
Proof.
  unfold higher. rewrite negb_false_iff. apply Qle_bool_iff.
Qed.

Lemma higher_negtrans a b c : higher c b = false → higher b a = false → higher c a = false.
Proof. rewrite !higher_false. apply Qle_trans. Qed.

(** X9. The batch is the head of the ranking of the available targets by
    score: the scores do not grow along the ranking, so no target that is
    left out scores higher than one that is chosen. *)
Theorem get_next_batch_best_first
    (max_concurrent : Z) (clock : nat → Z) (updated_at : Z → string) (db : database) :
  let order := ranked clock updated_at db in
  let slots := max_concurrent - Z.of_nat (length (HuntDB_get_active db)) in
  order ≡ₚ scored clock (available (TargetDB_list_all updated_at db) db) ∧
  (∀ i j x y, order !! i = Some x → order !! j = Some y → (i < j)%nat →
              (y.1 <= x.1)%Q) ∧
  (0 < slots →
   get_next_batch max_concurrent clock updated_at db
   = (take (Z.to_nat slots) order).*2).
Proof.
  intros order slots. split; [|split].
  - apply stable_sort_perm.
  - intros i j x y Hi Hj Hij.
    assert (Hs : StronglySorted (λ a b, higher b a = false) order).
    { apply stable_sort_sorted; [apply higher_asym | apply higher_negtrans]. }
    apply higher_false.
    by eapply (sorted_lookup (λ a b, higher b a = false) order i j x y).
  - intros Hslots. unfold get_next_batch. fold slots.
    destruct (Z.leb_spec slots 0); [lia|done].
Qed.

End BatchFacts.

Section StringOrder.

Lemma ascii_compare_refl_eq a b : Ascii.compare a b = Eq → a = b.
Proof.
  unfold Ascii.compare. intros H%N.compare_eq_iff.
  rewrite <- (ascii_N_embedding a), <- (ascii_N_embedding b). by rewrite H.
Qed.

Lemma string_compare_le_trans a b c :
  String.compare a b ≠ Gt → String.compare b c ≠ Gt → String.compare a c ≠ Gt.
Proof.
  revert b c. induction a as [|x a IH]; intros [|y b] [|z c]; cbn; try done.
  unfold Ascii.compare.
  destruct (N.compare_spec (N_of_ascii x) (N_of_ascii y)) as [Hxy|Hxy|Hxy];
    destruct (N.compare_spec (N_of_ascii y) (N_of_ascii z)) as [Hyz|Hyz|Hyz];
    destruct (N.compare_spec (N_of_ascii x) (N_of_ascii z)) as [Hxz|Hxz|Hxz];
    try done; try lia.
  apply IH.
Qed.

Lemma leb_not_gt a b : String.leb a b = true ↔ String.compare a b ≠ Gt.
Proof. unfold String.leb. by destruct (String.compare a b). Qed.

Lemma string_leb_trans a b c :
  String.leb a b = true → String.leb b c = true → String.leb a c = true.
Proof. rewrite !leb_not_gt. apply string_compare_le_trans. Qed.

End StringOrder.

Section TableFacts.
Import Models Py ModelsRows.

Lemma insert_by_severity_perm f fs : insert_by_severity f fs ≡ₚ f :: fs.
Proof.
  induction fs as [|g fs IH]; [done|]. cbn [insert_by_severity].
  destruct (String.leb (f_severity f) (f_severity g)); [done|].
  rewrite IH. apply Permutation_swap.
Qed.

Lemma by_severity_perm fs : foldr insert_by_severity [] fs ≡ₚ fs.
Proof.
  induction fs as [|f fs IH]; [done|]. cbn [foldr].
  by rewrite insert_by_severity_perm, IH.
Qed.

Lemma insert_by_severity_sorted f fs :
  StronglySorted severity_le fs → StronglySorted severity_le (insert_by_severity f fs).
Proof.
  induction 1 as [|g fs Hfs IH Hg]; [repeat constructor|].
  cbn [insert_by_severity].
  destruct (String.leb (f_severity f) (f_severity g)) eqn:Hfg.
  - constructor; [by constructor|]. constructor; [done|].
    eapply Forall_impl; [exact Hg|]. intros z Hz.
    exact (string_leb_trans _ _ _ Hfg Hz).
  - constructor; [done|]. rewrite insert_by_severity_perm.
    apply Forall_cons_2; [|done].
    destruct (String.leb_total (f_severity f) (f_severity g)) as [H|H]; [congruence|done].
Qed.

Lemma by_severity_sorted fs : StronglySorted severity_le (foldr insert_by_severity [] fs).
Proof.
  induction fs as [|f fs IH]; [constructor|]. by apply insert_by_severity_sorted.
Qed.

(** X10. [get_by_hunt] returns the findings of the hunt, each once, and
    none of another hunt, in the byte order of their severity texts:
    critical, high, info, low, medium. *)
Theorem FindingDB_get_by_hunt_sorted (hunt_id : Z) (db : database) :
  let rows := FindingDB_get_by_hunt hunt_id db in
  rows ≡ₚ List.filter (λ f, f_hunt_id f =? hunt_id) (findings db) ∧
  (∀ f, f ∈ rows ↔ f ∈ findings db ∧ f_hunt_id f = hunt_id) ∧
  (∀ i j f g, rows !! i = Some f → rows !! j = Some g → (i < j)%nat →
     String.leb (f_severity f) (f_severity g) = true) ∧
  (∀ f g, f ∈ rows → g ∈ rows → f_severity f = "info" → f_severity g = "medium" →
     ∃ i j, rows !! i = Some f ∧ rows !! j = Some g ∧ (i < j)%nat).
Proof.
  intros rows.
  assert (Hperm : rows ≡ₚ List.filter (λ f, f_hunt_id f =? hunt_id) (findings db))
    by apply by_severity_perm.
  assert (Hsorted : ∀ i j f g, rows !! i = Some f → rows !! j = Some g → (i < j)%nat →
            String.leb (f_severity f) (f_severity g) = true).
  { intros i j f g Hi Hj Hij.
    exact (sorted_lookup severity_le rows i j f g (by_severity_sorted _) Hi Hj Hij). }
  split; [done|]. split; [|split; [done|]].
  - intros f. rewrite Hperm, elem_of_list_filter_std. by rewrite Z.eqb_eq.
  - intros f g Hf Hg Hsf Hsg.
    apply list_elem_of_lookup in Hf as [i Hi]. apply list_elem_of_lookup in Hg as [j Hj].
    exists i, j. split; [done|]. split; [done|].
    destruct (decide (i < j)%nat) as [|Hge]; [done|]. exfalso.
    destruct (decide (i = j)) as [->|Hne].
    + rewrite Hi in Hj. injection Hj as ->. rewrite Hsf in Hsg. done.
    + assert (j < i)%nat as Hji by lia.
      pose proof (Hsorted j i g f Hj Hi Hji) as Hle.
      rewrite Hsf, Hsg in Hle. done.
Qed.

Lemma all_rank_sorted (k : nat) (l : list card) :
  Forall (λ c, confidence_rank c = k) l →
  StronglySorted (λ a b, (confidence_rank a ≤ confidence_rank b)%nat) l.
Proof.
  induction 1 as [|c l Hc Hl IH]; [constructor|].
  constructor; [done|]. eapply Forall_impl; [exact Hl|]. intros d Hd. cbn beta in *. by rewrite Hc, Hd.
Qed.

Lemma filter_Forall_std {B} (f : B → bool) (l : list B) :
  Forall (λ x, f x = true) (List.filter f l).
Proof. apply Forall_forall. intros x Hx. by apply elem_of_list_filter_std in Hx as [_ ?]. Qed.

Lemma filter_three_perm {B} (f g : B → bool) (l : list B) :
  (∀ x, f x = true → g x = false) →
  List.filter f l ++ List.filter g l ++ List.filter (λ x, negb (f x) && negb (g x)) l
  ≡ₚ l.
Proof.
  intros Hfg. induction l as [|x l IH]; [done|]. cbn [List.filter].
  destruct (f x) eqn:Hf.
  - rewrite (Hfg x Hf). cbn. by rewrite IH.
  - destruct (g x) eqn:Hg; cbn.
    + rewrite <- Permutation_middle. by rewrite IH.
    + rewrite app_assoc, <- Permutation_middle, <- app_assoc. by rewrite IH.
Qed.

(** X11. [get_pending] returns the pending cards of the hunt, each once,
    those of high confidence first, then those of medium confidence, then
    all others. *)
Theorem HypothesisDB_get_pending_order (hunt_id : Z) (db : database) :
  let rows := HypothesisDB_get_pending hunt_id db in
  rows ≡ₚ List.filter (is_pending hunt_id) (cards db) ∧
  (∀ c, c ∈ rows ↔ c ∈ cards db ∧ c_hunt_id c = hunt_id ∧ c_status c = "pending") ∧
  (∀ i j a b, rows !! i = Some a → rows !! j = Some b → (i < j)%nat →
     (confidence_rank a ≤ confidence_rank b)%nat).
Proof.
  intros rows.
  assert (Hperm : rows ≡ₚ List.filter (is_pending hunt_id) (cards db)).
  { subst rows. unfold HypothesisDB_get_pending.
    apply (filter_three_perm (λ c, String.eqb (c_confidence c) "high")
             (λ c, String.eqb (c_confidence c) "medium")).
    intros c Hh. apply String.eqb_eq in Hh. by rewrite Hh. }
  split; [done|]. split.
  - intros c. rewrite Hperm, elem_of_list_filter_std. unfold is_pending.
    rewrite andb_true_iff, Z.eqb_eq, String.eqb_eq. tauto.
  - intros i j a b Hi Hj Hij.
    refine (sorted_lookup (λ a b, (confidence_rank a ≤ confidence_rank b)%nat)
              rows i j a b _ Hi Hj Hij).
    subst rows. unfold HypothesisDB_get_pending.
    set (pending := List.filter _ (cards db)).
    pose proof (filter_Forall_std (λ c, String.eqb (c_confidence c) "high") pending) as H1.
    pose proof (filter_Forall_std (λ c, String.eqb (c_confidence c) "medium") pending) as H2.
    pose proof (filter_Forall_std
                  (λ c, negb (String.eqb (c_confidence c) "high") &&
                        negb (String.eqb (c_confidence c) "medium")) pending) as H3.
    assert (R1 : Forall (λ c, confidence_rank c = 1%nat)
                   (List.filter (λ c, String.eqb (c_confidence c) "high") pending)).
    { eapply Forall_impl; [exact H1|]. intros c Hc. unfold confidence_rank. by rewrite Hc. }
    assert (R2 : Forall (λ c, confidence_rank c = 2%nat)
                   (List.filter (λ c, String.eqb (c_confidence c) "medium") pending)).
    { eapply Forall_impl; [exact H2|]. intros c Hc. unfold confidence_rank.
      apply String.eqb_eq in Hc. by rewrite Hc. }
    assert (R3 : Forall (λ c, confidence_rank c = 3%nat)
                   (List.filter
                      (λ c, negb (String.eqb (c_confidence c) "high") &&
                            negb (String.eqb (c_confidence c) "medium")) pending)).
    { eapply Forall_impl; [exact H3|]. intros c Hc. unfold confidence_rank.
      apply andb_true_iff in Hc as [Ha Hb].
      apply negb_true_iff in Ha, Hb. by rewrite Ha, Hb. }
    rewrite Forall_forall in R1, R2, R3.
    apply StronglySorted_app_2; [| |apply StronglySorted_app_2].
    + intros x1 x2 Hx1 [Hx2|Hx2]%elem_of_app.
      * rewrite (R1 x1 Hx1), (R2 x2 Hx2). lia.
      * rewrite (R1 x1 Hx1), (R3 x2 Hx2). lia.
    + apply (all_rank_sorted 1). by apply Forall_forall.
    + intros x1 x2 Hx1 Hx2. rewrite (R2 x1 Hx1), (R3 x2 Hx2). lia.
    + apply (all_rank_sorted 2). by apply Forall_forall.
    + apply (all_rank_sorted 3). by apply Forall_forall.
Qed.

Lemma find_none_id (hunt_id : Z) (hs : list hunt) :
  Forall (λ h, h_id h ≠ hunt_id) hs → List.find (λ h, h_id h =? hunt_id) hs = None.
Proof.
  induction 1 as [|h hs Hh Hhs IH]; [done|]. cbn [List.find].
  destruct (Z.eqb_spec (h_id h) hunt_id); [done|exact IH].
Qed.

Lemma find_app_id (p : hunt → bool) (hs extra : list hunt) :
  List.find p (hs ++ extra)
  = match List.find p hs with Some h => Some h | None => List.find p extra end.
Proof.
  induction hs as [|h hs IH]; [done|]. cbn [app List.find].
  by destruct (p h).
Qed.

(** X12. [HuntDB.create] needs a target of the id: without one the
    insert breaks the foreign key, IntegrityError is raised and the
    tables are as they were.  With one, and the hunt ids within the
    AUTOINCREMENT sequence, the hunt is created under an id that no hunt
    has; it is read back as a running hunt in phase recon, the other
    hunts are as they were, the new hunt is the last of the running
    ones, and the ids stay within the sequence. *)
Theorem HuntDB_create_get (target_id : Z) (hunt_type : string) (db : database) :
  hunts_wf db →
  (TargetDB_get_by_id target_id db = None →
   HuntDB_create target_id hunt_type db = (Raise IntegrityError, db)) ∧
  (is_Some (TargetDB_get_by_id target_id db) →
   ∃ id db',
     HuntDB_create target_id hunt_type db = (Ok id, db') ∧
     let row := mk_hunt id target_id hunt_type "running" "recon" None 0 PyNone in
     HuntDB_get id db = None ∧
     HuntDB_get id db' = Some row ∧
     (∀ other, other ≠ id → HuntDB_get other db' = HuntDB_get other db) ∧
     HuntDB_get_active db' = HuntDB_get_active db ++ [row] ∧
     targets db' = targets db ∧
     hunts_wf db').
Proof.
  intros Hwf. unfold hunts_wf in Hwf. split.
  { intros Hnone. unfold HuntDB_create. by rewrite Hnone. }
  intros [t Ht]. unfold HuntDB_create. rewrite Ht.
  set (id := hunt_seq db + 1). eexists id, _. split; [reflexivity |].
  cbv zeta.
  assert (Hfresh : Forall (λ h, h_id h ≠ id) (hunts db)).
  { eapply Forall_impl; [exact Hwf|]. intros h Hh. subst id. cbn beta in *. lia. }
  split; [by apply find_none_id|]. split; [|split; [|split; [|split]]].
  - unfold HuntDB_get. cbn. rewrite find_app_id, find_none_id by done.
    cbn. by rewrite Z.eqb_refl.
  - intros other Hne. unfold HuntDB_get. cbn. rewrite find_app_id.
    destruct (List.find _ (hunts db)); [done|]. cbn.
    by destruct (Z.eqb_spec id other).
  - unfold HuntDB_get_active. cbn. by rewrite List.filter_app.
  - reflexivity.
  - unfold hunts_wf. cbn. apply Forall_app. split.
    + eapply Forall_impl; [exact Hwf|]. intros h Hh. subst id. cbn in *. lia.
    + repeat constructor. cbn. lia.
Qed.

Lemma assign_hunt_id h a : h_id (assign_hunt h a) = h_id h.
Proof. by destruct a. Qed.

Lemma assign_all_hunt_id kwargs h : h_id (fold_left assign_hunt kwargs h) = h_id h.
Proof.
  revert h. induction kwargs as [|a kwargs IH]; intros h; [done|].
  cbn [fold_left]. by rewrite IH, assign_hunt_id.
Qed.

Lemma map_id_none {B} (p : B → bool) (g : B → B) (l : list B) :
  List.find p l = None → map (λ y, if p y then g y else y) l = l.
Proof.
  induction l as [|x l IH]; [done|]. cbn [List.find map].
  destruct (p x); [done|]. intros H. by rewrite IH.
Qed.

Lemma find_map_other {B} (p q : B → bool) (g : B → B) (l : list B) :
  (∀ y, q (g y) = q y) → (∀ y, p y = true → q y = false) →
  List.find q (map (λ y, if p y then g y else y) l) = List.find q l.
Proof.
  intros Hg Hpq. induction l as [|x l IH]; [done|]. cbn [List.find map].
  destruct (p x) eqn:Hp.
  - rewrite Hg, (Hpq x Hp). exact IH.
  - destruct (q x); [done|exact IH].
Qed.

(** X13. [HuntDB.update] assigns the columns of the hunt with the id, from
    left to right; it changes no other hunt and no other table, and does
    nothing when no hunt has the id. *)
Theorem HuntDB_update_get (hunt_id : Z) (kwargs : list hunt_assign) (db : database) :
  let db' := HuntDB_update hunt_id kwargs db in
  (∀ h, HuntDB_get hunt_id db = Some h →
        HuntDB_get hunt_id db' = Some (fold_left assign_hunt kwargs h)) ∧
  (HuntDB_get hunt_id db = None → db' = db) ∧
  (∀ other, other ≠ hunt_id → HuntDB_get other db' = HuntDB_get other db) ∧
  targets db' = targets db ∧ findings db' = findings db ∧ cards db' = cards db ∧
  hunt_seq db' = hunt_seq db.
Proof.
  intros db'. split; [|split; [|split]].
  - intros h Hh. subst db'. unfold HuntDB_get, HuntDB_update in *. cbn.
    apply (find_map_update (λ h, h_id h =? hunt_id) (fold_left assign_hunt kwargs));
      [|done].
    intros y. by rewrite assign_all_hunt_id.
  - intros Hnone. subst db'. unfold HuntDB_get, HuntDB_update in *.
    rewrite map_id_none by done. by destruct db.
  - intros other Hne. subst db'. unfold HuntDB_get, HuntDB_update. cbn.
    apply find_map_other.
    + intros y. by rewrite assign_all_hunt_id.
    + intros y Hy. apply Z.eqb_eq in Hy. by apply Z.eqb_neq; lia.
  - done.
Qed.

End TableFacts.

(** ** What the workers leave as it is *)

Section Keeps.
Import Models Json Py World Frame.
Context (R : world → world → Prop) `{!PreOrder R}.

Lemma keeps_ret {A} (a : A) : keeps R (ret a).
Proof. intros w. reflexivity. Qed.

Lemma keeps_raise {A} e : keeps R (@raise A e).
Proof. intros w. reflexivity. Qed.

Lemma keeps_gets {A} (f : world → A) : keeps R (gets f).
Proof. intros w. reflexivity. Qed.

Lemma keeps_lift {A} (r : outcome A) : keeps R (lift r).
Proof. intros w. reflexivity. Qed.

Lemma keeps_modify (f : world → world) : (∀ w, R w (f w)) → keeps R (modify f).
Proof. intros H w. apply H. Qed.

Lemma keeps_bind {A B} (m : M A) (k : A → M B) :
  keeps R m → (∀ a, keeps R (k a)) → keeps R (bind m k).
Proof.
  intros Hm Hk w. unfold bind. specialize (Hm w).
  destruct (m w) as [[a | e] w1]; cbn [snd] in *; [| exact Hm].
  etrans; [exact Hm | apply Hk].
Qed.

Lemma keeps_for_each {A} (xs : list A) (body : A → M unit) :
  (∀ x, keeps R (body x)) → keeps R (for_each xs body).
Proof.
  intros H. induction xs as [| x xs IH]; cbn [for_each].
  - apply keeps_ret.
  - apply keeps_bind; [apply H | intros _; exact IH].
Qed.

Lemma keeps_call {A} e (t : task A) :
  (∀ w, R w (call e t w).2) → keeps R (call e t).
Proof. intros H w. apply H. Qed.

Lemma keeps_try_finally {A} (body : M A) (cleanup : world → world) :
  keeps R body → (∀ w, R w (cleanup w)) → keeps R (try_finally body cleanup).
Proof.
  intros Hb Hc w. unfold try_finally. specialize (Hb w).
  destruct (body w) as [r w']. cbn [snd] in *. etrans; [exact Hb | apply Hc].
Qed.

Context (E : env).
Hypothesis Remit : ∀ e w, R w (emit e w).

Lemma keeps_curl command : keeps R (Validator.curl E command).
Proof. intros w. apply Remit. Qed.

Lemma keeps_chat_json k p :
  (∀ h w, R w (Validator.chat_counted E h k p w)) →
  keeps R (Validator.llm_chat_json E k p).
Proof.
  intros Hcount w. unfold Validator.llm_chat_json.
  destruct (chat E (trace w) k p); cbn [snd]; [| apply Remit].
  etrans; [apply Remit | apply Hcount].
Qed.

End Keeps.

Global Instance unchanged_preorder {X} (part : World.world → X) :
  PreOrder (Frame.unchanged part).
Proof.
  split.
  - by intros w.
  - intros a b c Hab Hbc. unfold Frame.unchanged in *. congruence.
Qed.

Global Instance only_findings_preorder ids : PreOrder (Frame.only_findings ids).
Proof.
  split.
  - intros w. by split.
  - intros a b c Hab Hbc.
    pose proof (Frame.of_others _ _ _ Hab) as Ho1.
    pose proof (Frame.of_others _ _ _ Hbc) as Ho2.
    pose proof (Frame.of_trace _ _ _ Hab). pose proof (Frame.of_trace _ _ _ Hbc).
    pose proof (Frame.of_logs _ _ _ Hab). pose proof (Frame.of_logs _ _ _ Hbc).
    pose proof (Frame.of_stats _ _ _ Hab) as Hs1.
    pose proof (Frame.of_stats _ _ _ Hbc) as Hs2.
    destruct Hab, Hbc. split; try congruence.
    + intros key Hkey. rewrite Hs2 by done. by apply Hs1.
    + intros other Hne. rewrite Ho2 by done. by apply Ho1.
    + by etrans.
    + by etrans.
Qed.

Ltac keeps_step side :=
  first
    [ apply keeps_ret; apply _ | apply keeps_raise; apply _
    | apply keeps_gets; apply _ | apply keeps_lift; apply _
    | apply keeps_curl; side
    | apply keeps_chat_json; [apply _ | side | side]
    | apply keeps_modify; side
    | apply keeps_call; side
    | apply keeps_for_each; [apply _ | intros]
    | apply keeps_bind; [apply _ | | intros]
    | progress cbv zeta
    | match goal with
      | |- Frame.keeps _ (if ?b then _ else _) => destruct b
      | |- Frame.keeps _ (match ?x with _ => _ end) => destruct x
      end ].

Ltac keeps_tac side := repeat keeps_step side.

Section ValidatorFrame.
Import Models Json Py World Frame Validator ValidatorBatch.
Context (E : env).

Lemma assign_finding_keeps f a :
  f_id (assign_finding f a) = f_id f ∧
  f_hunt_id (assign_finding f a) = f_hunt_id f ∧
  f_target_id (assign_finding f a) = f_target_id f ∧
  f_finding_type (assign_finding f a) = f_finding_type f ∧
  f_title (assign_finding f a) = f_title f ∧
  f_url (assign_finding f a) = f_url f ∧
  f_description (assign_finding f a) = f_description f ∧
  f_payload (assign_finding f a) = f_payload f ∧
  f_curl_command (assign_finding f a) = f_curl_command f.
Proof. by destruct a. Qed.

Lemma only_findings_emit ids e w : only_findings ids w (emit e w).
Proof. split; try done. by apply prefix_app_r. Qed.

Lemma only_findings_update fid ids kwargs w :
  fid ∈ ids →
  only_findings ids w (with_db (FindingDB_update fid kwargs (db w)) w).
Proof.
  intros Hin. split; try done.
  - unfold FindingDB_update. cbn.
    induction (findings (db w)) as [|f fs IH]; [done|].
    cbn [map]. rewrite !fmap_cons, IH. f_equal.
    destruct (f_id f =? fid); [|done]. by rewrite assign_all_finding_id.
  - intros other Hother. unfold FindingDB_get, FindingDB_update. cbn.
    apply (find_map_other (λ f, f_id f =? fid) (λ f, f_id f =? other)
             (fold_left assign_finding kwargs)).
    + intros y. cbn beta. by rewrite assign_all_finding_id.
    + intros y Hy. cbn beta in *. apply Z.eqb_eq in Hy. apply Z.eqb_neq.
      intros Heq. apply Hother. by rewrite <- Heq, Hy.
Qed.

Lemma only_findings_log ids entry w :
  only_findings ids w (with_db (WorkerLogDB_log entry (db w)) w).
Proof. split; try done. cbn. by apply prefix_app_r. Qed.

Lemma only_findings_mono ids ids' w w' :
  ids ⊆ ids' → only_findings ids w w' → only_findings ids' w w'.
Proof. intros Hsub []. split; try done. intros other Hother. apply of_others0. set_solver. Qed.

Lemma only_findings_counted ids h p w :
  only_findings ids w (chat_counted E h "validator" p w).
Proof.
  split; try done. intros key Hkey. unfold chat_counted, TaskQueue.increment_stat.
  cbn [stats with_stats].
  rewrite !lookup_insert_ne; [done | |]; intros <-; apply Hkey;
    unfold validator_counters; set_solver.
Qed.

Lemma only_findings_workers ids ws w : only_findings ids w (with_workers ws w).
Proof. by split. Qed.

Ltac frame_side fid :=
  first [ intros; apply only_findings_emit
        | intros; apply only_findings_counted
        | intros; apply only_findings_workers
        | intros; apply only_findings_update; set_solver
        | intros; apply only_findings_log ].

Lemma keeps_fail_finding fid steps reason :
  keeps (only_findings [fid]) (_fail_finding E fid steps reason).
Proof.
  unfold _fail_finding, FindingDB_update_m, WorkerLogDB_log_m.
  keeps_tac ltac:(frame_side fid).
Qed.

Lemma keeps_vulnerability_proof worker fid f hunt_id steps status_code body :
  keeps (only_findings [fid])
    (vulnerability_proof E worker fid f hunt_id steps status_code body).
Proof.
  unfold vulnerability_proof, FindingDB_update_m, WorkerLogDB_log_m, set_worker_status_m.
  keeps_tac ltac:(frame_side fid); apply keeps_fail_finding.
Qed.

Lemma keeps_validate_finding finding_id hunt_id :
  keeps (only_findings [finding_id]) (validate_finding E finding_id hunt_id).
Proof.
  unfold validate_finding, set_worker_status_m.
  keeps_tac ltac:(frame_side finding_id);
    first [apply keeps_fail_finding | apply keeps_vulnerability_proof].
Qed.

(** X14. Of the tables, [validate_finding] changes the finding it is
    called for and no other row: whether it returns or raises, no
    finding is added or taken away, every other finding, the targets,
    the hunts, the cards, the locks and the pattern log are as they
    were, and the trace and the worker log have only grown.  Of the
    counters only the two the LLM client keeps for the validator model
    (tokens and calls) may change.  The hash of worker reports, which
    the run writes its status to, is outside this statement. *)
Theorem validate_finding_frame (finding_id hunt_id : Z) (w : world) :
  only_findings [finding_id] w (validate_finding E finding_id hunt_id w).2.
Proof. apply keeps_validate_finding. Qed.

(** *** The row after a verdict *)

Lemma fail_finding_row finding_id steps reason w r w' f :
  FindingDB_get finding_id (db w) = Some f →
  _fail_finding E finding_id steps reason w = (Ok r, w') →
  is_false_positive r = true ∧
  ∃ f', FindingDB_get finding_id (db w') = Some f' ∧
        marked "false_positive" f f' ∧ f_severity f' = f_severity f.
Proof.
  intros Hf. unfold _fail_finding, bind, gets, FindingDB_update_m, WorkerLogDB_log_m,
    modify, lift, ret.
  destruct (py_slice 100 reason); [| done]. intros [= <- <-]. split; [done|].
  eexists. split.
  - cbn [db with_db]. rewrite FindingDB_get_log. by apply FindingDB_get_update.
  - cbn. unfold marked. cbn. split; [|done]. repeat split; try done. by eexists.
Qed.

Lemma vulnerability_proof_row worker finding_id f hunt_id steps status_code body
    w r w' :
  FindingDB_get finding_id (db w) = Some f →
  vulnerability_proof E worker finding_id f hunt_id steps status_code body w
  = (Ok r, w') →
  ∃ f', FindingDB_get finding_id (db w') = Some f' ∧
    ((is_confirmed r = true ∧ marked "verified" f f') ∨
     (is_false_positive r = true ∧ marked "false_positive" f f' ∧
      f_severity f' = f_severity f)).
Proof.
  intros Hf. unfold vulnerability_proof, bind at 1, llm_chat_json.
  destruct (chat E (trace w) "validator" _) as [raw | e]; [| done].
  destruct (VLLMClient.chat_json raw) as [v | e]; [| done].
  unfold bind at 1, lift at 1. destruct (py_get v "verdict") as [claimed|]; [|done].
  unfold bind at 1, lift at 1. destruct (py_get_or v "evidence" _) as [ev|]; [|done].
  unfold bind at 1, lift at 1. destruct (py_slice 300 ev) as [evidence|]; [|done].
  cbv zeta. destruct (py_is_str claimed "CONFIRMED").
  - unfold bind at 1, gets at 1. unfold bind at 1, FindingDB_update_m at 1, modify at 1.
    unfold bind at 1, lift at 1.
    destruct (py_get v "severity_adjustment") as [adjustment|]; [|done].
    unfold bind at 1.
    destruct (negb (py_is_str adjustment "none")).
    + unfold bind at 1, lift at 1.
      destruct (py_get_or v "adjusted_severity" _) as [adjusted|]; [|done].
      unfold bind at 1, lift at 1.
      destruct (bind_text adjusted) as [severity|]; [|done].
      unfold FindingDB_update_m, WorkerLogDB_log_m, set_worker_status_m, modify,
        bind, ret.
      intros [= <- <-]. eexists. split.
      * cbn [db with_db with_workers]. rewrite FindingDB_get_log.
        apply FindingDB_get_update, FindingDB_get_update. exact Hf.
      * left. split; [done|]. unfold marked. cbn. repeat split; try done. by eexists.
    + unfold FindingDB_update_m, WorkerLogDB_log_m, set_worker_status_m, modify,
        bind, ret.
      intros [= <- <-]. eexists. split.
      * cbn [db with_db with_workers]. rewrite FindingDB_get_log.
        apply FindingDB_get_update. exact Hf.
      * left. split; [done|]. unfold marked. cbn. repeat split; try done. by eexists.
  - unfold bind at 1, lift at 1.
    destruct (py_get_or v "reasoning" _) as [reason|]; [|done].
    intros Hfail. eapply fail_finding_row in Hfail as (Hr & f' & Hf' & Hm); [|exact Hf].
    exists f'. split; [done|]. right. by split.
Qed.

(** X15. When [validate_finding] returns for a stored finding, its answer
    is CONFIRMED or FALSE_POSITIVE, never an error, and the row says the
    same: the status is verified or false_positive, the validator's name
    and a stamp are recorded, and a finding that is rejected keeps its
    severity; no column other than status, severity and the two
    validator columns is written.  For an id that is not stored, the
    answer is the error, and all that was done is the report of the
    running status to the worker hash. *)
Theorem validate_finding_marks_row (finding_id hunt_id : Z) (w : world) :
  (FindingDB_get finding_id (db w) = None →
   validate_finding E finding_id hunt_id w
   = (Ok (VError "Finding not found"), started E finding_id w)) ∧
  (∀ f r w',
     FindingDB_get finding_id (db w) = Some f →
     validate_finding E finding_id hunt_id w = (Ok r, w') →
     ∃ f', FindingDB_get finding_id (db w') = Some f' ∧
       ((is_confirmed r = true ∧ marked "verified" f f') ∨
        (is_false_positive r = true ∧ marked "false_positive" f f' ∧
         f_severity f' = f_severity f))).
Proof.
  split.
  - intros Hnone. unfold validate_finding.
    unfold bind at 1, gets at 1. unfold bind at 1, set_worker_status_m, modify.
    unfold bind at 1, gets at 1. cbn [db with_workers]. by rewrite Hnone.
  - intros f r w' Hf. unfold validate_finding.
    unfold bind at 1, gets at 1. unfold bind at 1, set_worker_status_m, modify.
    unfold bind at 1, gets at 1. cbn [db with_workers]. rewrite Hf.
    cbv zeta. unfold bind at 1, curl at 1.
    destruct (negb (dns_pass _)).
    { intros Hfail. eapply fail_finding_row in Hfail as (Hr & f' & Hf' & Hm); [|exact Hf].
      exists f'. split; [done|]. right. by split. }
    unfold bind at 1, curl at 1.
    destruct (negb (http_pass _)).
    { intros Hfail. eapply fail_finding_row in Hfail as (Hr & f' & Hf' & Hm); [|exact Hf].
      exists f'. split; [done|]. right. by split. }
    unfold bind at 1, curl at 1. unfold bind at 1, curl at 1.
    destruct (negb (endpoint_pass _) && endpoint_rejected _).
    { intros Hfail. eapply fail_finding_row in Hfail as (Hr & f' & Hf' & Hm); [|exact Hf].
      exists f'. split; [done|]. right. by split. }
    intros Hvp. eapply vulnerability_proof_row in Hvp; [exact Hvp | exact Hf].
Qed.

(** *** Batches *)

Lemma keeps_validate_all hunt_id ids acc all :
  ids ⊆ all → keeps (only_findings all) (validate_all E hunt_id ids acc).
Proof.
  revert acc. induction ids as [|fid ids IH]; intros acc Hsub; cbn [validate_all].
  - apply keeps_ret. apply _.
  - apply keeps_bind; [apply _ | |].
    + intros w. eapply only_findings_mono; [|apply keeps_validate_finding].
      intros x ->%list_elem_of_singleton. apply Hsub. by left.
    + intros r. apply IH. intros x Hx. apply Hsub. by right.
Qed.

Lemma validate_all_length hunt_id ids acc w rs w' :
  validate_all E hunt_id ids acc w = (Ok rs, w') →
  length rs = (length acc + length ids)%nat.
Proof.
  revert acc w. induction ids as [|fid ids IH]; intros acc w; cbn [validate_all].
  - intros [= <- _]. cbn. lia.
  - intros (r & w1 & _ & Hrest)%bind_ok_inv. apply IH in Hrest.
    rewrite length_app in Hrest. cbn in *. lia.
Qed.

Lemma results_partition (rs : list val_result) :
  (length (List.filter is_confirmed rs) + length (List.filter is_false_positive rs) +
   length (List.filter is_error rs))%nat = length rs.
Proof.
  induction rs as [|r rs IH]; [done|]. destruct r; cbn; lia.
Qed.

(** X16. A batch validates the first ten of the ids it is given and no
    more: of the tables only those findings may change, whether the
    batch returns or raises (of the counters, only the two of the
    validator model); when it returns, its total is the number of ids
    tried, and every answer is counted once, as confirmed, as false
    positive, or as an error. *)
Theorem batch_validate_counts (hunt_id : Z) (finding_ids : list Z) (w : world) :
  only_findings (take 10 finding_ids) w (batch_validate E hunt_id finding_ids w).2 ∧
  ∀ b w', batch_validate E hunt_id finding_ids w = (Ok b, w') →
    br_total b = length (take 10 finding_ids) ∧
    (br_total b ≤ 10)%nat ∧
    length (br_results b) = br_total b ∧
    (br_confirmed b + br_false_positive b +
     length (List.filter is_error (br_results b)))%nat = br_total b.
Proof.
  split.
  - revert w. change (keeps (only_findings (take 10 finding_ids))
                        (batch_validate E hunt_id finding_ids)).
    unfold batch_validate. apply keeps_bind; [apply _ | |].
    + by apply keeps_validate_all.
    + intros rs. apply keeps_ret. apply _.
  - intros b w'. unfold batch_validate.
    intros (rs & w1 & Hall & Hret)%bind_ok_inv.
    unfold ret in Hret. injection Hret as <- <-. cbn.
    apply validate_all_length in Hall. cbn in Hall.
    split; [done|]. split; [rewrite Hall, length_take; lia|]. split; [done|].
    apply results_partition.
Qed.

End ValidatorFrame.

Section BrainFacts.
Import Models Json Py World Frame Validator Brain.
Context (E : env).

Lemma keeps_run {A} (R : world → world → Prop) (m : M A) w r w' :
  keeps R m → m w = (r, w') → R w w'.
Proof. intros H Hm. specialize (H w). by rewrite Hm in H. Qed.

Lemma keeps_weaken {A} (R R' : world → world → Prop) (m : M A) :
  (∀ w w', R w w' → R' w w') → keeps R m → keeps R' m.
Proof. intros H Hm w. apply H, Hm. Qed.

Section Part.
Context {X : Type} (part : world → X).
Hypothesis part_db : ∀ d w, part (with_db d w) = part w.
Hypothesis part_emit : ∀ e w, part (emit e w) = part w.
Hypothesis part_patterns : ∀ ps w, part (with_cross_patterns ps w) = part w.
Hypothesis part_only : ∀ ids w w', only_findings ids w w' → part w' = part w.
Hypothesis part_collab : collaborators_keep part E.

Lemma call_part {A} e (t : task A) w :
  task_keeps part t → unchanged part w (call e t w).2.
Proof.
  intros H. specialize (H w). unfold call, unchanged.
  destruct (t w) as [r w']. cbn [snd] in *. by rewrite part_emit.
Qed.

Ltac part_side :=
  first [ intros; unfold unchanged; by rewrite ?part_db, ?part_emit, ?part_patterns
        | intros; apply call_part; apply part_collab ].

Lemma keeps_part_create target_id hunt_type :
  keeps (unchanged part) (HuntDB_create_m target_id hunt_type).
Proof.
  intros w. unfold HuntDB_create_m.
  destruct (HuntDB_create target_id hunt_type (db w)) as [r d]. apply part_db.
Qed.

Lemma keeps_part_update hunt_id kwargs :
  keeps (unchanged part) (HuntDB_update_m hunt_id kwargs).
Proof. intros w. apply part_db. Qed.

Lemma keeps_part_test_cards hunt_id target_id domain cards :
  keeps (unchanged part) (test_cards E hunt_id target_id domain cards).
Proof. unfold test_cards. keeps_tac part_side. Qed.

Lemma keeps_part_recon target_id hunt_id domain :
  keeps (unchanged part) (recon E target_id hunt_id domain).
Proof.
  unfold recon. apply keeps_bind; [apply _ | apply keeps_part_update |].
  intros _. keeps_tac part_side.
Qed.

Lemma keeps_part_discovery target_id hunt_id domain :
  keeps (unchanged part) (discovery E target_id hunt_id domain).
Proof.
  unfold discovery. apply keeps_bind; [apply _ | apply keeps_part_update |].
  intros _. keeps_tac part_side.
Qed.

Lemma keeps_part_testing target_id hunt_id domain :
  keeps (unchanged part) (testing E target_id hunt_id domain).
Proof.
  unfold testing. apply keeps_bind; [apply _ | apply keeps_part_update |].
  intros _. apply keeps_bind; [apply _ | keeps_tac part_side |].
  intros _. apply keeps_bind; [apply _ | keeps_tac part_side |].
  intros cards. apply keeps_bind; [apply _ | apply keeps_part_test_cards |].
  intros _. keeps_tac part_side.
Qed.

Lemma keeps_part_sync target_id hunt_id domain cards :
  keeps (unchanged part) (sync E target_id hunt_id domain cards).
Proof.
  unfold sync. apply keeps_bind; [apply _ | apply keeps_part_update |].
  intros _. apply keeps_bind; [apply _ | keeps_tac part_side |].
  intros [|f fs]; [|keeps_tac part_side].
  cbv zeta. apply keeps_bind; [apply _ | keeps_tac part_side |].
  intros _. apply keeps_bind; [apply _ | keeps_tac part_side |].
  intros second. apply keeps_bind; [apply _ | apply keeps_part_test_cards |].
  intros _. keeps_tac part_side.
Qed.

Lemma keeps_part_validate_each hunt_id unverified count :
  keeps (unchanged part) (validate_each E hunt_id unverified count).
Proof.
  revert count. induction unverified as [| f fs IH]; intros count; cbn [validate_each].
  - apply keeps_ret. apply _.
  - apply keeps_bind; [apply _ | | intros r; apply IH].
    eapply keeps_weaken; [|apply keeps_validate_finding].
    intros w w' H. exact (part_only _ _ _ H).
Qed.

Lemma keeps_part_validation hunt_id : keeps (unchanged part) (validation E hunt_id).
Proof.
  unfold validation. apply keeps_bind; [apply _ | apply keeps_part_update |].
  intros _. apply keeps_bind; [apply _ | keeps_tac part_side |].
  intros unverified. apply keeps_part_validate_each.
Qed.

Lemma keeps_part_reporting target target_id hunt_id domain :
  keeps (unchanged part) (reporting E target target_id hunt_id domain).
Proof.
  unfold reporting. apply keeps_bind; [apply _ | apply keeps_part_update |].
  intros _. keeps_tac part_side.
Qed.

(** The phases of a hunt before [complete] *)
Lemma hunt_phases_part target_id target domain w0 r w' :
  hunt E target_id target domain w0 = (Ok r, w') →
  (∃ error, r = HFailed "recon" error) ∨
  ∃ hunt_id (all_findings : list finding) vc (verified : list finding) w7,
    part w7 = part w0 ∧
    complete E domain hunt_id vc verified w7 = (Ok tt, w') ∧
    r = HComplete hunt_id domain (length all_findings) vc (length verified).
Proof.
  unfold hunt. intros (hid & w1 & H1 & Hhunt)%bind_ok_inv.
  apply (keeps_run (unchanged part)) in H1; [| apply keeps_part_create].
  apply bind_ok_inv in Hhunt as (rr & w2 & H2 & Hhunt).
  apply (keeps_run (unchanged part)) in H2; [| apply keeps_part_recon].
  destruct (py_eq_str (rr_status rr) "error").
  { apply bind_ok_inv in Hhunt as (? & ? & _ & Hhunt). injection Hhunt as <- _.
    left. by eexists. }
  apply bind_ok_inv in Hhunt as ([] & w3 & H3 & Hhunt).
  apply (keeps_run (unchanged part)) in H3; [| apply keeps_part_discovery].
  apply bind_ok_inv in Hhunt as (cards & w4 & H4 & Hhunt).
  apply (keeps_run (unchanged part)) in H4; [| apply keeps_part_testing].
  apply bind_ok_inv in Hhunt as (all_findings & w5 & H5 & Hhunt).
  apply (keeps_run (unchanged part)) in H5; [| apply keeps_part_sync].
  apply bind_ok_inv in Hhunt as (vc & w6 & H6 & Hhunt).
  apply (keeps_run (unchanged part)) in H6; [| apply keeps_part_validation].
  apply bind_ok_inv in Hhunt as (verified & w7 & H7 & Hhunt).
  apply (keeps_run (unchanged part)) in H7; [| apply keeps_part_reporting].
  apply bind_ok_inv in Hhunt as ([] & w8 & Hcomplete & Hret).
  unfold ret in Hret. injection Hret as <- <-.
  right. exists hid, all_findings, vc, verified, w7.
  unfold unchanged in *. split; [congruence |]. by split.
Qed.

End Part.

Lemma collaborators_keep_leases : collaborators_keep leases E.
Proof. repeat split; intros; intros w; reflexivity. Qed.

Lemma keeps_leases_hunt target_id target domain :
  keeps (unchanged leases) (hunt E target_id target domain).
Proof.
  assert (Hdb : ∀ d w, leases (with_db d w) = leases w) by done.
  assert (Hemit : ∀ e w, leases (emit e w) = leases w) by done.
  assert (Hpat : ∀ ps w, leases (with_cross_patterns ps w) = leases w) by done.
  assert (Honly : ∀ ids w w', only_findings ids w w' → leases w' = leases w).
  { by intros ids w w' []. }
  pose proof collaborators_keep_leases as Hcollab.
  unfold hunt.
  apply keeps_bind; [apply _ | by apply keeps_part_create |]. intros hunt_id.
  apply keeps_bind; [apply _ | by apply keeps_part_recon |]. intros rr.
  destruct (py_eq_str (rr_status rr) "error").
  { apply keeps_bind; [apply _ | by apply keeps_part_update |]. intros _.
    apply keeps_ret. apply _. }
  apply keeps_bind; [apply _ | by apply keeps_part_discovery |]. intros _.
  apply keeps_bind; [apply _ | by apply keeps_part_testing |]. intros cards.
  apply keeps_bind; [apply _ | by apply keeps_part_sync |]. intros all_findings.
  apply keeps_bind; [apply _ | by apply keeps_part_validation |]. intros vc.
  apply keeps_bind; [apply _ | by apply keeps_part_reporting |].
  intros verified. apply keeps_bind; [apply _ | |].
  { unfold complete, HuntDB_update_m, TargetDB_update_m, increment_stat_m.
    keeps_tac ltac:(intros; reflexivity). }
  intros _. apply keeps_ret. apply _.
Qed.

(** The results of the body of a hunt *)
Lemma hunt_result_kind target_id target domain w0 r w' :
  hunt E target_id target domain w0 = (Ok r, w') →
  (∃ error, r = HFailed "recon" error) ∨
  (∃ hunt_id total verified reported, r = HComplete hunt_id domain total verified reported).
Proof.
  unfold hunt. intros (hid & w1 & _ & Hhunt)%bind_ok_inv.
  apply bind_ok_inv in Hhunt as (rr & w2 & _ & Hhunt).
  destruct (py_eq_str (rr_status rr) "error").
  { apply bind_ok_inv in Hhunt as (? & ? & _ & Hhunt). injection Hhunt as <- _.
    left. by eexists. }
  apply bind_ok_inv in Hhunt as ([] & w3 & _ & Hhunt).
  apply bind_ok_inv in Hhunt as (cards & w4 & _ & Hhunt).
  apply bind_ok_inv in Hhunt as (all_findings & w5 & _ & Hhunt).
  apply bind_ok_inv in Hhunt as (vc & w6 & _ & Hhunt).
  apply bind_ok_inv in Hhunt as (verified & w7 & _ & Hhunt).
  apply bind_ok_inv in Hhunt as ([] & w8 & _ & Hret).
  injection Hret as <- _. right. by do 4 eexists.
Qed.

Lemma with_leases_same w : with_leases (leases w) w = w.
Proof. by destruct w. Qed.

Lemma set_target_lock_m_locked domain ttl w :
  TaskQueue.is_target_locked (now E (trace w)) domain (leases w) = true →
  set_target_lock_m E domain ttl w = (Ok false, w).
Proof.
  intros H. unfold set_target_lock_m. rewrite set_target_lock_false by done.
  by rewrite with_leases_same.
Qed.

Lemma set_target_lock_m_free domain ttl w :
  TaskQueue.is_target_locked (now E (trace w)) domain (leases w) = false →
  set_target_lock_m E domain ttl w
  = (Ok true,
     with_leases (<[TaskQueue.lock_key domain := now E (trace w) + ttl]> (leases w)) w).
Proof. intros H. unfold set_target_lock_m. by rewrite set_target_lock_true. Qed.

(** X17. [run_hunt] answers skipped exactly when the target is there and
    its lock is held; it then leaves everything as it is: no hunt is
    created, nothing is sent out, and the lock stays with its holder. *)
Theorem run_hunt_skipped_iff (target_id : Z) (w : world) (reason : string) (w' : world) :
  run_hunt E target_id w = (Ok (HSkipped reason), w') ↔
  ∃ target,
    TargetDB_get_by_id target_id (db w) = Some target ∧
    TaskQueue.is_target_locked (now E (trace w)) (t_domain target) (leases w) = true ∧
    reason = t_domain target +:+ " is already being hunted" ∧
    w' = w.
Proof.
  split.
  - intros Hrun.
    destruct (run_hunt_cases E target_id w)
      as [[_ Heq] | [(target & w0 & Hfound & Hlock & _ & Heq)
                    | (target & w0 & _ & _ & _ & Heq)]];
      rewrite Heq in Hrun.
    + done.
    + injection Hrun as <- <-. exists target. split; [done|].
      destruct (TaskQueue.is_target_locked (now E (trace w)) (t_domain target)
                  (leases w)) eqn:Hl.
      * rewrite set_target_lock_m_locked in Hlock by done.
        injection Hlock as <-. done.
      * rewrite set_target_lock_m_free in Hlock by done. done.
    + destruct (hunt E target_id target (t_domain target) w0) as [[r|e] v] eqn:Hhunt;
        [|done].
      cbn in Hrun. injection Hrun as -> _.
      apply hunt_result_kind in Hhunt as [[? ?] | (? & ? & ? & ? & ?)]; done.
  - intros (target & Hfound & Hl & -> & ->).
    unfold run_hunt, bind, gets. rewrite Hfound.
    by rewrite set_target_lock_m_locked.
Qed.

(** X18. When [run_hunt] finds the target and its lock free, it ends, by
    a return or by an exception, with the lock of the domain gone and
    every other lease as it was. *)
Theorem run_hunt_releases_lock (target_id : Z) (w : world) (target : target) :
  TargetDB_get_by_id target_id (db w) = Some target →
  TaskQueue.is_target_locked (now E (trace w)) (t_domain target) (leases w) = false →
  leases (run_hunt E target_id w).2
  = delete (TaskQueue.lock_key (t_domain target)) (leases w).
Proof.
  intros Hfound Hfree.
  unfold run_hunt, bind, gets. rewrite Hfound.
  rewrite set_target_lock_m_free by done. cbn [negb].
  unfold try_finally.
  set (w0 := with_leases _ w).
  pose proof (keeps_leases_hunt target_id target (t_domain target) w0) as Hk.
  destruct (hunt E target_id target (t_domain target) w0) as [r v].
  cbn [snd] in *. unfold unchanged in Hk. unfold release_target_lock_w. cbn [leases with_leases].
  unfold TaskQueue.release_target_lock. rewrite Hk. subst w0. cbn [leases with_leases].
  by rewrite delete_insert_eq.
Qed.

(** X19. When recon answers an error, the hunt is marked failed with the
    error text, [run_hunt] answers failed in phase recon, no later phase
    is run, and the lock is released. *)
Theorem run_hunt_recon_error
    (target_id : Z) (w : world) (target : target) (w0 : world) (hunt_id : Z)
    (w1 : world) (rr : recon_result) (w2 : world) :
  TargetDB_get_by_id target_id (db w) = Some target →
  set_target_lock_m E (t_domain target) 7200 w = (Ok true, w0) →
  HuntDB_create_m target_id "full" w0 = (Ok hunt_id, w1) →
  recon E target_id hunt_id (t_domain target) w1 = (Ok rr, w2) →
  py_eq_str (rr_status rr) "error" = true →
  run_hunt E target_id w
  = (Ok (HFailed "recon" (rr_error rr)),
     release_target_lock_w (t_domain target)
       (with_db (HuntDB_update hunt_id
                   [Set_h_status "failed"; Set_h_error (rr_error rr)] (db w2)) w2)) ∧
  trace (run_hunt E target_id w).2
  = trace w ++ [EvRecon target_id hunt_id (t_domain target)] ∧
  leases (run_hunt E target_id w).2 !! TaskQueue.lock_key (t_domain target) = None ∧
  ∀ h, HuntDB_get hunt_id (db w2) = Some h →
       HuntDB_get hunt_id (db (run_hunt E target_id w).2)
       = Some (mk_hunt (h_id h) (h_target_id h) (h_hunt_type h) "failed" (h_phase h)
                 (h_completed_at h) (h_findings_count h) (rr_error rr)).
Proof.
  intros Hfound Hlock Hc Hr Herr.
  assert (Hrun : run_hunt E target_id w
    = (Ok (HFailed "recon" (rr_error rr)),
       release_target_lock_w (t_domain target)
         (with_db (HuntDB_update hunt_id
                     [Set_h_status "failed"; Set_h_error (rr_error rr)] (db w2)) w2))).
  { unfold run_hunt, bind at 1, gets at 1. rewrite Hfound.
    unfold bind at 1. rewrite Hlock. cbn [negb]. unfold try_finally, hunt, bind at 1.
    rewrite Hc. unfold bind at 1. rewrite Hr, Herr. done. }
  rewrite Hrun. cbn [snd]. split; [done|]. split; [|split].
  - cbn [trace release_target_lock_w with_leases with_db].
    assert (Ht0 : trace w0 = trace w).
    { unfold set_target_lock_m in Hlock.
      destruct (TaskQueue.set_target_lock _ _ _ _). by injection Hlock as _ <-. }
    assert (Ht1 : trace w1 = trace w0).
    { unfold HuntDB_create_m in Hc.
      destruct (HuntDB_create target_id "full" (db w0)) as [r0 d0].
      by injection Hc as _ <-. }
    unfold recon, bind, HuntDB_update_m, modify, call in Hr. cbn in Hr.
    destruct (run_recon E target_id hunt_id (t_domain target) _) as [r d].
    injection Hr as _ <-. cbn. by rewrite Ht1, Ht0.
  - cbn. unfold TaskQueue.release_target_lock. apply lookup_delete_eq.
  - intros h Hh. cbn [db release_target_lock_w with_leases with_db].
    unfold HuntDB_get, HuntDB_update in *. cbn.
    rewrite (find_map_update (λ h, h_id h =? hunt_id)
               (fold_left assign_hunt [Set_h_status "failed"; Set_h_error (rr_error rr)])
               _ h); [done| |done].
    intros y. by rewrite assign_all_hunt_id.
Qed.

End BrainFacts.

Section BrainCompletion.
Import Models ModelsOrder Json Py World Frame Validator Brain BrainSwarm PriorityScheduler
  SchedulerBatch.
Context (E : env).

(** What a run that answers complete went through: the phases leave a
    part of the world as it is when the collaborators do, and [complete]
    is the last to write. *)
Lemma run_hunt_complete_inv {X} (part : world → X)
    target_id w hunt_id domain total vc reported w' :
  (∀ d v, part (with_db d v) = part v) →
  (∀ e v, part (emit e v) = part v) →
  (∀ ps v, part (with_cross_patterns ps v) = part v) →
  (∀ l v, part (with_leases l v) = part v) →
  (∀ ids v v', only_findings ids v v' → part v' = part v) →
  collaborators_keep part E →
  run_hunt E target_id w = (Ok (HComplete hunt_id domain total vc reported), w') →
  ∃ w7 (verified : list finding),
    part w7 = part w ∧ reported = length verified ∧
    w' = release_target_lock_w domain
           (with_stats
              (TaskQueue.increment_stat "findings_total" vc
                 (TaskQueue.increment_stat "hunts_completed" 1 (stats w7)))
              (with_db
                 (TargetDB_update domain
                    [Set_t_last_full_hunt_at (now E (trace w7));
                     Set_t_total_findings (Z.of_nat (length verified))]
                    (HuntDB_update hunt_id
                       [Set_h_status "complete"; Set_h_completed_at (now E (trace w7));
                        Set_h_findings_count vc] (db w7)))
                 w7)).
Proof.
  intros Hdb Hemit Hpat Hleases Honly Hcollab Hrun.
  destruct (run_hunt_cases E target_id w)
    as [[_ Heq] | [(target & w0 & _ & _ & _ & Heq) | (target & w0 & _ & Hlock & _ & Heq)]];
    rewrite Heq in Hrun; [done | done |].
  clear Heq. destruct (hunt E target_id target (t_domain target) w0) as [r v] eqn:Hhunt.
  cbn [fst snd] in Hrun. injection Hrun as -> <-.
  assert (Hs0 : part w0 = part w).
  { unfold set_target_lock_m in Hlock. destruct (TaskQueue.set_target_lock _ _ _ _).
    injection Hlock as _ <-. apply Hleases. }
  destruct (hunt_phases_part E part Hdb Hemit Hpat Honly Hcollab _ _ _ _ _ _ Hhunt)
    as [[error Hr] | (hid & all_findings & vc' & verified & w7 & Hpart & Hcomplete & Hr)];
    [done|].
  injection Hr as -> -> _ -> ->.
  unfold complete, bind, gets, HuntDB_update_m, TargetDB_update_m,
    increment_stat_m, modify in Hcomplete. cbn in Hcomplete.
  injection Hcomplete as <-.
  exists w7, verified. split; [congruence|]. by split.
Qed.



(** *** Dispatching *)

Lemma dispatch_unlocked_spec lock_clock i (leases : gmap string Z) targets t :
  t ∈ dispatch_unlocked lock_clock i leases targets →
  ∃ j, targets !! j = Some t ∧
       TaskQueue.is_target_locked (lock_clock (i + j)%nat) (t_domain t) leases = false.
Proof.
  revert i. induction targets as [|x targets IH]; intros i; cbn [dispatch_unlocked].
  - by intros ?%elem_of_nil.
  - destruct (TaskQueue.is_target_locked (lock_clock i) (t_domain x) leases) eqn:Hl;
      cbn [negb].
    + intros (j & Hj & Hf)%IH. exists (S j). split; [done|].
      by replace (i + S j)%nat with (S i + j)%nat by lia.
    + intros [->|Hin]%elem_of_cons.
      * exists 0%nat. split; [done|]. by rewrite Nat.add_0_r.
      * apply IH in Hin as (j & Hj & Hf). exists (S j). split; [done|].
        by replace (i + S j)%nat with (S i + j)%nat by lia.
Qed.

Lemma dispatch_unlocked_length lock_clock i (leases : gmap string Z) targets :
  (length (dispatch_unlocked lock_clock i leases targets) ≤ length targets)%nat.
Proof.
  revert i. induction targets as [|x targets IH]; intros i; cbn [dispatch_unlocked];
    [done|].
  destruct (negb _); cbn [length]; specialize (IH (S i)); lia.
Qed.

(** X21. [run_swarm] is idle exactly when the batch is empty.  Otherwise
    it dispatches hunts only for targets of the batch, at most as many as
    there are free slots out of three, each for a target that is not
    disabled, has no running hunt on its domain, and whose lock was free
    when it was checked. *)
Theorem run_swarm_dispatches
    (clock : nat → Z) (updated_at : Z → string) (lock_clock : nat → Z) (w : world) :
  let batch := get_next_batch 3 clock updated_at (db w) in
  match run_swarm clock updated_at lock_clock w with
  | SwarmIdle => batch = []
  | SwarmDispatched dispatched =>
      batch ≠ [] ∧
      (Z.of_nat (length dispatched)
       ≤ Z.max 0 (3 - Z.of_nat (length (HuntDB_get_active (db w))))) ∧
      ∀ t, t ∈ dispatched →
        (∃ j, batch !! j = Some t ∧
              TaskQueue.is_target_locked (lock_clock j) (t_domain t) (leases w) = false) ∧
        t ∈ targets (db w) ∧ t_status t ≠ "disabled" ∧
        ∀ h t', h ∈ hunts (db w) → h_status h = "running" →
          TargetDB_get_by_id (h_target_id h) (db w) = Some t' →
          t_domain t' ≠ t_domain t
  end.
Proof.
  intros batch. unfold run_swarm. fold batch.
  destruct (batch_facts 3 clock updated_at (db w)) as (Hlen & _ & Hmem).
  fold batch in Hlen, Hmem.
  destruct batch as [|x rest] eqn:Hb; [done|].
  split; [done|]. split.
  - pose proof (dispatch_unlocked_length lock_clock 0 (leases w) (x :: rest)). lia.
  - intros t Hin. pose proof Hin as Hin'.
    apply dispatch_unlocked_spec in Hin as (j & Hj & Hfree).
    split; [by exists j|]. apply Hmem. by eapply list_elem_of_lookup_2.
Qed.

Lemma retest_due_spec clock i targets t :
  t ∈ retest_due clock i targets →
  t ∈ targets ∧ t_status t ≠ "disabled" ∧
  (t_last_full_hunt_at t = None ∨
   ∃ j last_dt, t_last_full_hunt_at t = Some last_dt ∧ 7 * day_us ≤ clock j - last_dt).
Proof.
  revert i. induction targets as [|x targets IH]; intros i; cbn [retest_due].
  - by intros ?%elem_of_nil.
  - assert (Hrest : t ∈ retest_due clock (S i) targets →
              t ∈ x :: targets ∧ t_status t ≠ "disabled" ∧
              (t_last_full_hunt_at t = None ∨
               ∃ j last_dt, t_last_full_hunt_at t = Some last_dt ∧
                            7 * day_us ≤ clock j - last_dt)).
    { intros (? & ? & ?)%IH. split; [by right|done]. }
    destruct (String.eqb_spec (t_status x) "disabled") as [Hd|Hd]; [done|].
    destruct (t_last_full_hunt_at x) as [last_dt|] eqn:Hlast.
    + destruct (Z.ltb_spec (clock i - last_dt) (7 * day_us)); [done|].
      intros [->|Hin]%elem_of_cons; [|by apply Hrest].
      split; [by left|]. split; [done|]. right. by exists i, last_dt.
    + intros [->|Hin]%elem_of_cons; [|by apply Hrest].
      split; [by left|]. split; [done|]. by left.
Qed.

Lemma retest_due_never_hunted clock i targets t :
  t ∈ targets → t_status t ≠ "disabled" → t_last_full_hunt_at t = None →
  t ∈ retest_due clock i targets.
Proof.
  revert i. induction targets as [|x targets IH]; intros i; cbn [retest_due].
  - by intros ?%elem_of_nil.
  - intros [->|Hin]%elem_of_cons Hst Hlast.
    + destruct (String.eqb_spec (t_status x) "disabled"); [done|].
      rewrite Hlast. by left.
    + destruct (String.eqb (t_status x) "disabled"); [by apply IH|].
      destruct (t_last_full_hunt_at x) as [last_dt|].
      * destruct (clock i - last_dt <? 7 * day_us); [by apply IH|].
        right. by apply IH.
      * right. by apply IH.
Qed.

(** X22. [schedule_full_retest] dispatches a hunt only for a target that
    is not disabled and was never hunted or was last hunted seven days
    ago or more, and it does so for every target that is not disabled
    and was never hunted.  So a target whose hunt has just completed is
    left alone until seven days after the moment [run_hunt] stamped. *)
Theorem schedule_full_retest_after_complete
    (target_id : Z) (w : world) (hunt_id : Z) (domain : string)
    (total : nat) (verified_count : Z) (reported : nat) (w' : world) :
  (∀ clock updated_at db t,
     (t ∈ schedule_full_retest clock updated_at db →
      t ∈ targets db ∧ t_status t ≠ "disabled" ∧
      (t_last_full_hunt_at t = None ∨
       ∃ j last_dt, t_last_full_hunt_at t = Some last_dt ∧
                    7 * day_us ≤ clock j - last_dt)) ∧
     (t ∈ targets db → t_status t ≠ "disabled" → t_last_full_hunt_at t = None →
      t ∈ schedule_full_retest clock updated_at db)) ∧
  (run_hunt E target_id w
   = (Ok (HComplete hunt_id domain total verified_count reported), w') →
   ∃ at_, ∀ clock updated_at,
     (∀ j, clock j < at_ + 7 * day_us) →
     ∀ t, t ∈ schedule_full_retest clock updated_at (db w') → t_domain t ≠ domain).
Proof.
  split.
  - intros clock updated_at d t. unfold schedule_full_retest. split.
    + intros (Hin & Hst & Hlast)%retest_due_spec. split; [|done].
      unfold TargetDB_list_all in Hin. by rewrite stable_sort_perm in Hin.
    + intros Hin Hst Hlast. apply retest_due_never_hunted; [|done|done].
      unfold TargetDB_list_all. by rewrite stable_sort_perm.
  - intros Hrun.
    apply (run_hunt_complete_inv (λ _, tt)) in Hrun
      as (w7 & verified & _ & -> & ->); [|done..].
    exists (now E (trace w7)). intros clock updated_at Hclock t Hin Hdom.
    unfold schedule_full_retest in Hin.
    apply retest_due_spec in Hin as (Hin & _ & Hlast).
    unfold TargetDB_list_all in Hin. rewrite stable_sort_perm in Hin.
    cbn [db release_target_lock_w with_leases with_stats with_db] in Hin.
    destruct (TargetDB_update_total _ _ _ _ _ Hin Hdom) as [_ Hat].
    destruct Hlast as [Hnone | (j & last_dt & Hsome & Hold)]; [congruence|].
    rewrite Hat in Hsome. injection Hsome as <-.
    specialize (Hclock j). lia.
Qed.

End BrainCompletion.

(** ** Scope rules, masks and credential files *)

Section ScopeFacts.
Import World ScopeParser.
Context (E : env) (fnmatch : string → string → bool).

(** X23. A pattern of the form [*.base] matches the base domain itself
    and every domain that ends with a dot and the base, and nothing
    else: a domain that merely ends with the letters of the base is not
    matched. *)
Theorem matches_pattern_wildcard (domain pattern base : string) :
  PyStr.strip pattern = "*." +:+ base →
  (_matches_pattern fnmatch domain pattern = true ↔
   domain = base ∨ ∃ sub, domain = sub +:+ "." +:+ base).
Proof.
  intros Hp. unfold _matches_pattern. rewrite Hp.
  change (PyStr.startswith "*." ("*." +:+ base)) with true.
  change (PyText.drop 2 ("*." +:+ base)) with base. cbv iota zeta.
  rewrite orb_true_iff, String.eqb_eq, endswith_iff. done.
Qed.

Lemma existsb_elem_of {A} (f : A → bool) (l : list A) :
  existsb f l = true ↔ ∃ x, x ∈ l ∧ f x = true.
Proof.
  rewrite existsb_exists. split; intros (x & Hx & Hf); exists x;
    by rewrite ?list_elem_of_In in *.
Qed.

Lemma existsb_false_elem_of {A} (f : A → bool) (l : list A) :
  existsb f l = false ↔ ∀ x, x ∈ l → f x = false.
Proof.
  induction l as [|y l IH]; cbn [existsb].
  - split; [by intros _ x ?%elem_of_nil|done].
  - rewrite orb_false_iff, IH. split.
    + intros [Hy Hl] x [->|Hx]%elem_of_cons; [done|by apply Hl].
    + intros H. split; [apply H; by left|]. intros x Hx. apply H. by right.
Qed.

(** X24. A URL or domain is in scope exactly when no out-of-scope pattern
    matches its domain and some in-scope pattern does; the exclusions are
    looked at first, and a scope without patterns admits nothing.  After
    [parse_scope] the patterns looked at are the stripped, lower-case
    forms of the configured ones. *)
Theorem is_in_scope_spec (url_or_domain : string) (scope : gmap string (list string)) :
  let domain := PyStr.lower (Validator._extract_domain E url_or_domain) in
  (is_in_scope E fnmatch url_or_domain scope = true ↔
   (∀ p, p ∈ scope_list "out_of_scope" scope → _matches_pattern fnmatch domain p = false) ∧
   (∃ p, p ∈ scope_list "in_scope" scope ∧ _matches_pattern fnmatch domain p = true)) ∧
  is_in_scope E fnmatch url_or_domain ∅ = false ∧
  scope_list "in_scope" (parse_scope scope)
  = (λ s, PyStr.lower (PyStr.strip s)) <$> scope_list "in_scope" scope ∧
  scope_list "out_of_scope" (parse_scope scope)
  = (λ s, PyStr.lower (PyStr.strip s)) <$> scope_list "out_of_scope" scope.
Proof.
  intros domain. split; [|split; [done|split; [done|]]].
  - unfold is_in_scope. fold domain.
    destruct (existsb _ (scope_list "out_of_scope" scope)) eqn:Hout.
    + split; [done|]. intros [Hno _].
      apply existsb_elem_of in Hout as (p & Hp & Hm). rewrite (Hno p Hp) in Hm. done.
    + rewrite existsb_elem_of. rewrite existsb_false_elem_of in Hout. by split; [|intros []].
  - unfold parse_scope, scope_list. rewrite lookup_insert_ne by done.
    by rewrite lookup_insert_eq.
Qed.

Lemma find_none_existsb {A} (f : A → bool) (l : list A) :
  List.find f l = None ↔ existsb f l = false.
Proof.
  induction l as [|y l IH]; cbn [List.find existsb]; [done|].
  destruct (f y); [done|exact IH].
Qed.

Lemma find_some_std {A} (f : A → bool) (l : list A) x :
  List.find f l = Some x → x ∈ l ∧ f x = true.
Proof. intros H%find_some. by rewrite list_elem_of_In. Qed.

(** X25. For a URL whose domain is already in lower case, the detailed
    check agrees with [is_in_scope]: the answer is in scope exactly when
    the rule it names is an IN rule.  The domain is not put in lower case
    for the rule, so for a domain with a capital letter the two parts of
    the answer can disagree: with the wildcard of its lower-case form in
    scope, the answer is in scope and names no rule. *)
Theorem validate_url_in_scope_rule (url : string) (scope : gmap string (list string)) :
  let domain := Validator._extract_domain E url in
  let result := validate_url_in_scope E fnmatch url scope in
  (PyStr.lower domain = domain →
   (sc_in_scope result = true ↔ ∃ p, sc_matched_rule result = "IN: " +:+ p)) ∧
  (PyStr.lower domain ≠ domain →
   PyStr.strip ("*." +:+ PyStr.lower domain) = "*." +:+ PyStr.lower domain →
   let wild := validate_url_in_scope E fnmatch url
                 {["in_scope" := ["*." +:+ PyStr.lower domain]]} in
   sc_in_scope wild = true ∧
   sc_matched_rule wild = "NO MATCH (default: out of scope)").
Proof.
  intros domain result. split.
  - intros Hlow. subst result. unfold validate_url_in_scope. cbn [sc_in_scope sc_matched_rule].
    unfold is_in_scope. fold domain. rewrite Hlow.
    destruct (List.find _ (scope_list "out_of_scope" scope)) as [p|] eqn:Hout.
    + apply find_some_std in Hout as [Hp Hm].
      assert (Hex : existsb (_matches_pattern fnmatch domain)
                      (scope_list "out_of_scope" scope) = true).
      { apply existsb_elem_of. by exists p. }
      rewrite Hex. split; [done|]. intros [q Hq]. cbv [String.append] in Hq. done.
    + apply find_none_existsb in Hout. rewrite Hout.
      destruct (List.find _ (scope_list "in_scope" scope)) as [p|] eqn:Hin.
      * apply find_some_std in Hin as [Hp Hm].
        assert (Hex : existsb (_matches_pattern fnmatch domain)
                        (scope_list "in_scope" scope) = true).
        { apply existsb_elem_of. by exists p. }
        rewrite Hex. split; [by exists p|done].
      * apply find_none_existsb in Hin. rewrite Hin. split; [done|].
        intros [q Hq]. cbv [String.append] in Hq. done.
  - intros Hcap Hstrip wild.
    assert (Hl : ∀ d, _matches_pattern fnmatch d ("*." +:+ PyStr.lower domain) = true ↔
                      d = PyStr.lower domain ∨
                      ∃ sub, d = sub +:+ "." +:+ PyStr.lower domain).
    { intros d. unfold _matches_pattern. rewrite Hstrip.
      change (PyStr.startswith "*." ("*." +:+ PyStr.lower domain)) with true.
      change (PyText.drop 2 ("*." +:+ PyStr.lower domain)) with (PyStr.lower domain).
      cbv iota zeta. rewrite orb_true_iff, String.eqb_eq, endswith_iff. done. }
    assert (Hlen : String.length (PyStr.lower domain) = String.length domain).
    { clear. induction domain as [|c s IH]; [done|]. cbn. by rewrite IH. }
    subst wild. unfold validate_url_in_scope. cbn [sc_in_scope sc_matched_rule].
    unfold is_in_scope. fold domain. unfold scope_list.
    rewrite lookup_singleton_ne by done. rewrite lookup_singleton_eq.
    cbn [default]. unfold id. cbn [existsb List.find].
    assert (H1 : _matches_pattern fnmatch (PyStr.lower domain)
                   ("*." +:+ PyStr.lower domain) = true).
    { apply Hl. by left. }
    assert (H2 : _matches_pattern fnmatch domain ("*." +:+ PyStr.lower domain) = false).
    { destruct (_matches_pattern fnmatch domain _) eqn:Hm; [|done].
      apply Hl in Hm as [Heq | [sub Heq]]; [congruence|].
      apply (f_equal String.length) in Heq.
      rewrite !str_length_app, Hlen in Heq. cbn in Heq. lia. }
    by rewrite H1, H2.
Qed.

End ScopeFacts.

Section EligibilityFacts.
Import ScopeParser.

Lemma lower_ascii_idem a : PyStr.lower_ascii (PyStr.lower_ascii a) = PyStr.lower_ascii a.
Proof. destruct a as [[] [] [] [] [] [] [] []]; reflexivity. Qed.

Lemma lower_idem s : PyStr.lower (PyStr.lower s) = PyStr.lower s.
Proof. induction s as [|c s IH]; [done|]. cbn. by rewrite lower_ascii_idem, IH. Qed.

Lemma excluded_on_iff platform finding_type :
  excluded_on platform finding_type ↔
  PyStr.lower finding_type ∈ default [] (Json.dict_get platform ineligible_types).
Proof.
  unfold excluded_on, check_finding_eligibility. cbn [el_eligible].
  rewrite negb_false_iff. apply bool_decide_eq_true.
Qed.

Lemma list_incl_decide (small big : list string) x :
  forallb (λ y, bool_decide (y ∈ big)) small = true → x ∈ small → x ∈ big.
Proof.
  intros H Hx. rewrite forallb_forall in H. apply list_elem_of_In in Hx.
  specialize (H x Hx). by apply bool_decide_eq_true in H.
Qed.

(** X26. A finding type is excluded on a platform exactly when its
    lower-case form is in the list of the platform; the answer does not
    depend on the case of the type.  A platform without a list excludes
    nothing.  What intigriti excludes, bugcrowd excludes, and what
    bugcrowd excludes, hackerone excludes.  The reason names the type and
    the platform when the type is excluded and reads Eligible
    otherwise. *)
Theorem check_finding_eligibility_spec (finding_type platform : string) :
  let result := check_finding_eligibility finding_type platform in
  (el_eligible result = false ↔
   PyStr.lower finding_type ∈ default [] (Json.dict_get platform ineligible_types)) ∧
  el_eligible (check_finding_eligibility (PyStr.lower finding_type) platform)
  = el_eligible result ∧
  (Json.dict_get platform ineligible_types = None → el_eligible result = true) ∧
  (excluded_on "intigriti" finding_type → excluded_on "bugcrowd" finding_type) ∧
  (excluded_on "bugcrowd" finding_type → excluded_on "hackerone" finding_type) ∧
  el_reason result
  = (if el_eligible result then "Eligible"
     else "'" +:+ finding_type +:+ "' is typically excluded by " +:+ platform).
Proof.
  intros result. split; [apply excluded_on_iff|]. split; [|split; [|split; [|split]]].
  - subst result. unfold check_finding_eligibility. cbn [el_eligible].
    by rewrite lower_idem.
  - intros Hnone. subst result. unfold check_finding_eligibility. cbn [el_eligible].
    rewrite Hnone. cbn [default]. rewrite bool_decide_eq_false_2; [done|].
    by intros ?%elem_of_nil.
  - rewrite !excluded_on_iff. by apply list_incl_decide.
  - rewrite !excluded_on_iff. by apply list_incl_decide.
  - done.
Qed.

End EligibilityFacts.

Section MaskFacts.
Import CredentialManager.

Lemma stars_length n : String.length (stars n) = n.
Proof. induction n as [|n IH]; [done|]. cbn. by rewrite IH. Qed.

Lemma stars_only n c : PyStr.contains (String c "") (stars n) = true → c = "*"%char.
Proof.
  induction n as [|n IH]; cbn; [done|].
  destruct (Ascii.eqb_spec c "*"); [done|]. cbn. exact IH.
Qed.

(** X27. A value of up to twice [show_chars] characters is masked by as
    many stars: the mask shows its length and no character of it.  A
    longer value is shown by its first [show_chars] and its last four
    characters with three dots between them; when [show_chars] is four or
    more, the characters between them, at least [show_chars - 3] of them,
    are not in the mask. *)
Theorem mask_value_hides (value : string) (show_chars : nat) :
  let n := String.length value in
  ((n ≤ show_chars * 2)%nat →
   mask_value value show_chars = stars n ∧
   String.length (mask_value value show_chars) = n ∧
   ∀ c, PyStr.contains (String c "") (mask_value value show_chars) = true →
        c = "*"%char) ∧
  ((show_chars * 2 < n)%nat → (4 ≤ show_chars)%nat →
   ∃ first hidden last,
     value = first +:+ hidden +:+ last ∧
     String.length first = show_chars ∧ String.length last = 4%nat ∧
     String.length hidden = (n - show_chars - 4)%nat ∧
     (show_chars - 3 ≤ String.length hidden)%nat ∧
     mask_value value show_chars = first +:+ "..." +:+ last ∧
     String.length (mask_value value show_chars) = (show_chars + 7)%nat).
Proof.
  intros n. unfold mask_value. fold n. split.
  - intros Hn. destruct (Nat.leb_spec n (show_chars * 2)); [|lia].
    split; [done|]. split; [apply stars_length|]. apply stars_only.
  - intros Hn Hshow. destruct (Nat.leb_spec n (show_chars * 2)); [lia|].
    destruct (drop_split show_chars value) as (first & Hfirst & Hlf); [fold n; lia|].
    set (rest := PyText.drop show_chars value) in *.
    assert (Hlr : String.length rest = (n - show_chars)%nat).
    { apply (f_equal String.length) in Hfirst. rewrite str_length_app in Hfirst.
      fold n in Hfirst. lia. }
    destruct (drop_split (String.length rest - 4) rest) as (hidden & Hrest & Hlh); [lia|].
    set (last := PyText.drop (String.length rest - 4) rest) in *.
    assert (Hll : String.length last = 4%nat).
    { apply (f_equal String.length) in Hrest. rewrite str_length_app in Hrest. lia. }
    assert (Hvalue : value = first +:+ hidden +:+ last) by (by rewrite <- Hrest).
    assert (Hlast4 : last4 value = last).
    { unfold last4. fold n. rewrite Hvalue at 1. rewrite <- str_app_assoc.
      replace (n - 4)%nat with (String.length (first +:+ hidden))
        by (rewrite str_length_app; lia).
      apply drop_app. }
    exists first, hidden, last. split; [done|]. split; [done|]. split; [done|].
    split; [lia|]. split; [lia|].
    assert (Hupto : PyStr.upto show_chars value = first).
    { rewrite Hvalue at 1. rewrite <- Hlf. apply upto_app. }
    rewrite Hupto, Hlast4. split; [done|].
    rewrite !str_length_app. cbn. lia.
Qed.

End MaskFacts.

Section ChatJsonText.
Import Json Py VLLMClient.

Lemma find_from_app c pre s i :
  0 <= i → PyStr.find_from c pre i = -1 →
  PyStr.find_from c (pre +:+ s) i = PyStr.find_from c s (i + Z.of_nat (String.length pre)).
Proof.
  revert i. induction pre as [|a pre IH]; intros i Hi Hp.
  - cbn. f_equal. lia.
  - rewrite str_app_String. cbn [PyStr.find_from String.length] in *.
    destruct (Ascii.eqb a c); [lia|].
    rewrite IH by (done || lia). f_equal. lia.
Qed.

Lemma rfind_from_app c a b i last :
  PyStr.rfind_from c (a +:+ b) i last
  = PyStr.rfind_from c b (i + Z.of_nat (String.length a)) (PyStr.rfind_from c a i last).
Proof.
  revert i last. induction a as [|x a IH]; intros i last.
  - cbn. f_equal. lia.
  - rewrite str_app_String. cbn [PyStr.rfind_from String.length].
    rewrite IH. f_equal. lia.
Qed.

Lemma rfind_from_absent c s j i last :
  0 <= j → PyStr.find_from c s j = -1 → PyStr.rfind_from c s i last = last.
Proof.
  revert j i last. induction s as [|a s IH]; intros j i last Hj; [done|].
  cbn [PyStr.find_from PyStr.rfind_from]. destruct (Ascii.eqb a c); [lia|].
  intros H. apply (IH (j + 1)); [lia|done].
Qed.

Lemma substring_app (a b c : string) :
  String.substring (String.length a) (String.length b) (a +:+ b +:+ c) = b.
Proof.
  induction a as [|x a IH]; [|exact IH].
  cbn [String.length String.append]. change ("" +:+ (b +:+ c)) with (b +:+ c).
  induction b as [|y b IHb]; [by destruct c|].
  rewrite str_app_String. cbn. by rewrite IHb.
Qed.

(** The span [chat_json] cuts out of a text that holds [opening ... closing]
    between a text without the opening and a text without the closing
    character *)
Lemma bracket_span opening closing pre body post :
  PyStr.find opening pre = -1 →
  PyStr.find closing post = -1 →
  let obj := String opening body +:+ String closing "" in
  let raw := pre +:+ obj +:+ post in
  (0 <=? PyStr.find opening raw) && (PyStr.find opening raw <? PyStr.rfind closing raw + 1)
  = true ∧
  PyStr.slice (PyStr.find opening raw) (PyStr.rfind closing raw + 1) raw = obj.
Proof.
  intros Hpre Hpost obj raw.
  assert (Hfind : PyStr.find opening raw = Z.of_nat (String.length pre)).
  { subst raw. unfold PyStr.find in *. rewrite find_from_app by done.
    subst obj. rewrite !str_app_String. cbn [PyStr.find_from].
    by rewrite Ascii.eqb_refl. }
  assert (Hrfind : PyStr.rfind closing raw + 1
                   = Z.of_nat (String.length pre) + Z.of_nat (String.length obj)).
  { subst raw. unfold PyStr.rfind, PyStr.find in *.
    rewrite rfind_from_app. rewrite rfind_from_app.
    rewrite (rfind_from_absent closing post 0) by done.
    subst obj. change (String opening body +:+ String closing "")
      with ((String opening body) +:+ String closing "").
    rewrite rfind_from_app. cbn [PyStr.rfind_from]. rewrite Ascii.eqb_refl.
    rewrite str_length_app. cbn [String.length]. lia. }
  split.
  - rewrite Hfind, Hrfind. apply andb_true_iff. split.
    + apply Z.leb_le. lia.
    + apply Z.ltb_lt. subst obj. rewrite str_length_app. cbn [String.length]. lia.
  - unfold PyStr.slice. rewrite Hfind, Hrfind.
    replace (Z.to_nat (Z.of_nat (String.length pre))) with (String.length pre) by lia.
    replace (Z.to_nat (Z.of_nat (String.length pre) + Z.of_nat (String.length obj)
                       - Z.of_nat (String.length pre)))
      with (String.length obj) by lia.
    apply substring_app.
Qed.

(** X28. Text around one JSON value is skipped.  When the reply is a
    text without an opening brace, then an object, then a text without a
    closing brace, [chat_json] returns the object; when the reply has no
    brace at all and is a text without an opening bracket, then an array,
    then a text without a closing bracket, it returns the array. *)
Theorem chat_json_skips_text (pre body post : string) (v : json) :
  (let obj := String "{" body +:+ "}" in
   JsonLoads.loads (pre +:+ obj +:+ post) = None →
   JsonLoads.loads obj = Some v →
   PyStr.find "{" pre = -1 → PyStr.find "}" post = -1 →
   chat_json (pre +:+ obj +:+ post) = Ok v) ∧
  (let arr := String "[" body +:+ "]" in
   JsonLoads.loads (pre +:+ arr +:+ post) = None →
   JsonLoads.loads arr = Some v →
   PyStr.find "{" (pre +:+ arr +:+ post) = -1 →
   PyStr.find "[" pre = -1 → PyStr.find "]" post = -1 →
   chat_json (pre +:+ arr +:+ post) = Ok v).
Proof.
  split.
  - intros obj Hraw Hobj Hpre Hpost. unfold chat_json. rewrite Hraw.
    destruct (bracket_span "{" "}" pre body post Hpre Hpost) as [Hc Hs].
    fold obj in Hc, Hs. cbv zeta. rewrite Hc, Hs.
    unfold loads_or_raise. by rewrite Hobj.
  - intros arr Hraw Harr Hnone Hpre Hpost. unfold chat_json. rewrite Hraw.
    cbv zeta. rewrite Hnone. cbn [Z.leb andb].
    change (0 <=? -1) with false. cbn [andb].
    destruct (bracket_span "[" "]" pre body post Hpre Hpost) as [Hc Hs].
    fold arr in Hc, Hs. rewrite Hc, Hs.
    unfold loads_or_raise. by rewrite Harr.
Qed.

End ChatJsonText.

Section CredentialFacts.
Import ModelsOrder CredentialStore.

Lemma rev_app_acc (a acc : string) :
  String.rev_app a acc = String.rev a +:+ acc.
Proof.
  unfold String.rev. revert acc. induction a as [|x a IH]; intros acc; [done|].
  cbn [String.rev_app]. rewrite (IH (String x acc)), (IH (String x "")).
  by rewrite str_app_assoc.
Qed.

Lemma rev_String x (s : string) : String.rev (String x s) = String.rev s +:+ String x "".
Proof. unfold String.rev at 1. cbn [String.rev_app]. apply rev_app_acc. Qed.

Lemma rev_app (a b : string) : String.rev (a +:+ b) = String.rev b +:+ String.rev a.
Proof.
  induction a as [|x a IH].
  - cbn. by rewrite str_app_empty_r.
  - rewrite str_app_String, !rev_String, IH. by rewrite str_app_assoc.
Qed.

Lemma rev_rev (s : string) : String.rev (String.rev s) = s.
Proof.
  induction s as [|x s IH]; [done|]. rewrite rev_String, rev_app, IH. done.
Qed.

Lemma lstrip_head_ok s : head_ok s = true → PyStr.lstrip s = s.
Proof. destruct s as [|c s]; [done|]. cbn. by intros ->%negb_true_iff. Qed.

Lemma strip_trimmed s : trimmed s = true → PyStr.strip s = s.
Proof.
  intros [H1 H2]%andb_true_iff. unfold PyStr.strip.
  by rewrite (lstrip_head_ok s), (lstrip_head_ok (String.rev s)), rev_rev.
Qed.

Lemma head_ok_app a b :
  head_ok a = true → (a = "" → head_ok b = true) → head_ok (a +:+ b) = true.
Proof. destruct a as [|c a]; [by intros _ H; apply H|done]. Qed.

Lemma rev_empty s : String.rev s = "" → s = "".
Proof. intros H. by rewrite <- (rev_rev s), H. Qed.

Lemma trimmed_line k v :
  trimmed k = true → trimmed v = true → trimmed (k +:+ "=" +:+ v) = true.
Proof.
  intros [Hk1 Hk2]%andb_true_iff [Hv1 Hv2]%andb_true_iff.
  apply andb_true_iff. split.
  - by apply head_ok_app.
  - rewrite !rev_app. rewrite str_app_assoc. by apply head_ok_app.
Qed.

Lemma before_app c k r :
  PyStr.contains (String c "") k = false →
  Validator.before c (k +:+ String c r) = k.
Proof.
  induction k as [|a k IH]; intros H.
  - change ("" +:+ String c r) with (String c r). cbn [Validator.before].
    by rewrite Ascii.eqb_refl.
  - rewrite str_app_String. cbn [Validator.before].
    cbn [PyStr.contains PyStr.startswith] in H.
    destruct (Ascii.eqb_spec a c) as [->|Hne].
    { rewrite Ascii.eqb_refl in H. by destruct k. }
    rewrite IH; [done|]. by apply orb_false_iff in H as [_ ?].
Qed.

Lemma after_app c k r :
  PyStr.contains (String c "") k = false →
  after c (k +:+ String c r) = r.
Proof.
  induction k as [|a k IH]; intros H.
  - change ("" +:+ String c r) with (String c r). cbn [after].
    by rewrite Ascii.eqb_refl.
  - rewrite str_app_String. cbn [after].
    cbn [PyStr.contains PyStr.startswith] in H.
    destruct (Ascii.eqb_spec a c) as [->|Hne].
    { rewrite Ascii.eqb_refl in H. by destruct k. }
    rewrite IH; [done|]. by apply orb_false_iff in H as [_ ?].
Qed.

Lemma contains_app_r needle a b :
  PyStr.startswith needle b = true → PyStr.contains needle (a +:+ b) = true.
Proof.
  intros H. induction a as [|x a IH].
  - change ("" +:+ b) with b. destruct b; cbn [PyStr.contains]; by rewrite H.
  - rewrite str_app_String. cbn [PyStr.contains]. rewrite IH. apply orb_true_r.
Qed.

Lemma value_ok_inv v :
  value_ok v = true → one_line v = true ∧ trimmed v = true.
Proof. unfold value_ok. by intros [[_ ?]%andb_true_iff ?]%andb_true_iff. Qed.

Lemma key_ok_inv k :
  key_ok k = true →
  one_line k = true ∧ trimmed k = true ∧
  PyStr.contains "=" k = false ∧ PyStr.startswith "#" k = false.
Proof.
  unfold key_ok. intros [[Hv He%negb_true_iff]%andb_true_iff Hh%negb_true_iff]%andb_true_iff.
  by destruct (value_ok_inv k Hv).
Qed.

(** A line [k=v] is read as the entry of [k] and [v]. *)
Lemma load_line_entry creds k v :
  key_ok k = true → value_ok v = true →
  load_line creds (k +:+ "=" +:+ v) = <[k := v]> creds.
Proof.
  intros (_ & Hkt & Hke & Hkh)%key_ok_inv (_ & Hvt)%value_ok_inv.
  unfold load_line. rewrite (strip_trimmed _ (trimmed_line k v Hkt Hvt)).
  assert (Ht : PyStr.truthy (k +:+ "=" +:+ v) = true) by (by destruct k).
  assert (Hs : PyStr.startswith "#" (k +:+ "=" +:+ v) = false).
  { destruct k as [|c k]; [done|]. exact Hkh. }
  rewrite Ht, Hs. cbn [negb orb].
  rewrite contains_app_r by done.
  change ("=" +:+ v) with (String "=" v).
  rewrite before_app, after_app by done.
  by rewrite !strip_trimmed.
Qed.

Lemma load_line_comment creds text :
  load_line creds (String "#" text) = creds.
Proof.
  unfold load_line.
  destruct (PyStr.strip (String "#" text)) as [|c s] eqn:Hs; [done|].
  assert (c = "#"%char) as ->; [|reflexivity].
  unfold PyStr.strip in Hs. cbn [PyStr.lstrip] in Hs.
  change (PyStr.is_ws "#") with false in Hs. cbv iota in Hs.
  rewrite rev_String in Hs.
  (* the last character of the reversed text is the hash, and it stays *)
  assert (Hl : ∀ t, ∃ r, PyStr.lstrip (t +:+ "#") = r +:+ "#").
  { intros t. induction t as [|a t IH]; [exists ""; reflexivity|].
    rewrite str_app_String. cbn [PyStr.lstrip].
    destruct (PyStr.is_ws a); [exact IH|]. by exists (String a t). }
  destruct (Hl (String.rev text)) as [r Hr]. rewrite Hr, rev_app in Hs.
  cbn in Hs. by injection Hs as <- _.
Qed.

Lemma load_line_empty creds : load_line creds "" = creds.
Proof. reflexivity. Qed.

(** *** Reading the lines back *)

Lemma file_lines_line l acc rest :
  one_line l = true →
  file_lines (l +:+ newline +:+ rest) acc = (acc +:+ l) :: file_lines rest "".
Proof.
  revert acc. induction l as [|c l IH]; intros acc Hl.
  - cbn. by rewrite str_app_empty_r.
  - cbn [one_line] in Hl. apply andb_true_iff in Hl as [Hc Hl].
    apply negb_true_iff, orb_false_iff in Hc as [Hc1 Hc2].
    rewrite str_app_String. cbn [file_lines]. rewrite Hc1, Hc2.
    rewrite IH by done. by rewrite str_app_assoc.
Qed.

Lemma file_lines_last l acc :
  one_line l = true →
  file_lines l acc = if PyStr.truthy (acc +:+ l) then [acc +:+ l] else [].
Proof.
  revert acc. induction l as [|c l IH]; intros acc Hl.
  - cbn. by rewrite str_app_empty_r.
  - cbn [one_line] in Hl. apply andb_true_iff in Hl as [Hc Hl].
    apply negb_true_iff, orb_false_iff in Hc as [Hc1 Hc2].
    cbn [file_lines]. rewrite Hc1, Hc2. rewrite IH by done.
    by rewrite str_app_assoc.
Qed.

Lemma load_lines_joined lines acc :
  Forall (λ l, one_line l = true) lines →
  fold_left load_line (file_lines (String.concat newline lines) "") acc
  = fold_left load_line lines acc.
Proof.
  intros Hall. revert acc. induction Hall as [|l lines Hl Hlines IH]; intros acc; [done|].
  destruct lines as [|l' lines'].
  - cbn [String.concat]. rewrite file_lines_last by done. cbn [String.append].
    destruct l; [done|]. done.
  - change (String.concat newline (l :: l' :: lines'))
      with (l +:+ newline +:+ String.concat newline (l' :: lines')).
    rewrite file_lines_line by done. cbn [fold_left String.append]. apply IH.
Qed.

(** *** The entries of a group *)

Lemma one_line_app a b : one_line (a +:+ b) = one_line a && one_line b.
Proof.
  induction a as [|c a IH]; [done|]. rewrite str_app_String. cbn [one_line].
  by rewrite IH, andb_assoc.
Qed.

Lemma group_one_line title keys creds :
  one_line title = true → creds_ok creds → Forall (λ k, is_Some (creds !! k)) keys →
  Forall (λ l, one_line l = true) (group title keys creds).
Proof.
  intros Ht Hok Hkeys. destruct keys as [|k keys]; [constructor|].
  unfold group. constructor; [done|]. apply Forall_app. split; [|by repeat constructor].
  apply Forall_forall. intros l (k' & -> & Hin)%list_elem_of_fmap.
  rewrite Forall_forall in Hkeys. destruct (Hkeys k' Hin) as [v Hv].
  rewrite Hv. cbn [default]. unfold id. destruct (Hok k' v Hv) as [Hk Hvo].
  apply key_ok_inv in Hk as (Hk & _). apply value_ok_inv in Hvo as (Hvo & _).
  rewrite !one_line_app, Hk, Hvo. done.
Qed.

Lemma load_entries keys creds acc :
  creds_ok creds → Forall (λ k, is_Some (creds !! k)) keys →
  fold_left load_line (map (λ k, k +:+ "=" +:+ default "" (creds !! k)) keys) acc
  = fold_left (λ m k, <[k := default "" (creds !! k)]> m) keys acc.
Proof.
  intros Hok Hkeys. revert acc.
  induction Hkeys as [|k keys [v Hv] Hkeys IH]; intros acc; [done|].
  cbn [map fold_left]. rewrite IH. f_equal.
  rewrite Hv. cbn [default]. unfold id.
  destruct (Hok k v Hv). by apply load_line_entry.
Qed.

Lemma load_group text keys creds acc :
  creds_ok creds →
  Forall (λ k, is_Some (creds !! k)) keys →
  fold_left load_line (group (String "#" text) keys creds) acc
  = fold_left (λ m k, <[k := default "" (creds !! k)]> m) keys acc.
Proof.
  intros Hok Hkeys. rewrite <- (load_entries _ _ _ Hok Hkeys).
  unfold group. destruct keys as [|k0 keys0]; [done|].
  set (entries := map _ (k0 :: keys0)).
  cbn [fold_left]. rewrite load_line_comment.
  rewrite fold_left_app. cbn [fold_left]. by rewrite load_line_empty.
Qed.

Lemma insert_keys_lookup (creds : gmap string string) keys
    (acc : gmap string string) k :
  fold_left (λ m k, <[k := default "" (creds !! k)]> m) keys acc !! k
  = if bool_decide (k ∈ keys) then Some (default "" (creds !! k)) else acc !! k.
Proof.
  revert acc. induction keys as [|x keys IH]; intros acc.
  - cbn. by rewrite bool_decide_eq_false_2 by (by intros ?%elem_of_nil).
  - cbn [fold_left]. rewrite IH.
    destruct (decide (k ∈ keys)) as [Hin|Hin].
    + rewrite !bool_decide_eq_true_2; [done|by right|done].
    + rewrite (bool_decide_eq_false_2 _ Hin).
      destruct (decide (k = x)) as [->|Hne].
      * rewrite bool_decide_eq_true_2 by (by left). by rewrite lookup_insert_eq.
      * rewrite bool_decide_eq_false_2; [by rewrite lookup_insert_ne|].
        by intros [?|?]%elem_of_cons.
Qed.

Lemma sorted_keys_elem test (creds : gmap string string) k :
  k ∈ sorted_keys test creds ↔ is_Some (creds !! k) ∧ test k = true.
Proof.
  unfold sorted_keys. rewrite stable_sort_perm, elem_of_list_filter_std.
  by rewrite elem_of_elements, elem_of_dom.
Qed.

Lemma header_one_line prefix text :
  one_line prefix = true → one_line text = true → one_line (prefix +:+ text) = true.
Proof. intros H1 H2. by rewrite one_line_app, H1, H2. Qed.

(** X29. What is saved is what is loaded: when the keys and the values are
    ASCII texts of one line without white space at their ends, and no key
    holds an equals sign or starts with a hash, [load_credentials] reads
    back from the file [save_credentials] wrote exactly the credentials
    given, whatever the groups they were written in. *)
Theorem load_credentials_after_save
    (created refreshed target : string) (creds : gmap string string)
    (files : gmap string string) :
  one_line target = true → one_line created = true → one_line refreshed = true →
  (∀ k v, creds !! k = Some v → key_ok k = true ∧ value_ok v = true) →
  load_credentials target (save_credentials created refreshed target creds files)
  = creds.
Proof.
  intros Ht Hc Hr Hok.
  unfold load_credentials, save_credentials. rewrite lookup_insert_eq.
  assert (Hkeys : ∀ test, Forall (λ k, is_Some (creds !! k)) (sorted_keys test creds)).
  { intros test. apply Forall_forall. intros k Hk. by apply sorted_keys_elem in Hk as [? _]. }
  rewrite load_lines_joined.
  2: { apply Forall_app. split.
       { repeat constructor; by apply header_one_line. }
       apply Forall_app. split; [by apply group_one_line|].
       apply Forall_app. split; by apply group_one_line. }
  rewrite !fold_left_app. cbn [fold_left].
  rewrite !str_app_String, !load_line_comment, load_line_empty.
  rewrite !load_group by done.
  apply map_eq. intros k. rewrite !insert_keys_lookup. rewrite lookup_empty.
  destruct (creds !! k) as [v|] eqn:Hv.
  - assert (Hone : is_user_a k = true ∨ is_user_b k = true ∨ is_other k = true).
    { unfold is_other. destruct (is_user_a k), (is_user_b k); auto. }
    destruct (decide (k ∈ sorted_keys is_other creds)) as [Ho|Ho].
    { by rewrite bool_decide_eq_true_2. }
    rewrite (bool_decide_eq_false_2 _ Ho).
    destruct (decide (k ∈ sorted_keys is_user_b creds)) as [Hb|Hb].
    { by rewrite bool_decide_eq_true_2. }
    rewrite (bool_decide_eq_false_2 _ Hb).
    destruct (decide (k ∈ sorted_keys is_user_a creds)) as [Ha|Ha].
    { by rewrite bool_decide_eq_true_2. }
    exfalso. rewrite sorted_keys_elem in Ha, Hb, Ho. rewrite Hv in Ha, Hb, Ho.
    destruct Hone as [H|[H|H]]; [apply Ha|apply Hb|apply Ho]; by split.
  - rewrite !bool_decide_eq_false_2; [done|..];
      rewrite sorted_keys_elem, Hv; by intros [[? ?] _].
Qed.

End CredentialFacts.

(** ** Sample runs of the further properties *)

Section FurtherWitnesses.
Import Models Json Py World Scenario Samples.

Lemma get_stats_after_increment_witness :
  TaskQueueStats.get_stats counted_keys
    (TaskQueue.increment_stat "hunts_completed" 1 counted)
  = {["findings_total" := 3; "hunts_completed" := 1]}.
Proof.
  assert (Hname : TaskQueueStats.clean_name "hunts_completed") by reflexivity.
  assert (Hstore : TaskQueueStats.clean_store counted).
  { intros k [n Hk]. unfold counted in Hk.
    apply lookup_singleton_Some in Hk as [<- _]. by exists "findings_total". }
  assert (Hkeys : TaskQueueStats.keys_answer TaskQueueStats.stats_prefix
                    (TaskQueue.increment_stat "hunts_completed" 1 counted) counted_keys).
  { split; [by apply (bool_decide_eq_true_1 (NoDup counted_keys))|].
    intros k. unfold TaskQueue.increment_stat, counted_keys, counted.
    rewrite !elem_of_cons, elem_of_nil. split.
    - intros [->|[->|[]]]; (split; [eexists|]; vm_compute; reflexivity).
    - intros [[n Hk] _]. apply lookup_insert_Some in Hk as [[<- _]|[_ Hk]]; [by auto|].
      apply lookup_singleton_Some in Hk as [<- _]. by auto. }
  destruct (get_stats_after_increment counted "hunts_completed" 1 counted_keys
              Hname Hstore Hkeys) as [Hkey Hother].
  apply map_eq. intros name.
  destruct (decide (name = "hunts_completed")) as [->|Hne]; [by rewrite Hkey|].
  rewrite (Hother name Hne).
  destruct (decide (name = "findings_total")) as [->|Hne']; [reflexivity|].
  rewrite lookup_insert_ne, lookup_singleton_ne by done.
  apply lookup_singleton_None. intros H. apply Hne'.
  symmetry. by apply (stats_prefix_inj "findings_total" name).
Defined.

Lemma get_hunt_state_after_set_witness :
  TaskQueueData.get_hunt_state 86399 7 (TaskQueueData.set_hunt_state 0 7 a_state ∅)
  = Ok (Some a_state) ∧
  TaskQueueData.get_hunt_state 86400 7 (TaskQueueData.set_hunt_state 0 7 a_state ∅)
  = Ok None.
Proof.
  destruct (get_hunt_state_after_set ∅ 0 86399 7 a_state eq_refl) as (Hread & _ & _).
  destruct (get_hunt_state_after_set ∅ 0 86400 7 a_state eq_refl) as (_ & Hgone & _).
  split; [apply Hread | apply Hgone]; lia.
Defined.

Lemma get_findings_after_publish_witness :
  TaskQueueData.get_findings 7
    (TaskQueueData.publish_finding 7 a_report
       (TaskQueueData.publish_finding 7 a_state ∅))
  = Ok [a_state; a_report].
Proof.
  apply (proj1 (get_findings_after_publish
                  (TaskQueueData.publish_finding 7 a_state ∅) 7 a_report [a_state]
                  eq_refl)).
  vm_compute; reflexivity.
Defined.

Lemma get_all_worker_status_after_set_witness :
  ∃ m, TaskQueueData.get_all_worker_status 700
         (TaskQueueData.set_worker_status 200 "w2" a_report one_worker) = Ok m ∧
       m !! "w2" = Some a_report ∧ m !! "w1" = Some idle_report.
Proof.
  assert (Hraw : map_Forall (λ _ raw, is_Some (JsonLoads.loads raw))
                   (TaskQueueData.fields_at 200 one_worker)).
  { intros k raw Hk. change (TaskQueueData.fields_at 200 one_worker)
      with ({["w1" := JsonDumps.dumps idle_report]} : gmap string string) in Hk.
    apply lookup_singleton_Some in Hk as [_ <-]. by eexists. }
  destruct (get_all_worker_status_after_set one_worker 200 700 "w2" a_report
              eq_refl Hraw) as [Hread _].
  destruct Hread as (m & Hm & Hw2 & Hothers); [lia|].
  exists m. split; [exact Hm|]. split; [exact Hw2|].
  rewrite (Hothers "w1") by done. reflexivity.
Defined.

Lemma HuntDB_create_get_witness :
  ModelsRows.hunts_wf a_database ∧
  HuntDB_create 5 "light" a_database = (Raise IntegrityError, a_database) ∧
  ∃ id db', HuntDB_create 1 "light" a_database = (Ok id, db') ∧
    HuntDB_get id a_database = None ∧
    HuntDB_get id db'
    = Some (mk_hunt id 1 "light" "running" "recon" None 0 PyNone).
Proof.
  assert (Hwf : ModelsRows.hunts_wf a_database).
  { apply Forall_cons_2; [cbn; lia | apply Forall_nil_2]. }
  split; [exact Hwf|]. split.
  - destruct (HuntDB_create_get 5 "light" a_database Hwf) as [Hnone _].
    apply Hnone. reflexivity.
  - destruct (HuntDB_create_get 1 "light" a_database Hwf) as [_ Hsome].
    destruct Hsome as (id & db' & Hcreate & Hfresh & Hnew & _); [by eexists|].
    exists id, db'. split; [exact Hcreate|]. split; [exact Hfresh | exact Hnew].
Defined.

Lemma validate_finding_marks_row_witness :
  ∃ f', FindingDB_get 1
          (db (Validator.validate_finding env_confirmed 1 7 world_with_finding).2)
        = Some f' ∧
        (f_status f' = "verified" ∨ f_status f' = "false_positive").
Proof.
  destruct (Validator.validate_finding env_confirmed 1 7 world_with_finding)
    as [[r|e] w'] eqn:Hrun.
  2: { exfalso. vm_compute in Hrun. discriminate. }
  destruct (validate_finding_marks_row env_confirmed 1 7 world_with_finding) as [_ Hrow].
  destruct (Hrow _ r w' eq_refl Hrun) as (f' & Hf' & [[_ Hm]|[_ [Hm _]]]);
    exists f'; (split; [exact Hf'|]); [left|right]; apply Hm.
Defined.

Lemma run_hunt_skipped_iff_witness :
  Brain.run_hunt env_confirmed 1 locked_world
  = (Ok (Brain.HSkipped "a.com is already being hunted"), locked_world).
Proof.
  apply run_hunt_skipped_iff. exists (a_target 0).
  repeat split; vm_compute; reflexivity.
Defined.

Lemma run_hunt_releases_lock_witness :
  leases (Brain.run_hunt env_scan_timeout 1 (fresh_world 0)).2
  = delete (TaskQueue.lock_key "a.com") (leases (fresh_world 0)).
Proof.
  exact (run_hunt_releases_lock env_scan_timeout 1 (fresh_world 0) (a_target 0)
           eq_refl eq_refl).
Defined.

Lemma run_hunt_recon_error_witness :
  (Brain.run_hunt env_recon_error 1 (fresh_world 0)).1
  = Ok (Brain.HFailed "recon" (PyStr "dns failure")) ∧
  trace (Brain.run_hunt env_recon_error 1 (fresh_world 0)).2 = [EvRecon 1 1 "a.com"] ∧
  leases (Brain.run_hunt env_recon_error 1 (fresh_world 0)).2
    !! TaskQueue.lock_key "a.com" = None.
Proof.
  pose (w0 := (Brain.set_target_lock_m env_recon_error "a.com" 7200 (fresh_world 0)).2).
  pose (w1 := (Brain.HuntDB_create_m 1 "full" w0).2).
  pose (rr := mk_recon_result (PyStr "error") (PyStr "dns failure")).
  pose (w2 := (Brain.recon env_recon_error 1 1 "a.com" w1).2).
  destruct (run_hunt_recon_error env_recon_error 1 (fresh_world 0) (a_target 0)
              w0 1 w1 rr w2 eq_refl eq_refl eq_refl eq_refl eq_refl)
    as (Hrun & Htrace & Hlock & _).
  split; [by rewrite Hrun|]. split; [exact Htrace | exact Hlock].
Defined.


Lemma target_lock_free_after_release_or_expiry_witness :
  TaskQueue.is_target_locked 7299 "a.com" (TaskQueue.set_target_lock 100 "a.com" 7200 ∅).2
  = true ∧
  (TaskQueue.set_target_lock 7300 "a.com" 7200
     (TaskQueue.set_target_lock 100 "a.com" 7200 ∅).2).1 = true.
Proof.
  assert (Htaken : (TaskQueue.set_target_lock 100 "a.com" 7200 ∅).1 = true)
    by (vm_compute; reflexivity).
  destruct (target_lock_free_after_release_or_expiry ∅ "a.com" 100 7200 7299 7200
              Htaken) as ([_ Hheld] & _).
  destruct (target_lock_free_after_release_or_expiry ∅ "a.com" 100 7200 7300 7200
              Htaken) as (_ & Hfree & _).
  split; [apply Hheld | apply Hfree]; lia.
Defined.

Lemma release_target_lock_ignores_owner_witness :
  (TaskQueue.run
     [(0, TaskQueue.Acquire "a.com" 7200); (7200, TaskQueue.Acquire "a.com" 7200);
      (7300, TaskQueue.IsLocked "a.com"); (7300, TaskQueue.Release "a.com");
      (7400, TaskQueue.IsLocked "a.com"); (7400, TaskQueue.Acquire "a.com" 7200)] ∅).1
  = [true; true; true; true; false; true].
Proof.
  apply (release_target_lock_ignores_owner ∅ "a.com" 0 7200 7200 7200 7300 7400 7200);
    [reflexivity | lia ..].
Defined.

Lemma matches_pattern_wildcard_witness :
  ScopeParser._matches_pattern exact_fnmatch "api.a.com" " *.a.com " = true ∧
  ScopeParser._matches_pattern exact_fnmatch "a.com" " *.a.com " = true.
Proof.
  split.
  - apply (matches_pattern_wildcard exact_fnmatch "api.a.com" " *.a.com " "a.com" eq_refl).
    right. by exists "api".
  - apply (matches_pattern_wildcard exact_fnmatch "a.com" " *.a.com " "a.com" eq_refl).
    by left.
Defined.

Lemma validate_url_in_scope_rule_witness :
  ScopeParser.sc_in_scope (ScopeParser.validate_url_in_scope env_confirmed exact_fnmatch
                 "API.a.com/users" {["in_scope" := ["*.api.a.com"]]}) = true ∧
  ScopeParser.sc_matched_rule (ScopeParser.validate_url_in_scope env_confirmed exact_fnmatch
                     "API.a.com/users" {["in_scope" := ["*.api.a.com"]]})
  = "NO MATCH (default: out of scope)".
Proof.
  apply (proj2 (validate_url_in_scope_rule env_confirmed exact_fnmatch
                  "API.a.com/users" ∅)).
  - intros H. vm_compute in H. discriminate.
  - reflexivity.
Defined.

Lemma mask_value_hides_witness :
  String.length (CredentialManager.mask_value "sk-live-1234567890abcdef" 4) = 11%nat ∧
  CredentialManager.mask_value "secret" 4 = "******".
Proof.
  destruct (mask_value_hides "sk-live-1234567890abcdef" 4) as [_ Hlong].
  destruct (mask_value_hides "secret" 4) as [Hshort _].
  split.
  - destruct Hlong as (first & hidden & last & _ & _ & _ & _ & _ & _ & Hlen);
      [vm_compute; lia | lia | exact Hlen].
  - apply Hshort. vm_compute; lia.
Defined.

Lemma chat_json_skips_text_witness :
  VLLMClient.chat_json "result: {} (empty)" = Ok (JObj []) ∧
  VLLMClient.chat_json "ids: [1, 2] done" = Ok (JArr [JInt 1; JInt 2]).
Proof.
  split.
  - apply (proj1 (chat_json_skips_text "result: " "" " (empty)" (JObj [])));
      vm_compute; reflexivity.
  - apply (proj2 (chat_json_skips_text "ids: " "1, 2" " done" (JArr [JInt 1; JInt 2])));
      vm_compute; reflexivity.
Defined.

Lemma load_credentials_after_save_witness :
  CredentialStore.load_credentials "a.com"
    (CredentialStore.save_credentials "2026-01-01T00:00:00+00:00"
       "2026-01-01T00:00:01+00:00" "a.com" some_credentials ∅)
  = some_credentials.
Proof.
  apply load_credentials_after_save; [reflexivity ..|].
  intros k v Hk. unfold some_credentials in Hk.
  repeat (apply lookup_insert_Some in Hk as [[<- <-]|[_ Hk]]; [by vm_compute|]).
  by apply lookup_singleton_Some in Hk as [<- <-].
Defined.

End FurtherWitnesses.
